(** * FormulaEvaluator: a two-stack evaluator for spreadsheet formulas

    Shallow embedding of [src/Engine/FormulaEvaluator.ts].

    - JavaScript numbers are IEEE-754 binary64 values: [spec_float] with the
      operations of [SpecFloat] at precision 53 and maximal exponent 1024.
    - The built-ins the class calls ([Number], [isNaN], [||], truthiness of
      strings, [===] on numbers) are modelled in [Module JS].
    - The class keeps its answer in the instance fields [_result] and
      [_errorMessage]; the two stacks are locals of [evaluate] that [compute]
      mutates through the reference it is handed.  Both live in a [Frame]
      that a small state-and-completion monad threads through the code.
    - A JavaScript array used as a stack is a [list] whose head is the top of
      the stack: [push] is cons, [pop] removes the head, and index 0 (the
      bottom of the stack) is the last element of the list.
    - A token is a [string] of bytes (UTF-8).
    - The cell storage and its cells are read through total functions: a
      lookup always answers and raises nothing. *)

From Stdlib Require Import ZArith List String Ascii Bool Lia.
From Stdlib Require Import Floats.SpecFloat.
Import ListNotations.
Local Open Scope string_scope.

(** ** JavaScript built-ins used by the evaluator *)

Module JS.

Definition number := spec_float.

Definition prec : Z := 53.
Definition emax : Z := 1024.

Definition Infinity : number := S754_infinity false.
Definition NaN : number := S754_nan.
Definition zero : number := S754_zero false.

Definition add (a b : number) : number := SFadd prec emax a b.
Definition sub (a b : number) : number := SFsub prec emax a b.
Definition mul (a b : number) : number := SFmul prec emax a b.
Definition div (a b : number) : number := SFdiv prec emax a b.

(** The number that an integer literal denotes. *)
Definition ofZ (z : Z) : number := binary_normalize prec emax z 0 false.

(** [isNaN(x)] on a number. *)
Definition isNaN (x : number) : bool :=
  match x with
  | S754_nan => true
  | _ => false
  end.

(** [x === y] on numbers: IEEE equality ([-0 === 0], [NaN !== NaN]). *)
Definition strictEq (x y : number) : bool := SFeqb x y.

(** ToBoolean on a number: [0], [-0] and [NaN] are falsy. *)
Definition numberToBoolean (x : number) : bool :=
  match x with
  | S754_zero _ => false
  | S754_nan => false
  | _ => true
  end.

(** [x || d] where [x] is the result of [Array.prototype.pop] on a
    [number[]]: [None] stands for [undefined]. *)
Definition orElse (x : option number) (d : number) : number :=
  match x with
  | Some v => if numberToBoolean v then v else d
  | None => d
  end.

(** ToBoolean on a string: only the empty string is falsy. *)
Definition stringToBoolean (s : string) : bool :=
  match s with
  | EmptyString => false
  | String _ _ => true
  end.

(** *** [Number(string)]: StringToNumber of ECMAScript

    Strings are sequences of bytes (UTF-8).  The literal grammar is
    [StrWhiteSpace? StrNumericLiteral? StrWhiteSpace?] where a
    [StrNumericLiteral] is a signed decimal literal (with [Infinity],
    optional fraction, optional exponent) or an unsigned [0x], [0o] or [0b]
    integer literal.  Anything else is [NaN]. *)

Definition byte (c : ascii) : nat := nat_of_ascii c.

Definition isDecimalDigit (c : ascii) : bool :=
  (48 <=? byte c)%nat && (byte c <=? 57)%nat.

Definition hexDigitValue (c : ascii) : option Z :=
  let n := byte c in
  if (48 <=? n)%nat && (n <=? 57)%nat then Some (Z.of_nat (n - 48))
  else if (97 <=? n)%nat && (n <=? 102)%nat then Some (Z.of_nat (n - 87))
  else if (65 <=? n)%nat && (n <=? 70)%nat then Some (Z.of_nat (n - 55))
  else None.

(** The value of a digit in the given radix, if it is one. *)
Definition digitValue (radix : Z) (c : ascii) : option Z :=
  match hexDigitValue c with
  | Some v => if (v <? radix)%Z then Some v else None
  | None => None
  end.

(** Reads the longest run of digits at the front of [s]; returns the
    accumulated value, the number of digits read and what follows. *)
Fixpoint scanDigits (radix : Z) (s : string) (acc : Z) (count : nat)
  : Z * nat * string :=
  match s with
  | String c rest =>
      match digitValue radix c with
      | Some v => scanDigits radix rest (acc * radix + v)%Z (S count)
      | None => (acc, count, s)
      end
  | EmptyString => (acc, count, s)
  end.

(** WhiteSpace and LineTerminator code points, in their UTF-8 encodings:
    TAB LF VT FF CR SP, U+00A0, U+1680, U+2000..U+200A, U+2028, U+2029,
    U+202F, U+205F, U+3000 and U+FEFF. *)
Definition isAsciiWhiteSpace (c : ascii) : bool :=
  let n := byte c in
  ((9 <=? n)%nat && (n <=? 13)%nat) || (n =? 32)%nat.

Definition isWhiteSpace2 (c1 c2 : ascii) : bool :=
  (byte c1 =? 194)%nat && (byte c2 =? 160)%nat.

Definition isWhiteSpace3 (c1 c2 c3 : ascii) : bool :=
  let '(a, b, c) := (byte c1, byte c2, byte c3) in
  ((a =? 225) && (b =? 154) && (c =? 128))%nat
  || ((a =? 226) && (b =? 128) && ((128 <=? c) && (c <=? 138)))%nat
  || ((a =? 226) && (b =? 128) && ((c =? 168) || (c =? 169) || (c =? 175)))%nat
  || ((a =? 226) && (b =? 129) && (c =? 159))%nat
  || ((a =? 227) && (b =? 128) && (c =? 128))%nat
  || ((a =? 239) && (b =? 187) && (c =? 191))%nat.

Fixpoint skipWhiteSpace (s : string) : string :=
  match s with
  | String c1 r1 =>
      if isAsciiWhiteSpace c1 then skipWhiteSpace r1
      else
        match r1 with
        | String c2 r2 =>
            if isWhiteSpace2 c1 c2 then skipWhiteSpace r2
            else
              match r2 with
              | String c3 r3 =>
                  if isWhiteSpace3 c1 c2 c3 then skipWhiteSpace r3 else s
              | EmptyString => s
              end
        | EmptyString => s
        end
  | EmptyString => s
  end.

(** Strips [prefix] from the front of [s]. *)
Fixpoint stripPrefix (prefix s : string) : option string :=
  match prefix, s with
  | EmptyString, _ => Some s
  | String p prefix', String c s' =>
      if Ascii.eqb p c then stripPrefix prefix' s' else None
  | String _ _, EmptyString => None
  end.

(** The mathematical value of a literal before rounding. *)
Inductive MV :=
| MVInfinity
| MVDecimal (mantissa : Z) (exponent10 : Z).

(** ExponentPart: [e] or [E], an optional sign, at least one digit. *)
Definition scanExponent (s : string) : Z * string :=
  match s with
  | String c rest =>
      if (byte c =? 101)%nat || (byte c =? 69)%nat then
        let '(negative, digitsAt) :=
          match rest with
          | String sg rest' =>
              if (byte sg =? 45)%nat then (true, rest')
              else if (byte sg =? 43)%nat then (false, rest')
              else (false, rest)
          | EmptyString => (false, rest)
          end in
        let '(v, n, after) := scanDigits 10 digitsAt 0 0 in
        match n with
        | O => (0%Z, s)
        | S _ => ((if negative then - v else v)%Z, after)
        end
      else (0%Z, s)
  | EmptyString => (0%Z, s)
  end.

(** What may follow the integer part of a decimal literal: a point with the
    fraction digits, then an exponent.  [ip] and [ni] are the value and the
    number of digits of the integer part; a literal needs a digit on one
    side of the point at least. *)
Definition scanFraction (ip : Z) (ni : nat) (afterInt : string)
  : option (MV * string) :=
  let '(m, nf, afterFrac, hasDigits) :=
    match afterInt with
    | String dot rest =>
        if (byte dot =? 46)%nat then
          let '(m, nf, afterFrac) := scanDigits 10 rest ip 0 in
          match ni, nf with
          | O, O => (ip, O, afterInt, false)
          | _, _ => (m, nf, afterFrac, true)
          end
        else (ip, O, afterInt, negb (ni =? 0)%nat)
    | EmptyString => (ip, O, afterInt, negb (ni =? 0)%nat)
    end in
  if hasDigits then
    let '(e, rest) := scanExponent afterFrac in
    Some (MVDecimal m (e - Z.of_nat nf), rest)
  else None.

(** StrUnsignedDecimalLiteral, longest match; the rest of the input is
    returned with the value. *)
Definition scanUnsignedDecimal (s : string) : option (MV * string) :=
  match stripPrefix "Infinity" s with
  | Some rest => Some (MVInfinity, rest)
  | None =>
      let '(ip, ni, afterInt) := scanDigits 10 s 0 0 in
      scanFraction ip ni afterInt
  end.

(** NonDecimalIntegerLiteral: [0x], [0o] or [0b] (either case) followed by
    at least one digit of the radix. *)
Definition scanNonDecimal (s : string) : option (MV * string) :=
  match s with
  | String z (String k rest) =>
      if (byte z =? 48)%nat then
        let radix :=
          if (byte k =? 120)%nat || (byte k =? 88)%nat then Some 16%Z
          else if (byte k =? 111)%nat || (byte k =? 79)%nat then Some 8%Z
          else if (byte k =? 98)%nat || (byte k =? 66)%nat then Some 2%Z
          else None in
        match radix with
        | Some r =>
            let '(v, n, after) := scanDigits r rest 0 0 in
            match n with
            | O => None
            | S _ => Some (MVDecimal v 0, after)
            end
        | None => None
        end
      else None
  | _ => None
  end.

(** StrNumericLiteral with its sign. *)
Definition scanNumericLiteral (s : string) : option (bool * MV * string) :=
  match scanNonDecimal s with
  | Some (v, rest) => Some (false, v, rest)
  | None =>
      let '(negative, body) :=
        match s with
        | String sg rest =>
            if (byte sg =? 45)%nat then (true, rest)
            else if (byte sg =? 43)%nat then (false, rest)
            else (false, s)
        | EmptyString => (false, s)
        end in
      match scanUnsignedDecimal body with
      | Some (v, rest) => Some (negative, v, rest)
      | None => None
      end
  end.

(** Rounds [± mantissa * 10^exponent10] to the nearest binary64 value,
    ties to even: the exact quotient of two integers, rounded once. *)
Definition roundMV (negative : bool) (v : MV) : number :=
  match v with
  | MVInfinity => S754_infinity negative
  | MVDecimal m e =>
      match m with
      | Zpos _ =>
          let num := (m * 10 ^ Z.max e 0)%Z in
          let den := (10 ^ Z.max (- e) 0)%Z in
          SFdiv prec emax
            (S754_finite negative (Z.to_pos num) 0)
            (S754_finite false (Z.to_pos den) 0)
      | _ => S754_zero negative
      end
  end.

Definition Number (s : string) : number :=
  match skipWhiteSpace s with
  | EmptyString => zero
  | String _ _ as literal =>
      match scanNumericLiteral literal with
      | Some (negative, v, rest) =>
          match skipWhiteSpace rest with
          | EmptyString => roundMV negative v
          | String _ _ => NaN
          end
      | None => NaN
      end
  end.

End JS.

(** ** Collaborators and global definitions *)

Definition TokenType := string.
Definition FormulaType := list TokenType.

(** Modelled from the spec: [GlobalDefinitions.ts], which declares
    [ErrorMessages], is not among the sources.  The spec names the messages
    ("empty formula", "invalid formula", "invalid cell", "invalid operator",
    "missing parentheses", "divide by zero"); these are its strings. *)
Module ErrorMessages.
Definition emptyFormula : string := "empty formula".
Definition invalidFormula : string := "invalid formula".
Definition invalidCell : string := "invalid cell".
Definition invalidOperator : string := "invalid operator".
Definition missingParentheses : string := "missing parentheses".
Definition divideByZero : string := "divide by zero".
End ErrorMessages.

(** Modelled from the spec: [Cell.ts] and [SheetMemory.ts] are not among the
    sources.  The spec lists what the evaluator reads from them: a cell
    exposes [getFormula], [getError] and [getValue]; the cell storage exposes
    [isValidCellLabel] and [getCellByLabel]. *)
Record Cell := mkCell {
  getFormula : FormulaType;
  getError : string;
  getValue : JS.number
}.

Record SheetMemory := mkSheetMemory {
  isValidCellLabel : TokenType -> bool;
  getCellByLabel : TokenType -> Cell
}.

(** ** The evaluator's instance and the frame of one [evaluate] call *)

Record FormulaEvaluator := mkFormulaEvaluator {
  _errorOccured : bool;
  _errorMessage : string;
  _currentFormula : FormulaType;
  _lastResult : JS.number;
  _sheetMemory : SheetMemory;
  _result : JS.number
}.

Definition set_errorMessage (message : string) (this : FormulaEvaluator)
  : FormulaEvaluator :=
  {| _errorOccured := _errorOccured this;
     _errorMessage := message;
     _currentFormula := _currentFormula this;
     _lastResult := _lastResult this;
     _sheetMemory := _sheetMemory this;
     _result := _result this |}.

Definition set_result (value : JS.number) (this : FormulaEvaluator)
  : FormulaEvaluator :=
  {| _errorOccured := _errorOccured this;
     _errorMessage := _errorMessage this;
     _currentFormula := _currentFormula this;
     _lastResult := _lastResult this;
     _sheetMemory := _sheetMemory this;
     _result := value |}.

(** The public accessors. *)
Definition error (this : FormulaEvaluator) : string := _errorMessage this.
Definition result (this : FormulaEvaluator) : JS.number := _result this.

(** What one call of [evaluate] can reach: the instance and the two arrays
    (head of the list = top of the stack). *)
Record Frame := mkFrame {
  this : FormulaEvaluator;
  operandsStack : list JS.number;
  operatorsStack : list string
}.

Definition thisOf (fr : Frame) : FormulaEvaluator := this fr.

(** How a statement ends: normally, by [throw new Error(message)], or by
    [return] out of [evaluate]. *)
Inductive Completion (A : Type) :=
| Normal (a : A)
| Throw (message : string)
| Return.

Arguments Normal {A} a.
Arguments Throw {A} message.
Arguments Return {A}.

Definition Eval (A : Type) := Frame -> Completion A * Frame.

Definition ret {A} (a : A) : Eval A := fun fr => (Normal a, fr).

Definition bind {A B} (m : Eval A) (k : A -> Eval B) : Eval B :=
  fun fr =>
    match m fr with
    | (Normal a, fr') => k a fr'
    | (Throw message, fr') => (Throw message, fr')
    | (Return, fr') => (Return, fr')
    end.

Definition throw {A} (message : string) : Eval A :=
  fun fr => (Throw message, fr).

Definition returnVoid {A} : Eval A := fun fr => (Return, fr).

Declare Scope eval_scope.
Delimit Scope eval_scope with eval.
Notation "x <- m ;; k" := (bind m (fun x => k))
  (at level 61, m at next level, right associativity) : eval_scope.
Notation "m ;; k" := (bind m (fun _ => k))
  (at level 61, right associativity) : eval_scope.
Local Open Scope eval_scope.

Definition getThis : Eval FormulaEvaluator := fun fr => (Normal (this fr), fr).

Definition assignErrorMessage (message : string) : Eval unit :=
  fun fr =>
    (Normal tt, mkFrame (set_errorMessage message (this fr))
                        (operandsStack fr) (operatorsStack fr)).

Definition assignResult (value : JS.number) : Eval unit :=
  fun fr =>
    (Normal tt, mkFrame (set_result value (this fr))
                        (operandsStack fr) (operatorsStack fr)).

Definition operandsLength : Eval nat :=
  fun fr => (Normal (List.length (operandsStack fr)), fr).

Definition pushOperand (value : JS.number) : Eval unit :=
  fun fr =>
    (Normal tt, mkFrame (this fr) (value :: operandsStack fr) (operatorsStack fr)).

(** [operandsStack.pop()]: [None] is [undefined], from an empty array. *)
Definition popOperand : Eval (option JS.number) :=
  fun fr =>
    match operandsStack fr with
    | top :: below => (Normal (Some top), mkFrame (this fr) below (operatorsStack fr))
    | [] => (Normal None, fr)
    end.

(** [operandsStack[0]]: the bottom of the stack. *)
Definition operandAtZero : Eval (option JS.number) :=
  fun fr => (Normal (hd_error (rev (operandsStack fr))), fr).

Definition pushOperator (op : string) : Eval unit :=
  fun fr =>
    (Normal tt, mkFrame (this fr) (operandsStack fr) (op :: operatorsStack fr)).

Definition popOperator : Eval (option string) :=
  fun fr =>
    match operatorsStack fr with
    | top :: below => (Normal (Some top), mkFrame (this fr) (operandsStack fr) below)
    | [] => (Normal None, fr)
    end.

(** A [while] loop whose condition starts with [operatorsStack.length &&]
    and whose body pops one operator each time round: it runs at most once
    per operator on the stack when the loop is entered.  [while_unfold]
    below shows that these rounds are enough. *)
Fixpoint iterate (fuel : nat) (cond : Frame -> bool) (body : Eval unit)
  : Eval unit :=
  fun fr =>
    match fuel with
    | O => (Normal tt, fr)
    | S fuel' =>
        if cond fr then
          match body fr with
          | (Normal _, fr') => iterate fuel' cond body fr'
          | stopped => stopped
          end
        else (Normal tt, fr)
    end.

Definition while (cond : Frame -> bool) (body : Eval unit) : Eval unit :=
  fun fr => iterate (List.length (operatorsStack fr)) cond body fr.

(** ** The class *)

Section FormulaEvaluator.

(** The static [Cell.isValidCellLabel], which [Cell.ts] defines. *)
Variable Cell_isValidCellLabel : TokenType -> bool.

Definition isNumber (token : TokenType) : bool :=
  negb (JS.isNaN (JS.Number token)).

Definition isCellReference (token : TokenType) : bool :=
  Cell_isValidCellLabel token.

Definition getCellValue (this : FormulaEvaluator) (token : TokenType)
  : JS.number * string :=
  if negb (isValidCellLabel (_sheetMemory this) token) then
    (JS.zero, ErrorMessages.invalidCell)
  else
    let cell := getCellByLabel (_sheetMemory this) token in
    let formula := getFormula cell in
    let error := getError cell in
    if negb (error =? "") && negb (error =? ErrorMessages.emptyFormula) then
      (JS.zero, error)
    else if (List.length formula =? 0)%nat then
      (JS.zero, ErrorMessages.invalidCell)
    else
      let value := getValue cell in
      (value, "").

(** [precedenceMap[op] || 0].  The map is an object literal, so a name
    inherited from [Object.prototype] yields that member instead of a
    number.  The member is a function, or for [__proto__] the prototype
    object itself; it is truthy, so [|| 0] lets it through.  What [>=]
    later sees of it is the text that [ToPrimitive] gives: the source text
    of a built-in function, or the tag of a plain object. *)
Inductive PrecedenceValue :=
| PrecedenceNumber (n : nat)
| InheritedMember (text : string).

Definition nativeFunction (name : string) : string :=
  "function " ++ name ++ "() { [native code] }".

Definition objectPrototype : list (string * string) :=
  [ ("constructor", nativeFunction "Object");
    ("hasOwnProperty", nativeFunction "hasOwnProperty");
    ("isPrototypeOf", nativeFunction "isPrototypeOf");
    ("propertyIsEnumerable", nativeFunction "propertyIsEnumerable");
    ("toLocaleString", nativeFunction "toLocaleString");
    ("toString", nativeFunction "toString");
    ("valueOf", nativeFunction "valueOf");
    ("__proto__", "[object Object]");
    ("__defineGetter__", nativeFunction "__defineGetter__");
    ("__defineSetter__", nativeFunction "__defineSetter__");
    ("__lookupGetter__", nativeFunction "__lookupGetter__");
    ("__lookupSetter__", nativeFunction "__lookupSetter__") ].

Definition precedence (op : string) : PrecedenceValue :=
  if op =? "+" then PrecedenceNumber 1
  else if op =? "-" then PrecedenceNumber 1
  else if op =? "*" then PrecedenceNumber 2
  else if op =? "/" then PrecedenceNumber 2
  else
    match find (fun member => op =? fst member) objectPrototype with
    | Some member => InheritedMember (snd member)
    | None => PrecedenceNumber 0
    end.

(** [x >= y] on what [precedence] returns.  Two numbers compare as numbers.
    Two inherited members both become strings, and strings compare by code
    unit: [x >= y] is the negation of [x < y].  A member against a number
    is converted to a number, which is NaN, and every comparison with NaN
    is false. *)
Definition geq (x y : PrecedenceValue) : bool :=
  match x, y with
  | PrecedenceNumber a, PrecedenceNumber b => (b <=? a)%nat
  | InheritedMember a, InheritedMember b => negb (String.ltb a b)
  | _, _ => false
  end.

Definition compute : Eval unit :=
  op <- popOperator ;;
  n <- operandsLength ;;
  if (n <? 2)%nat then throw ErrorMessages.invalidFormula
  else
    top <- popOperand ;;
    let b := JS.orElse top JS.zero in
    next <- popOperand ;;
    let a := JS.orElse next JS.zero in
    let default : Eval unit :=
      assignErrorMessage ErrorMessages.invalidOperator ;;
      throw "Invalid operator" in
    match op with
    | Some op =>
        if op =? "+" then pushOperand (JS.add a b)
        else if op =? "-" then pushOperand (JS.sub a b)
        else if op =? "*" then pushOperand (JS.mul a b)
        else if op =? "/" then
          if JS.strictEq b JS.zero then
            assignErrorMessage ErrorMessages.divideByZero ;;
            assignResult JS.Infinity ;;
            throw ErrorMessages.divideByZero
          else pushOperand (JS.div a b)
        else default
    | None => default
    end.

(** [operatorsStack.length && operatorsStack[length - 1] !== "("] *)
Definition topIsNotOpenParen (fr : Frame) : bool :=
  match operatorsStack fr with
  | top :: _ => negb (top =? "(")
  | [] => false
  end.

(** [operatorsStack.length &&
     precedence(operatorsStack[length - 1]) >= precedence(token)] *)
Definition topPrecedes (token : TokenType) (fr : Frame) : bool :=
  match operatorsStack fr with
  | top :: _ => geq (precedence top) (precedence token)
  | [] => false
  end.

(** [operatorsStack.length] as a condition. *)
Definition hasOperators (fr : Frame) : bool :=
  match operatorsStack fr with
  | _ :: _ => true
  | [] => false
  end.

(** The body of the [for] loop, for one token. *)
Definition scanToken (token : TokenType) : Eval unit :=
  if isNumber token then pushOperand (JS.Number token)
  else if isCellReference token then
    this <- getThis ;;
    let '(value, error) := getCellValue this token in
    if JS.stringToBoolean error then
      assignErrorMessage error ;;
      returnVoid
    else pushOperand value
  else if token =? "(" then pushOperator token
  else if token =? ")" then
    while topIsNotOpenParen compute ;;
    popOperator ;;
    ret tt
  else
    while (topPrecedes token) compute ;;
    pushOperator token.

Fixpoint scanTokens (formula : FormulaType) : Eval unit :=
  match formula with
  | token :: rest => scanToken token ;; scanTokens rest
  | [] => ret tt
  end.

(** The body of the loop that empties the operator stack. *)
Definition drainStep : Eval unit :=
  fun fr =>
    (match operatorsStack fr with
     | top :: _ =>
         if top =? "(" then
           assignErrorMessage ErrorMessages.missingParentheses
         else ret tt
     | [] => ret tt
     end ;;
     compute) fr.

Definition drain : Eval unit := while hasOperators drainStep.

Definition finalCheck : Eval unit :=
  n <- operandsLength ;;
  (if negb (n =? 1)%nat then
     assignErrorMessage ErrorMessages.invalidFormula ;;
     throw ErrorMessages.invalidFormula
   else ret tt) ;;
  last <- popOperand ;;
  assignResult (JS.orElse last JS.zero).

Definition tryBlock (formula : FormulaType) : Eval unit :=
  scanTokens formula ;;
  drain ;;
  finalCheck.

Definition catchBlock : Eval unit :=
  this <- getThis ;;
  (if negb (JS.stringToBoolean (_errorMessage this)) then
     assignErrorMessage ErrorMessages.invalidFormula
   else ret tt) ;;
  n <- operandsLength ;;
  if (n =? 1)%nat then
    bottom <- operandAtZero ;;
    match bottom with
    | Some value => assignResult value
    | None => ret tt
    end
  else ret tt.

(** The frame of a fresh call: both stacks are new empty arrays. *)
Definition enter (this : FormulaEvaluator) : Frame := mkFrame this [] [].

Definition evaluate (formula : FormulaType) (this : FormulaEvaluator)
  : FormulaEvaluator :=
  let this := set_errorMessage "" (set_result JS.zero this) in
  match formula with
  | [] => set_errorMessage ErrorMessages.emptyFormula this
  | [token] =>
      if isNumber token then set_result (JS.Number token) this
      else if isCellReference token then
        let '(value, error) := getCellValue this token in
        if JS.stringToBoolean error then set_errorMessage error this
        else set_result value this
      else set_errorMessage ErrorMessages.invalidFormula this
  | _ =>
      match tryBlock formula (enter this) with
      | (Throw _, fr) => thisOf (snd (catchBlock fr))
      | (_, fr) => thisOf fr
      end
  end.

End FormulaEvaluator.

(** The frame in which the [try] block of [evaluate] starts: result and
    error reset, two empty stacks. *)
Definition started (this : FormulaEvaluator) : Frame :=
  enter (set_errorMessage "" (set_result JS.zero this)).

(** ** Notions the statements below are written with *)

(** *** Summaries of statements

    A summary [R fr c fr'] relates the frame before a statement, the way the
    statement completes and the frame after it.  Summaries that are
    reflexive and compose along normal completion pass through [bind] and
    through loops. *)

Definition erase {A} (c : Completion A) : Completion unit :=
  match c with
  | Normal _ => Normal tt
  | Throw message => Throw message
  | Return => Return
  end.

Definition Summary := Frame -> Completion unit -> Frame -> Prop.

Definition obeys {A} (R : Summary) (m : Eval A) : Prop :=
  forall fr, R fr (erase (fst (m fr))) (snd (m fr)).

(** What [compute] does to the instance. *)
Inductive ComputeEffect (before : FormulaEvaluator)
  : Completion unit -> FormulaEvaluator -> Prop :=
| compute_applies :
    ComputeEffect before (Normal tt) before
| compute_lacks_operands :
    ComputeEffect before (Throw ErrorMessages.invalidFormula) before
| compute_divides_by_zero :
    ComputeEffect before (Throw ErrorMessages.divideByZero)
      (set_result JS.Infinity
         (set_errorMessage ErrorMessages.divideByZero before))
| compute_rejects_operator :
    ComputeEffect before (Throw "Invalid operator")
      (set_errorMessage ErrorMessages.invalidOperator before).

(** The fields [evaluate] never assigns. *)
Definition sameContext (a b : FormulaEvaluator) : Prop :=
  _errorOccured a = _errorOccured b /\
  _currentFormula a = _currentFormula b /\
  _lastResult a = _lastResult b /\
  _sheetMemory a = _sheetMemory b.

Definition keepsContext : Summary :=
  fun fr _ fr' => sameContext (this fr) (this fr').

(** An abort raised by a division by zero leaves its message and
    [Infinity] in the instance. *)
Definition abortsAtInfinity : Summary :=
  fun _ c fr' =>
    c = Throw ErrorMessages.divideByZero ->
    _errorMessage (this fr') = ErrorMessages.divideByZero /\
    _result (this fr') = JS.Infinity.

(** Unless it throws, a statement leaves [_result] alone. *)
Definition keepsResult : Summary :=
  fun fr c fr' =>
    match c with
    | Throw _ => True
    | _ => _result (this fr') = _result (this fr)
    end.

(** *** Events of an evaluation *)

(** The state in which [compute] is about to divide by zero: [/] on top of
    the operators, two operands, and a divisor that [|| 0] and [=== 0] read
    as zero. *)
Definition dividesByZero (fr : Frame) : bool :=
  match operatorsStack fr, operandsStack fr with
  | op :: _, b :: _ :: _ =>
      (op =? "/") && JS.strictEq (JS.orElse (Some b) JS.zero) JS.zero
  | _, _ => false
  end.

(** [drainsTo fr fr']: the drain loop, entered at [fr], gets to [fr'] by
    rounds that complete normally. *)
Inductive drainsTo : Frame -> Frame -> Prop :=
| drainsTo_here fr : drainsTo fr fr
| drainsTo_round fr fr1 fr2 :
    hasOperators fr = true ->
    drainStep fr = (Normal tt, fr1) ->
    drainsTo fr1 fr2 ->
    drainsTo fr fr2.

(** *** Decimal literals *)

(** Following the spec's words, a finite decimal numeric literal is an
    optional sign, one or more digits and, optionally, a point followed by
    one or more digits: [decimalLiteral] below. *)
Fixpoint onlyDigits (s : string) : bool :=
  match s with
  | String c rest => JS.isDecimalDigit c && onlyDigits rest
  | EmptyString => true
  end.

Definition someDigits (s : string) : bool :=
  match s with
  | String _ _ => onlyDigits s
  | EmptyString => false
  end.

Fixpoint wholeAndFraction (seenDigit : bool) (s : string) : bool :=
  match s with
  | String c rest =>
      if JS.isDecimalDigit c then wholeAndFraction true rest
      else if (JS.byte c =? 46)%nat then seenDigit && someDigits rest
      else false
  | EmptyString => seenDigit
  end.

Definition decimalLiteral (token : TokenType) : bool :=
  match token with
  | String c rest =>
      if (JS.byte c =? 43)%nat || (JS.byte c =? 45)%nat then
        wholeAndFraction false rest
      else wholeAndFraction false token
  | EmptyString => false
  end.

(** *** Numeric text

    The texts that JavaScript reads as a number, as the grammar
    StringNumericLiteral of ECMAScript, on strings of bytes (UTF-8).  The
    grammar is stated on its own, with no reference to the scanner of
    [JS.Number]. *)

(** UTF-8 of a code point of the Basic Multilingual Plane. *)
Definition utf8 (codePoint : N) : string :=
  if (codePoint <? 0x80)%N then
    String (ascii_of_N codePoint) ""
  else if (codePoint <? 0x800)%N then
    String (ascii_of_N (0xC0 + codePoint / 0x40))
      (String (ascii_of_N (0x80 + codePoint mod 0x40)) "")
  else
    String (ascii_of_N (0xE0 + codePoint / 0x1000))
      (String (ascii_of_N (0x80 + (codePoint / 0x40) mod 0x40))
         (String (ascii_of_N (0x80 + codePoint mod 0x40)) "")).

(** WhiteSpace: TAB, VT, FF, ZWNBSP and the space separators of Unicode. *)
Definition whiteSpaceCodePoints : list N :=
  [ 0x9; 0xB; 0xC; 0xFEFF;
    0x20; 0xA0; 0x1680;
    0x2000; 0x2001; 0x2002; 0x2003; 0x2004; 0x2005; 0x2006; 0x2007; 0x2008;
    0x2009; 0x200A;
    0x202F; 0x205F; 0x3000 ]%N.

(** LineTerminator: LF, CR, LS, PS. *)
Definition lineTerminatorCodePoints : list N := [ 0xA; 0xD; 0x2028; 0x2029 ]%N.

(** StrWhiteSpace: any run of white space and line terminators. *)
Inductive StrWhiteSpace : string -> Prop :=
| StrWhiteSpace_empty : StrWhiteSpace ""
| StrWhiteSpace_char codePoint rest :
    In codePoint (whiteSpaceCodePoints ++ lineTerminatorCodePoints)%list ->
    StrWhiteSpace rest ->
    StrWhiteSpace (utf8 codePoint ++ rest).

Definition among (alphabet : string) (c : ascii) : bool :=
  existsb (Ascii.eqb c) (list_ascii_of_string alphabet).

Fixpoint each (accepts : ascii -> bool) (s : string) : bool :=
  match s with
  | String c rest => accepts c && each accepts rest
  | EmptyString => true
  end.

(** One digit or more, all from [alphabet]. *)
Definition Digits (alphabet : string) (s : string) : Prop :=
  s <> "" /\ each (among alphabet) s = true.

Definition DecimalDigits : string -> Prop := Digits "0123456789".

Definition Optional (part : string -> Prop) (s : string) : Prop :=
  s = "" \/ part s.

Definition Sign (s : string) : Prop := s = "+" \/ s = "-".

(** ExponentPart: [e] or [E], an optional sign, digits. *)
Inductive ExponentPart : string -> Prop :=
| ExponentPart_intro indicator sign digits :
    indicator = "e" \/ indicator = "E" ->
    Optional Sign sign ->
    DecimalDigits digits ->
    ExponentPart (indicator ++ sign ++ digits).

(** StrUnsignedDecimalLiteral: [Infinity], or digits with a point, a
    fraction and an exponent, where the digits on one side of the point
    may be missing, and so may the point with the fraction, and the
    exponent. *)
Inductive StrUnsignedDecimalLiteral : string -> Prop :=
| Literal_Infinity :
    StrUnsignedDecimalLiteral "Infinity"
| Literal_point whole fraction exponent :
    DecimalDigits whole ->
    Optional DecimalDigits fraction ->
    Optional ExponentPart exponent ->
    StrUnsignedDecimalLiteral (whole ++ "." ++ fraction ++ exponent)
| Literal_fraction fraction exponent :
    DecimalDigits fraction ->
    Optional ExponentPart exponent ->
    StrUnsignedDecimalLiteral ("." ++ fraction ++ exponent)
| Literal_whole whole exponent :
    DecimalDigits whole ->
    Optional ExponentPart exponent ->
    StrUnsignedDecimalLiteral (whole ++ exponent).

(** StrDecimalLiteral: an unsigned one after an optional sign. *)
Inductive StrDecimalLiteral : string -> Prop :=
| StrDecimalLiteral_intro sign literal :
    Optional Sign sign ->
    StrUnsignedDecimalLiteral literal ->
    StrDecimalLiteral (sign ++ literal).

(** NonDecimalIntegerLiteral: binary, octal or hexadecimal digits after
    their prefix; it takes no sign. *)
Inductive NonDecimalIntegerLiteral : string -> Prop :=
| Literal_binary prefix digits :
    prefix = "0b" \/ prefix = "0B" ->
    Digits "01" digits ->
    NonDecimalIntegerLiteral (prefix ++ digits)
| Literal_octal prefix digits :
    prefix = "0o" \/ prefix = "0O" ->
    Digits "01234567" digits ->
    NonDecimalIntegerLiteral (prefix ++ digits)
| Literal_hex prefix digits :
    prefix = "0x" \/ prefix = "0X" ->
    Digits "0123456789abcdefABCDEF" digits ->
    NonDecimalIntegerLiteral (prefix ++ digits).

Definition StrNumericLiteral (s : string) : Prop :=
  StrDecimalLiteral s \/ NonDecimalIntegerLiteral s.

(** StringNumericLiteral: white space only, or one literal with optional
    white space on both sides. *)
Inductive StringNumericLiteral : string -> Prop :=
| Literal_blank space :
    StrWhiteSpace space ->
    StringNumericLiteral space
| Literal_padded before literal after :
    StrWhiteSpace before ->
    StrNumericLiteral literal ->
    StrWhiteSpace after ->
    StringNumericLiteral (before ++ literal ++ after).

(** A digit of the radix, as [JS.scanDigits] tests it. *)
Definition isDigitOf (radix : Z) (c : ascii) : bool :=
  match JS.digitValue radix c with
  | Some _ => true
  | None => false
  end.

(** The bytes of the visible ASCII characters. *)
Definition isVisible (c : ascii) : bool :=
  (33 <=? JS.byte c)%nat && (JS.byte c <=? 126)%nat.

(** What stands at the front of [s], if anything, is not accepted. *)
Definition endsBefore (accepts : ascii -> bool) (s : string) : bool :=
  match s with
  | String c _ => negb (accepts c)
  | EmptyString => true
  end.

(** *** Arithmetic steps *)

(** [x || 0] on a number. *)
Definition orZero (x : JS.number) : JS.number := JS.orElse (Some x) JS.zero.

(** The four operators [compute] applies. *)
Definition isArithmetic (op : string) : bool :=
  (op =? "+") || (op =? "-") || (op =? "*") || (op =? "/").

Definition applyOperator (op : string) (a b : JS.number) : JS.number :=
  if op =? "+" then JS.add a b
  else if op =? "-" then JS.sub a b
  else if op =? "*" then JS.mul a b
  else JS.div a b.

(** The frames in which [compute] has an operator to apply, two operands
    for it and no zero divisor. *)
Definition computable (fr : Frame) : bool :=
  match operatorsStack fr, operandsStack fr with
  | op :: _, b :: _ :: _ =>
      isArithmetic op &&
      negb ((op =? "/") && JS.strictEq (orZero b) JS.zero)
  | _, _ => false
  end.

(** The frame [compute] leaves then: the operator popped, the two operands
    replaced by the value. *)
Definition computed (fr : Frame) : Frame :=
  match operatorsStack fr, operandsStack fr with
  | op :: below, b :: a :: rest =>
      mkFrame (this fr) (applyOperator op (orZero a) (orZero b) :: rest) below
  | _, _ => fr
  end.

(** One operation as [compute] performs it on two stack entries: both go
    through [|| 0], and a division by a zero divisor gives nothing. *)
Definition operate (op : string) (a b : JS.number) : option JS.number :=
  if (op =? "/") && JS.strictEq (orZero b) JS.zero then None
  else Some (applyOperator op (orZero a) (orZero b)).

(** Two operations in a row, the second on the value of the first. *)
Definition andThen (first : option JS.number)
  (next : JS.number -> option JS.number) : option JS.number :=
  match first with
  | Some value => next value
  | None => None
  end.

(** *** Chains of additions and subtractions *)

Definition isAdditive (op : string) : bool := (op =? "+") || (op =? "-").

(** The formula [x0 op1 x1 op2 x2 ...], from its first operand and the
    following operator-operand pairs. *)
Definition chainFormula (x0 : TokenType) (pairs : list (string * TokenType))
  : FormulaType :=
  x0 :: flat_map (fun pair => [fst pair; snd pair]) pairs.

(** One more operation on the value so far. *)
Definition chainStep (value : JS.number) (pair : string * TokenType)
  : JS.number :=
  applyOperator (fst pair) (orZero value) (orZero (JS.Number (snd pair))).

(** The chain taken from left to right. *)
Definition chainValue (x0 : TokenType) (pairs : list (string * TokenType))
  : JS.number :=
  fold_left chainStep pairs (JS.Number x0).

(** *** Tokens and messages *)

(** What scanning one token does to the operator stack when it completes
    normally: an operand leaves it alone, an open parenthesis is pushed, a
    close parenthesis pops arithmetic operators and then one open
    parenthesis if there is one, and any other token pops arithmetic
    operators and is pushed. *)
Inductive scansTo (Cell_isValidCellLabel : TokenType -> bool)
  (token : TokenType) : list string -> list string -> Prop :=
| scans_operand operators :
    isNumber token = true \/ Cell_isValidCellLabel token = true ->
    scansTo Cell_isValidCellLabel token operators operators
| scans_open operators :
    token = "(" ->
    scansTo Cell_isValidCellLabel token operators ("(" :: operators)
| scans_close popped rest :
    token = ")" ->
    Forall (fun op => isArithmetic op = true) popped ->
    hd_error rest = None \/ hd_error rest = Some "(" ->
    scansTo Cell_isValidCellLabel token (popped ++ rest)%list (tl rest)
| scans_operator popped rest :
    isNumber token = false ->
    Cell_isValidCellLabel token = false ->
    token <> "(" ->
    token <> ")" ->
    Forall (fun op => isArithmetic op = true) popped ->
    scansTo Cell_isValidCellLabel token (popped ++ rest)%list (token :: rest).

(** An operator stack that holds something [compute] will not apply and no
    close parenthesis will remove. *)
Definition holdsStray (operators : list string) : Prop :=
  exists op, In op operators /\ isArithmetic op = false /\ op <> "(".

(** The open parentheses of a list of tokens. *)
Definition opens (tokens : list string) : nat :=
  count_occ string_dec tokens "(".

(** Its close parentheses. *)
Definition closes (tokens : list string) : nat :=
  count_occ string_dec tokens ")".

(** A token that [scanToken] takes for an operator and [compute] will not
    apply. *)
Definition isUnknownOperator (Cell_isValidCellLabel : TokenType -> bool)
  (token : TokenType) : bool :=
  negb (isNumber token) && negb (Cell_isValidCellLabel token) &&
  negb (token =? "(") && negb (token =? ")") && negb (isArithmetic token).

(** The messages [evaluate] and [compute] assign themselves. *)
Definition ownMessages : list string :=
  [ ""; ErrorMessages.emptyFormula; ErrorMessages.invalidFormula;
    ErrorMessages.invalidOperator; ErrorMessages.missingParentheses;
    ErrorMessages.divideByZero ].

(** A message is classified when it is one of those or what the resolver
    answers for a token of the formula. *)
Definition classified (self : FormulaEvaluator) (formula : FormulaType)
  (message : string) : Prop :=
  In message ownMessages \/
  exists token, In token formula /\ message = snd (getCellValue self token).

(** A statement that completes normally leaves the error message alone; one
    that returns out of [evaluate] leaves a message. *)
Definition tracksError : Summary :=
  fun fr c fr' =>
    match c with
    | Normal _ => _errorMessage (this fr') = _errorMessage (this fr)
    | Return => _errorMessage (this fr') <> ""
    | Throw _ => True
    end.

(** A frame whose instance still reads the sheet of [self] and whose error
    message is classified for [formula]. *)
Definition inClass (self : FormulaEvaluator) (formula : FormulaType)
  (fr : Frame) : Prop :=
  _sheetMemory (this fr) = _sheetMemory self /\
  classified self formula (_errorMessage (this fr)).

(** A statement that keeps frames in that class, however it completes. *)
Definition staysClassified (self : FormulaEvaluator) (formula : FormulaType)
  : Summary :=
  fun fr _ fr' => inClass self formula fr -> inClass self formula fr'.

(** A statement leaves [_result] alone unless it is aborted by a division
    by zero. *)
Definition keepsResultUnlessDivision : Summary :=
  fun fr c fr' =>
    match c with
    | Throw message =>
        message <> ErrorMessages.divideByZero ->
        _result (this fr') = _result (this fr)
    | _ => _result (this fr') = _result (this fr)
    end.

(** What a token pushes on the operand stack: the number it denotes, or the
    value of the cell it names when the cell resolves with no error. *)
Definition operandOf (Cell_isValidCellLabel : TokenType -> bool)
  (self : FormulaEvaluator) (token : TokenType) : option JS.number :=
  if isNumber token then Some (JS.Number token)
  else if Cell_isValidCellLabel token then
    if JS.stringToBoolean (snd (getCellValue self token)) then None
    else Some (fst (getCellValue self token))
  else None.

(** ** A sample sheet *)

Module Sample.

(** Modelled from the spec: [Cell.ts], which defines the cell-label grammar,
    is not among the sources.  The spec gives its shape: one or more letters
    followed by one or more digits. *)
Definition isLetter (c : ascii) : bool :=
  let n := JS.byte c in
  ((65 <=? n)%nat && (n <=? 90)%nat) || ((97 <=? n)%nat && (n <=? 122)%nat).

Fixpoint afterLetters (s : string) : string :=
  match s with
  | String c rest => if isLetter c then afterLetters rest else s
  | EmptyString => s
  end.

Fixpoint allDigits (s : string) : bool :=
  match s with
  | String c rest => JS.isDecimalDigit c && allDigits rest
  | EmptyString => true
  end.

Definition isLabel (token : TokenType) : bool :=
  match token with
  | String c _ =>
      isLetter c &&
      match afterLetters token with
      | EmptyString => false
      | String _ _ as digits => allDigits digits
      end
  | EmptyString => false
  end.

(** Four kinds of cell: a computed one, one whose formula divided by zero,
    one that carries an error and no formula, and the untouched rest. *)
Definition cellAt (label : TokenType) : Cell :=
  if label =? "A1" then mkCell ["1"; "+"; "2"] "" (JS.ofZ 3)
  else if label =? "B2" then
    mkCell ["5"; "/"; "0"] ErrorMessages.divideByZero JS.Infinity
  else if label =? "C3" then mkCell [] ErrorMessages.divideByZero JS.zero
  else mkCell [] ErrorMessages.emptyFormula JS.zero.

Definition memory : SheetMemory := mkSheetMemory isLabel cellAt.

Definition evaluator : FormulaEvaluator :=
  mkFormulaEvaluator false "" [] JS.zero memory JS.zero.

End Sample.

(** ** Tactics *)

Ltac run_eval :=
  unfold bind, ret, throw, returnVoid, getThis, assignErrorMessage,
    assignResult, operandsLength, pushOperand, popOperand, operandAtZero,
    pushOperator, popOperator in *; simpl in *.

Ltac by_bytes :=
  repeat (match goal with
          | |- context [(?a <=? ?b)%nat] => destruct (Nat.leb_spec a b)
          | |- context [(?a =? ?b)%nat] => destruct (Nat.eqb_spec a b)
          | H : context [(?a <=? ?b)%nat] |- _ => destruct (Nat.leb_spec a b)
          | H : context [(?a =? ?b)%nat] |- _ => destruct (Nat.eqb_spec a b)
          | |- context [(?a <? ?b)%Z] => destruct (Z.ltb_spec a b)
          end; cbn [andb orb negb] in *);
  try discriminate; try reflexivity; try lia; try (exfalso; lia).

(** Symbolic runs of [evaluate] on a formula whose operands are left
    abstract: the arithmetic is kept folded, and a division splits on its
    divisor being zero. *)
Ltac unfold_formula :=
  unfold evaluate, tryBlock; cbn [scanTokens];
  unfold scanToken, isCellReference.

Ltac run_formula :=
  cbv -[JS.add JS.sub JS.mul JS.div JS.orElse JS.strictEq].

Ltac split_divisors :=
  repeat (match goal with
          | H : JS.strictEq ?a ?b = _ |- context [JS.strictEq ?a ?b] =>
              rewrite H
          | |- context [JS.strictEq ?a ?b] =>
              destruct (JS.strictEq a b) eqn:?
          end; run_formula).

(** ** Summaries pass through sequencing and loops *)

Section Sequencing.

Variable R : Summary.
Hypothesis R_refl : forall fr, R fr (Normal tt) fr.
Hypothesis R_trans :
  forall fr fr1 c fr2, R fr (Normal tt) fr1 -> R fr1 c fr2 -> R fr c fr2.

Lemma obeys_ret {A} (a : A) : obeys R (ret a).
Proof. intros fr. apply R_refl. Qed.

Lemma obeys_bind {A B} (m : Eval A) (k : A -> Eval B) :
  obeys R m -> (forall a, obeys R (k a)) -> obeys R (bind m k).
Proof.
  intros Hm Hk fr. unfold bind.
  specialize (Hm fr).
  destruct (m fr) as [[a | message | ] fr1]; simpl in *;
    [| assumption | assumption].
  apply R_trans with fr1; [assumption | apply Hk].
Qed.

Lemma obeys_iterate fuel cond body :
  obeys R body -> obeys R (iterate fuel cond body).
Proof.
  intros Hbody. induction fuel as [| fuel IH]; intros fr; simpl.
  - apply R_refl.
  - destruct (cond fr); [| apply R_refl].
    specialize (Hbody fr).
    destruct (body fr) as [[[] | message | ] fr1]; simpl in *;
      [| assumption | assumption].
    apply R_trans with fr1; [assumption | apply IH].
Qed.

Lemma obeys_while cond body : obeys R body -> obeys R (while cond body).
Proof. intros Hbody fr. unfold while. apply obeys_iterate, Hbody. Qed.

(** The statements of [evaluate] up to the final check, given what the
    summary says about the assignments they are made of. *)
Variable Cell_isValidCellLabel : TokenType -> bool.

Hypothesis R_stacks :
  forall fr operands operators,
    R fr (Normal tt) (mkFrame (this fr) operands operators).
Hypothesis R_errorMessage :
  forall message, obeys R (assignErrorMessage message).
Hypothesis R_return : forall fr, R fr Return fr.
Hypothesis R_compute : obeys R compute.

Lemma obeys_pushOperand value : obeys R (pushOperand value).
Proof. intros fr. apply R_stacks. Qed.

Lemma obeys_pushOperator op : obeys R (pushOperator op).
Proof. intros fr. apply R_stacks. Qed.

Lemma obeys_popOperator : obeys R popOperator.
Proof.
  intros fr. unfold popOperator.
  destruct (operatorsStack fr); simpl; [apply R_refl | apply R_stacks].
Qed.

Lemma obeys_scanToken token :
  obeys R (scanToken Cell_isValidCellLabel token).
Proof.
  unfold scanToken.
  destruct (isNumber token); [apply obeys_pushOperand |].
  destruct (isCellReference Cell_isValidCellLabel token).
  - apply obeys_bind; [intros fr; apply R_refl |].
    intros self. destruct (getCellValue self token) as [value message].
    destruct (JS.stringToBoolean message); [| apply obeys_pushOperand].
    apply obeys_bind; [apply R_errorMessage |].
    intros _ fr. apply R_return.
  - destruct (token =? "("); [apply obeys_pushOperator |].
    destruct (token =? ")").
    + apply obeys_bind; [apply obeys_while, R_compute |].
      intros _. apply obeys_bind; [apply obeys_popOperator |].
      intros _. apply obeys_ret.
    + apply obeys_bind; [apply obeys_while, R_compute |].
      intros _. apply obeys_pushOperator.
Qed.

Lemma obeys_scanTokens formula :
  obeys R (scanTokens Cell_isValidCellLabel formula).
Proof.
  induction formula as [| token rest IH]; simpl.
  - apply obeys_ret.
  - apply obeys_bind; [apply obeys_scanToken | intros _; exact IH].
Qed.

Lemma obeys_drainStep : obeys R drainStep.
Proof.
  intros fr. unfold drainStep.
  apply obeys_bind; [| intros _; apply R_compute].
  destruct (operatorsStack fr) as [| top below]; [apply obeys_ret |].
  destruct (top =? "("); [apply R_errorMessage | apply obeys_ret].
Qed.

Lemma obeys_drain : obeys R drain.
Proof. apply obeys_while, obeys_drainStep. Qed.

End Sequencing.

(** ** What [compute] does to the instance and to the operator stack *)

Lemma compute_effect fr :
  ComputeEffect (this fr) (fst (compute fr)) (this (snd (compute fr))).
Proof.
  destruct fr as [self [| b [| a rest]] [| op below]];
    unfold compute; run_eval;
    try apply compute_lacks_operands; try apply compute_rejects_operator.
  destruct (op =? "+"); [apply compute_applies |].
  destruct (op =? "-"); [apply compute_applies |].
  destruct (op =? "*"); [apply compute_applies |].
  destruct (op =? "/"); [| apply compute_rejects_operator].
  destruct (JS.strictEq _ _); simpl;
    [apply compute_divides_by_zero | apply compute_applies].
Qed.

Lemma compute_pops fr :
  operatorsStack (snd (compute fr)) = tl (operatorsStack fr).
Proof.
  destruct fr as [self [| b [| a rest]] [| op below]];
    unfold compute; run_eval; try reflexivity.
  destruct (op =? "+"); [reflexivity |].
  destruct (op =? "-"); [reflexivity |].
  destruct (op =? "*"); [reflexivity |].
  destruct (op =? "/"); [| reflexivity].
  destruct (JS.strictEq _ _); reflexivity.
Qed.

(** ** Three summaries of the statements of [evaluate] *)

Lemma sameContext_refl a : sameContext a a.
Proof. repeat split. Qed.

Lemma sameContext_trans a b c :
  sameContext a b -> sameContext b c -> sameContext a c.
Proof.
  unfold sameContext. intros (H1 & H2 & H3 & H4) (K1 & K2 & K3 & K4).
  repeat split; congruence.
Qed.

Lemma compute_keepsContext : obeys keepsContext compute.
Proof.
  intros fr. unfold keepsContext.
  destruct (compute_effect fr); repeat split.
Qed.

Lemma compute_abortsAtInfinity : obeys abortsAtInfinity compute.
Proof.
  intros fr. unfold abortsAtInfinity.
  destruct (compute_effect fr); simpl; intros H;
    try discriminate H; split; reflexivity.
Qed.

Lemma compute_keepsResult : obeys keepsResult compute.
Proof.
  intros fr. unfold keepsResult.
  destruct (compute_effect fr); simpl; trivial.
Qed.

Section Statements.

Variable Cell_isValidCellLabel : TokenType -> bool.

Lemma keepsContext_trans fr fr1 c fr2 :
  keepsContext fr (Normal tt) fr1 -> keepsContext fr1 c fr2 ->
  keepsContext fr c fr2.
Proof. apply sameContext_trans. Qed.

Lemma keepsResult_trans fr fr1 c fr2 :
  keepsResult fr (Normal tt) fr1 -> keepsResult fr1 c fr2 ->
  keepsResult fr c fr2.
Proof. unfold keepsResult. destruct c; simpl; congruence. Qed.

Lemma abortsAtInfinity_trans fr fr1 c fr2 :
  abortsAtInfinity fr (Normal tt) fr1 -> abortsAtInfinity fr1 c fr2 ->
  abortsAtInfinity fr c fr2.
Proof. unfold abortsAtInfinity. auto. Qed.

Lemma scanTokens_keepsContext formula :
  obeys keepsContext (scanTokens Cell_isValidCellLabel formula).
Proof.
  apply obeys_scanTokens.
  - intros fr. apply sameContext_refl.
  - apply keepsContext_trans.
  - intros fr operands operators. apply sameContext_refl.
  - intros message fr. repeat split.
  - intros fr. apply sameContext_refl.
  - apply compute_keepsContext.
Qed.

Lemma drain_keepsContext : obeys keepsContext drain.
Proof.
  apply obeys_drain.
  - intros fr. apply sameContext_refl.
  - apply keepsContext_trans.
  - intros message fr. repeat split.
  - apply compute_keepsContext.
Qed.

Lemma scanTokens_abortsAtInfinity formula :
  obeys abortsAtInfinity (scanTokens Cell_isValidCellLabel formula).
Proof.
  apply obeys_scanTokens.
  - intros fr H. discriminate H.
  - apply abortsAtInfinity_trans.
  - intros fr operands operators H. discriminate H.
  - intros message fr H. discriminate H.
  - intros fr H. discriminate H.
  - apply compute_abortsAtInfinity.
Qed.

Lemma drain_abortsAtInfinity : obeys abortsAtInfinity drain.
Proof.
  apply obeys_drain.
  - intros fr H. discriminate H.
  - apply abortsAtInfinity_trans.
  - intros message fr H. discriminate H.
  - apply compute_abortsAtInfinity.
Qed.

Lemma scanTokens_keepsResult formula :
  obeys keepsResult (scanTokens Cell_isValidCellLabel formula).
Proof.
  apply obeys_scanTokens.
  - intros fr. reflexivity.
  - apply keepsResult_trans.
  - intros fr operands operators. reflexivity.
  - intros message fr. reflexivity.
  - intros fr. reflexivity.
  - apply compute_keepsResult.
Qed.

Lemma finalCheck_keepsContext : obeys keepsContext finalCheck.
Proof.
  intros [self [| v [| w rest]] operators];
    unfold finalCheck, keepsContext; run_eval; repeat split.
Qed.

Lemma finalCheck_abortsAtInfinity : obeys abortsAtInfinity finalCheck.
Proof.
  intros [self [| v [| w rest]] operators];
    unfold finalCheck, abortsAtInfinity; run_eval; discriminate.
Qed.

Lemma tryBlock_keepsContext formula :
  obeys keepsContext (tryBlock Cell_isValidCellLabel formula).
Proof.
  unfold tryBlock.
  apply obeys_bind;
    [apply keepsContext_trans | apply scanTokens_keepsContext |].
  intros _. apply obeys_bind;
    [apply keepsContext_trans | apply drain_keepsContext |].
  intros _. apply finalCheck_keepsContext.
Qed.

Lemma tryBlock_abortsAtInfinity formula :
  obeys abortsAtInfinity (tryBlock Cell_isValidCellLabel formula).
Proof.
  unfold tryBlock.
  apply obeys_bind;
    [apply abortsAtInfinity_trans | apply scanTokens_abortsAtInfinity |].
  intros _. apply obeys_bind;
    [apply abortsAtInfinity_trans | apply drain_abortsAtInfinity |].
  intros _. apply finalCheck_abortsAtInfinity.
Qed.

Lemma catchBlock_keepsContext : obeys keepsContext catchBlock.
Proof.
  intros [self operands operators]. unfold catchBlock, keepsContext.
  run_eval.
  destruct (JS.stringToBoolean (_errorMessage self)); simpl;
    destruct (List.length operands =? 1)%nat; simpl;
    try destruct (hd_error (rev operands)); repeat split.
Qed.

(** A formula of two tokens or more goes through the [try] block. *)
Lemma evaluate_multi formula self :
  (2 <= List.length formula)%nat ->
  evaluate Cell_isValidCellLabel formula self =
  match tryBlock Cell_isValidCellLabel formula (started self) with
  | (Throw _, fr) => this (snd (catchBlock fr))
  | (_, fr) => this fr
  end.
Proof.
  destruct formula as [| t1 [| t2 rest]]; simpl; intros H; try lia.
  reflexivity.
Qed.

End Statements.

(** ** The loops run to their end

    [while] hands [iterate] one round per operator on the stack.  Every loop
    of [evaluate] tests [operatorsStack.length] first and pops one operator
    per round, so the rounds never run short: [while] satisfies the
    unfolding equation of the source loop. *)

Lemma while_unfold cond body fr :
  (forall fr, cond fr = true -> hasOperators fr = true) ->
  (forall fr, operatorsStack (snd (body fr)) = tl (operatorsStack fr)) ->
  while cond body fr =
  if cond fr then
    match body fr with
    | (Normal _, fr') => while cond body fr'
    | stopped => stopped
    end
  else (Normal tt, fr).
Proof.
  intros Hcond Hbody. unfold while.
  destruct (operatorsStack fr) as [| top below] eqn:Hops; simpl.
  - destruct (cond fr) eqn:Hc; [| reflexivity].
    apply Hcond in Hc. unfold hasOperators in Hc. rewrite Hops in Hc.
    discriminate Hc.
  - destruct (cond fr); [| reflexivity].
    specialize (Hbody fr). rewrite Hops in Hbody. simpl in Hbody.
    destruct (body fr) as [[[] | message | ] fr']; simpl in *;
      try reflexivity.
    rewrite Hbody. reflexivity.
Qed.

Lemma drainStep_pops fr :
  operatorsStack (snd (drainStep fr)) = tl (operatorsStack fr).
Proof.
  destruct fr as [self operands [| top below]]; unfold drainStep; run_eval.
  - apply (compute_pops (mkFrame self operands [])).
  - destruct (top =? "("); simpl.
    + apply (compute_pops
               (mkFrame (set_errorMessage ErrorMessages.missingParentheses self)
                        operands (top :: below))).
    + apply (compute_pops (mkFrame self operands (top :: below))).
Qed.

Lemma drain_unfold fr :
  drain fr =
  if hasOperators fr then
    match drainStep fr with
    | (Normal _, fr') => drain fr'
    | stopped => stopped
    end
  else (Normal tt, fr).
Proof.
  unfold drain. apply while_unfold; [auto | apply drainStep_pops].
Qed.

Lemma closeParen_unfold fr :
  while topIsNotOpenParen compute fr =
  if topIsNotOpenParen fr then
    match compute fr with
    | (Normal _, fr') => while topIsNotOpenParen compute fr'
    | stopped => stopped
    end
  else (Normal tt, fr).
Proof.
  apply while_unfold; [| apply compute_pops].
  intros fr0. unfold topIsNotOpenParen, hasOperators.
  destruct (operatorsStack fr0); auto.
Qed.

Lemma operator_unfold token fr :
  while (topPrecedes token) compute fr =
  if topPrecedes token fr then
    match compute fr with
    | (Normal _, fr') => while (topPrecedes token) compute fr'
    | stopped => stopped
    end
  else (Normal tt, fr).
Proof.
  apply while_unfold; [| apply compute_pops].
  intros fr0. unfold topPrecedes, hasOperators.
  destruct (operatorsStack fr0); auto.
Qed.

(** What the drain does once an open parenthesis is on top. *)
Lemma drainStep_open_paren self operands below :
  drainStep (mkFrame self operands ("(" :: below)) =
  if (List.length operands <? 2)%nat then
    (Throw ErrorMessages.invalidFormula,
     mkFrame (set_errorMessage ErrorMessages.missingParentheses self)
             operands below)
  else
    (Throw "Invalid operator",
     mkFrame (set_errorMessage ErrorMessages.invalidOperator
                (set_errorMessage ErrorMessages.missingParentheses self))
             (tl (tl operands)) below).
Proof.
  destruct operands as [| b [| a rest]]; reflexivity.
Qed.

(** ** The [catch] block *)

Lemma catchBlock_error fr :
  _errorMessage (this (snd (catchBlock fr))) =
  if JS.stringToBoolean (_errorMessage (this fr)) then _errorMessage (this fr)
  else ErrorMessages.invalidFormula.
Proof.
  destruct fr as [self operands operators]. unfold catchBlock. run_eval.
  destruct (JS.stringToBoolean (_errorMessage self)); simpl;
    destruct (List.length operands =? 1)%nat; simpl;
    try destruct (hd_error (rev operands)); reflexivity.
Qed.

Lemma catchBlock_result fr :
  _result (this (snd (catchBlock fr))) =
  match operandsStack fr with
  | [value] => value
  | _ => _result (this fr)
  end.
Proof.
  destruct fr as [self [| v [| w rest]] operators]; unfold catchBlock;
    run_eval; destruct (JS.stringToBoolean (_errorMessage self));
    reflexivity.
Qed.

(** ** Scanning a formula in two parts *)

Lemma scanTokens_app Cell_isValidCellLabel front back fr :
  scanTokens Cell_isValidCellLabel (front ++ back)%list fr =
  (scanTokens Cell_isValidCellLabel front ;;
   scanTokens Cell_isValidCellLabel back) fr.
Proof.
  revert fr. induction front as [| token front IH]; intros fr; simpl.
  - reflexivity.
  - unfold bind in *.
    destruct (scanToken Cell_isValidCellLabel token fr) as [[[] | m | ] fr'];
      try reflexivity.
    apply IH.
Qed.

Lemma getCellValue_memory a b token :
  _sheetMemory a = _sheetMemory b -> getCellValue a token = getCellValue b token.
Proof. unfold getCellValue. intros ->. reflexivity. Qed.

(** ** The embedding on concrete inputs *)

Example Number_rounds_to_nearest :
  JS.Number "0.1" = S754_finite false 7205759403792794 (-56) /\
  JS.Number "1e23" = S754_finite false 5960464477539062 24 /\
  JS.Number "9007199254740993" = S754_finite false 4503599627370496 1 /\
  JS.Number "5e-324" = S754_finite false 1 (-1074) /\
  JS.Number "1e400" = JS.Infinity /\
  JS.Number "-0" = S754_zero true /\
  JS.Number " 12 " = JS.ofZ 12 /\
  JS.Number "0x1F" = JS.ofZ 31 /\
  JS.Number "1e" = JS.NaN /\
  JS.Number "." = JS.NaN /\
  JS.Number "-0x1F" = JS.NaN.
Proof. vm_compute. repeat split. Qed.

Example evaluate_short_formulas :
  let run formula :=
    let after := evaluate Sample.isLabel formula Sample.evaluator in
    (result after, error after) in
  run [] = (JS.zero, "empty formula") /\
  run ["5"] = (JS.ofZ 5, "") /\
  run ["+"] = (JS.zero, "invalid formula") /\
  run ["A1"] = (JS.ofZ 3, "") /\
  run ["B2"] = (JS.zero, "divide by zero") /\
  run ["D4"] = (JS.zero, "invalid cell") /\
  run ["3"; "+"; "4"] = (JS.ofZ 7, "") /\
  run ["A1"; "*"; "2"] = (JS.ofZ 6, "") /\
  run ["8"; "/"; "("; "5"; "-"; "5"; ")"] = (JS.Infinity, "divide by zero") /\
  run ["1"; "+"] = (JS.ofZ 1, "invalid formula") /\
  run ["1"; "%"; "2"] = (JS.zero, "invalid operator").
Proof. vm_compute. repeat split. Qed.

(** Operators named like a member of [Object.prototype].  Two of them
    compare by their texts, so the one on the stack is computed as soon as
    the next arrives unless its text is the smaller; against an arithmetic
    operator nothing is computed before the drain. *)
Example evaluate_inherited_members :
  let run formula :=
    let after := evaluate Sample.isLabel formula Sample.evaluator in
    (result after, error after) in
  (geq (precedence "toString") (precedence "toString") = true /\
   geq (precedence "toString") (precedence "constructor") = true /\
   geq (precedence "constructor") (precedence "toString") = false /\
   geq (precedence "__proto__") (precedence "__proto__") = true /\
   geq (precedence "__proto__") (precedence "valueOf") = false /\
   geq (precedence "toString") (precedence "+") = false /\
   geq (precedence "*") (precedence "toString") = false) /\
  run ["1"; "toString"; "2"; "toString"; "3"] = (JS.zero, "invalid operator") /\
  run ["9"; "1"; "toString"; "2"; "toString"; "5"]
    = (JS.ofZ 9, "invalid operator") /\
  run ["1"; "constructor"; "2"; "toString"; "3"]
    = (JS.ofZ 1, "invalid operator") /\
  run ["1"; "toString"; "2"; "+"; "3"] = (JS.zero, "invalid operator") /\
  run ["1"; "+"; "2"; "toString"; "3"] = (JS.ofZ 1, "invalid operator") /\
  run ["1"; "toString"; "2"; "toString"; "3"; "/"; "0"]
    = (JS.zero, "invalid operator") /\
  run ["toString"; "toString"; "("; "1"] = (JS.zero, "invalid formula") /\
  run ["1"; "toString"; "2"; "toString"; "B2"]
    = (JS.zero, "invalid operator").
Proof. vm_compute. repeat split. Qed.

(** ** Division by zero *)

(** [compute] throws the divide-by-zero error exactly in that state. *)
Lemma compute_throws_divideByZero fr :
  fst (compute fr) = Throw ErrorMessages.divideByZero <->
  dividesByZero fr = true.
Proof.
  destruct fr as [self [| b [| a rest]] [| op below]];
    unfold compute, dividesByZero; run_eval;
    try (split; intros H; discriminate H).
  destruct (op =? "+") eqn:Eadd.
  { apply String.eqb_eq in Eadd. subst op. simpl.
    split; intros H; discriminate H. }
  destruct (op =? "-") eqn:Esub.
  { apply String.eqb_eq in Esub. subst op. simpl.
    split; intros H; discriminate H. }
  destruct (op =? "*") eqn:Emul.
  { apply String.eqb_eq in Emul. subst op. simpl.
    split; intros H; discriminate H. }
  destruct (op =? "/"); simpl; [| split; intros H; discriminate H].
  destruct (JS.strictEq _ _); simpl; split; intros H;
    try reflexivity; discriminate H.
Qed.

(** C1 (as the code has it).  When the evaluation of a formula of two tokens
    or more is aborted by a division by zero, the error accessor is
    "divide by zero"; the result accessor is positive infinity unless
    exactly one value is left on the operand stack at that moment, and then
    the catch block's salvage replaces infinity by that value.  In
    particular [5 / 0] gives "divide by zero" and positive infinity. *)
Theorem divide_by_zero_outcome :
  forall Cell_isValidCellLabel self,
    (forall formula fr,
        (2 <= List.length formula)%nat ->
        tryBlock Cell_isValidCellLabel formula (started self) =
          (Throw ErrorMessages.divideByZero, fr) ->
        error (evaluate Cell_isValidCellLabel formula self)
          = "divide by zero" /\
        result (evaluate Cell_isValidCellLabel formula self) =
          match operandsStack fr with
          | [salvaged] => salvaged
          | _ => JS.Infinity
          end) /\
    (Cell_isValidCellLabel "/" = false ->
     error (evaluate Cell_isValidCellLabel ["5"; "/"; "0"] self)
       = "divide by zero" /\
     result (evaluate Cell_isValidCellLabel ["5"; "/"; "0"] self)
       = JS.Infinity).
Proof.
  intros v self. split.
  - intros formula fr Hlen Htry.
    rewrite (evaluate_multi v formula self Hlen).
    pose proof (tryBlock_abortsAtInfinity v formula (started self)) as Habort.
    unfold abortsAtInfinity in Habort. rewrite Htry in *. simpl in Habort.
    destruct (Habort eq_refl) as [Herr Hres].
    unfold error, result.
    rewrite catchBlock_error, catchBlock_result, Herr, Hres.
    split; [reflexivity |].
    destruct (operandsStack fr) as [| v0 [| v1 rest]]; reflexivity.
  - intros Hdiv. unfold evaluate, tryBlock. cbn [scanTokens].
    unfold scanToken, isCellReference. rewrite Hdiv.
    vm_compute. split; reflexivity.
Qed.

Lemma divide_by_zero_outcome_witness :
  let formula := ["2"; "*"; "3"; "+"; "5"; "/"; "0"] in
  (error (evaluate Sample.isLabel formula Sample.evaluator) = "divide by zero" /\
   result (evaluate Sample.isLabel formula Sample.evaluator) = JS.Number "6") /\
  (error (evaluate Sample.isLabel ["5"; "/"; "0"] Sample.evaluator)
     = "divide by zero" /\
   result (evaluate Sample.isLabel ["5"; "/"; "0"] Sample.evaluator)
     = JS.Infinity).
Proof.
  pose (formula := ["2"; "*"; "3"; "+"; "5"; "/"; "0"]).
  exact (conj
           (proj1 (divide_by_zero_outcome Sample.isLabel Sample.evaluator)
              formula
              (snd (tryBlock Sample.isLabel formula (started Sample.evaluator)))
              (le_S _ _ (le_S _ _ (le_S _ _ (le_S _ _ (le_S _ _ (le_n 2))))))
              eq_refl)
           (proj2 (divide_by_zero_outcome Sample.isLabel Sample.evaluator)
              eq_refl)).
Defined.

(** C1 (as stated) fails: in [1 + 5 / 0] the division finds a zero divisor
    with one value left below its operands, and the result is that value,
    not infinity. *)
Lemma divide_by_zero_salvage_counterexample :
  let formula := ["1"; "+"; "5"; "/"; "0"] in
  fst (tryBlock Sample.isLabel formula (started Sample.evaluator)) =
    Throw ErrorMessages.divideByZero /\
  error (evaluate Sample.isLabel formula Sample.evaluator) = "divide by zero" /\
  result (evaluate Sample.isLabel formula Sample.evaluator) = JS.ofZ 1 /\
  result (evaluate Sample.isLabel formula Sample.evaluator) <> JS.Infinity.
Proof.
  vm_compute. repeat split. discriminate.
Qed.

(** ** Best-effort salvage *)

(** C3.  When the [try] block of a formula of two tokens or more is aborted
    by a throw and exactly one value is on the operand stack at that moment,
    the result accessor is that value and the error accessor is not empty:
    it is the message already set, or "invalid formula" when none was.
    (The aborts by a division by zero are not excluded: they obey it too.) *)
Theorem salvage_on_abort :
  forall Cell_isValidCellLabel formula self message fr value,
    (2 <= List.length formula)%nat ->
    tryBlock Cell_isValidCellLabel formula (started self) =
      (Throw message, fr) ->
    operandsStack fr = [value] ->
    let after := evaluate Cell_isValidCellLabel formula self in
    result after = value /\
    error after <> "" /\
    (_errorMessage (this fr) = "" -> error after = "invalid formula") /\
    (_errorMessage (this fr) <> "" -> error after = _errorMessage (this fr)).
Proof.
  intros v formula self message fr value Hlen Htry Hstack after.
  subst after. rewrite (evaluate_multi v formula self Hlen), Htry.
  unfold error, result. rewrite catchBlock_error, catchBlock_result, Hstack.
  destruct (_errorMessage (this fr)) as [| c rest]; simpl.
  - repeat split; try discriminate. intros H. contradiction H. reflexivity.
  - repeat split; try discriminate.
Qed.

Lemma salvage_on_abort_witness :
  let after := evaluate Sample.isLabel ["1"; "+"] Sample.evaluator in
  result after = JS.ofZ 1 /\
  error after <> "" /\
  ("" = "" -> error after = "invalid formula") /\
  ("" <> "" -> error after = "").
Proof.
  exact (salvage_on_abort Sample.isLabel ["1"; "+"] Sample.evaluator
           ErrorMessages.invalidFormula
           (snd (tryBlock Sample.isLabel ["1"; "+"] (started Sample.evaluator)))
           (JS.ofZ 1) (le_n 2) eq_refl eq_refl).
Defined.

(** ** Cell references *)

(** C6.  A valid label whose cell stores an error that is neither empty nor
    the "empty formula" sentinel resolves to value 0 with exactly that
    error, whatever the cell's formula is (empty included). *)
Theorem getCellValue_propagates_error :
  forall self token,
    isValidCellLabel (_sheetMemory self) token = true ->
    getError (getCellByLabel (_sheetMemory self) token) <> "" ->
    getError (getCellByLabel (_sheetMemory self) token)
      <> ErrorMessages.emptyFormula ->
    getCellValue self token =
      (JS.zero, getError (getCellByLabel (_sheetMemory self) token)).
Proof.
  intros self token Hvalid Hne Hsentinel. unfold getCellValue.
  rewrite Hvalid. simpl.
  apply String.eqb_neq in Hne. apply String.eqb_neq in Hsentinel.
  rewrite Hne, Hsentinel. reflexivity.
Qed.

Lemma getCellValue_propagates_error_witness :
  getFormula (Sample.cellAt "C3") = [] /\
  getCellValue Sample.evaluator "C3" = (JS.zero, "divide by zero").
Proof.
  split; [reflexivity |].
  apply (getCellValue_propagates_error Sample.evaluator "C3");
    [reflexivity | discriminate | discriminate].
Defined.

(** C7.  An unknown label, and a valid label whose cell has an empty formula
    and an error that is empty or the "empty formula" sentinel, both resolve
    to (0, "invalid cell"). *)
Theorem getCellValue_invalid_cell :
  forall self token,
    isValidCellLabel (_sheetMemory self) token = false \/
    (isValidCellLabel (_sheetMemory self) token = true /\
     (getError (getCellByLabel (_sheetMemory self) token) = "" \/
      getError (getCellByLabel (_sheetMemory self) token)
        = ErrorMessages.emptyFormula) /\
     getFormula (getCellByLabel (_sheetMemory self) token) = []) ->
    getCellValue self token = (JS.zero, "invalid cell").
Proof.
  intros self token [Hunknown | (Hvalid & Herror & Hformula)];
    unfold getCellValue.
  - rewrite Hunknown. reflexivity.
  - rewrite Hvalid, Hformula. simpl.
    destruct Herror as [-> | ->]; reflexivity.
Qed.

Lemma getCellValue_invalid_cell_witness :
  getError (Sample.cellAt "D4") = "empty formula" /\
  getCellValue Sample.evaluator "D4" = (JS.zero, "invalid cell") /\
  getCellValue Sample.evaluator "+" = (JS.zero, "invalid cell").
Proof.
  split; [reflexivity | split].
  - apply (getCellValue_invalid_cell Sample.evaluator "D4").
    right. repeat split. right. reflexivity.
  - apply (getCellValue_invalid_cell Sample.evaluator "+").
    left. reflexivity.
Defined.

(** ** One call does not see the previous one *)

Lemma evaluate_keepsContext Cell_isValidCellLabel formula self :
  sameContext self (evaluate Cell_isValidCellLabel formula self).
Proof.
  destruct formula as [| t1 [| t2 rest]].
  - repeat split.
  - simpl. destruct (isNumber t1); [repeat split |].
    destruct (isCellReference Cell_isValidCellLabel t1); [| repeat split].
    destruct (getCellValue _ t1) as [value message].
    destruct (JS.stringToBoolean message); repeat split.
  - rewrite evaluate_multi by (simpl; lia).
    pose proof (tryBlock_keepsContext Cell_isValidCellLabel
                  (t1 :: t2 :: rest) (started self)) as Htry.
    unfold keepsContext in Htry.
    destruct (tryBlock _ _ _) as [[[] | message | ] fr]; simpl in Htry;
      try exact Htry.
    apply sameContext_trans with (this fr); [exact Htry |].
    apply catchBlock_keepsContext.
Qed.

Lemma started_sameContext a b : sameContext a b -> started a = started b.
Proof.
  destruct a, b. unfold sameContext, started, enter, set_errorMessage,
    set_result. simpl. intros (H1 & H2 & H3 & H4). subst. reflexivity.
Qed.

Lemma evaluate_from_start Cell_isValidCellLabel formula a b :
  started a = started b ->
  evaluate Cell_isValidCellLabel formula a =
  evaluate Cell_isValidCellLabel formula b.
Proof.
  intros H.
  assert (H' : set_errorMessage "" (set_result JS.zero a) =
               set_errorMessage "" (set_result JS.zero b))
    by exact (f_equal this H).
  unfold evaluate. rewrite H'. reflexivity.
Qed.

(** C8.  Evaluating the same formula twice in a row on one instance gives
    the same result and error both times.  Each call starts by assigning 0
    to the result and the empty string to the error, and works on stacks of
    its own: what a call leaves in the instance depends neither on the call
    made before it, whichever formula that one evaluated, nor on the result
    and error the instance held when the call began.  Those two are
    replaced even when the call computes nothing: after the empty formula
    the result is 0, and after a one-number formula the error is empty. *)
Theorem evaluate_twice :
  forall Cell_isValidCellLabel formula self,
    let once := evaluate Cell_isValidCellLabel formula self in
    let twice := evaluate Cell_isValidCellLabel formula once in
    (result twice = result once /\ error twice = error once) /\
    (forall previous,
        evaluate Cell_isValidCellLabel formula
          (evaluate Cell_isValidCellLabel previous self) = once) /\
    (forall staleResult staleError,
        evaluate Cell_isValidCellLabel formula
          (set_errorMessage staleError (set_result staleResult self)) = once) /\
    (forall staleResult staleError,
        let stale := set_errorMessage staleError (set_result staleResult self) in
        result (evaluate Cell_isValidCellLabel [] stale) = JS.zero /\
        error (evaluate Cell_isValidCellLabel [] stale)
          = ErrorMessages.emptyFormula /\
        forall token,
          isNumber token = true ->
          result (evaluate Cell_isValidCellLabel [token] stale)
            = JS.Number token /\
          error (evaluate Cell_isValidCellLabel [token] stale) = "").
Proof.
  intros v formula self once twice.
  assert (Hany : forall previous,
             evaluate v formula (evaluate v previous self) = once).
  { intros previous. subst once. apply evaluate_from_start.
    symmetry. apply started_sameContext, evaluate_keepsContext. }
  split; [| split; [exact Hany | split]].
  - subst twice. unfold once at 1 3. rewrite (Hany formula).
    split; reflexivity.
  - intros staleResult staleError. subst once.
    apply evaluate_from_start. reflexivity.
  - intros staleResult staleError stale.
    split; [reflexivity | split; [reflexivity |]].
    intros token Hnum. unfold evaluate. simpl. rewrite Hnum.
    split; reflexivity.
Qed.

Lemma evaluate_twice_witness :
  let stale :=
    set_errorMessage "divide by zero"
      (set_result JS.Infinity Sample.evaluator) in
  let once := evaluate Sample.isLabel ["A1"; "*"; "2"] stale in
  let twice := evaluate Sample.isLabel ["A1"; "*"; "2"] once in
  (result once = JS.Number "6" /\ error once = "") /\
  (result twice = result once /\ error twice = error once) /\
  evaluate Sample.isLabel ["A1"; "*"; "2"]
    (evaluate Sample.isLabel ["5"; "/"; "0"] stale) = once /\
  once = evaluate Sample.isLabel ["A1"; "*"; "2"] Sample.evaluator /\
  result (evaluate Sample.isLabel [] stale) = JS.zero /\
  error (evaluate Sample.isLabel ["42"] stale) = "".
Proof.
  pose proof (evaluate_twice Sample.isLabel ["A1"; "*"; "2"]
                (set_errorMessage "divide by zero"
                   (set_result JS.Infinity Sample.evaluator)))
    as (Htwice & Hprevious & _ & _).
  pose proof (evaluate_twice Sample.isLabel ["A1"; "*"; "2"] Sample.evaluator)
    as (_ & _ & Hstale & Hreset).
  destruct (Hreset JS.Infinity "divide by zero") as (Hzero & _ & Hone).
  split; [split; reflexivity |].
  split; [exact Htwice |].
  split; [exact (Hprevious ["5"; "/"; "0"]) |].
  split; [exact (Hstale JS.Infinity "divide by zero") |].
  split; [exact Hzero |].
  exact (proj2 (Hone "42" eq_refl)).
Defined.

(** ** A cell reference that fails to resolve *)

(** C10.  In a formula of two tokens or more, when the scan reaches a
    cell-reference token whose resolution gives a non-empty error,
    [evaluate] returns at once: the error accessor is that error and the
    result accessor is 0, whatever was pushed on the operand stack before. *)
Theorem cell_error_returns_early :
  forall Cell_isValidCellLabel front token back self fr value message,
    (2 <= List.length (front ++ token :: back)%list)%nat ->
    scanTokens Cell_isValidCellLabel front (started self)
      = (Normal tt, fr) ->
    isNumber token = false ->
    isCellReference Cell_isValidCellLabel token = true ->
    getCellValue self token = (value, message) ->
    message <> "" ->
    let after :=
      evaluate Cell_isValidCellLabel (front ++ token :: back)%list self in
    error after = message /\ result after = JS.zero.
Proof.
  intros v front token back self fr value message Hlen Hscan Hnum Href
    Hcell Hmsg after.
  subst after. rewrite evaluate_multi by exact Hlen.
  pose proof (scanTokens_keepsResult v front (started self)) as Hres.
  pose proof (scanTokens_keepsContext v front (started self)) as Hctx.
  unfold keepsResult, keepsContext in Hres, Hctx.
  rewrite Hscan in Hres, Hctx. simpl in Hres, Hctx.
  assert (Hcell' : getCellValue (this fr) token = (value, message)).
  { rewrite <- Hcell. apply getCellValue_memory.
    destruct Hctx as (_ & _ & _ & Hmem). simpl in Hmem. symmetry. exact Hmem. }
  assert (Hall :
    scanTokens v (front ++ token :: back)%list (started self) =
    (Return, mkFrame (set_errorMessage message (this fr))
                     (operandsStack fr) (operatorsStack fr))).
  { rewrite scanTokens_app. unfold bind. rewrite Hscan.
    simpl scanTokens. unfold bind, scanToken. rewrite Hnum, Href.
    unfold bind, getThis. rewrite Hcell'.
    destruct message as [| c rest]; [contradiction Hmsg; reflexivity |].
    reflexivity. }
  unfold tryBlock, bind. rewrite Hall.
  unfold error, result. simpl. split; [reflexivity | exact Hres].
Qed.

Lemma cell_error_returns_early_witness :
  let after :=
    evaluate Sample.isLabel ["7"; "+"; "2"; "*"; "B2"; "+"; "1"]
      Sample.evaluator in
  error after = "divide by zero" /\ result after = JS.zero.
Proof.
  exact (cell_error_returns_early Sample.isLabel ["7"; "+"; "2"; "*"] "B2"
           ["+"; "1"] Sample.evaluator
           (snd (scanTokens Sample.isLabel ["7"; "+"; "2"; "*"]
                   (started Sample.evaluator)))
           JS.zero "divide by zero"
           (le_S _ _ (le_S _ _ (le_S _ _ (le_S _ _ (le_S _ _ (le_n 2))))))
           eq_refl eq_refl eq_refl eq_refl
           (fun H => eq_ind "divide by zero"
                       (fun s => match s with
                                 | EmptyString => False
                                 | String _ _ => True
                                 end) I "" H)).
Defined.

(** ** Parentheses and precedence *)

(** C9.  With labels that are not parentheses or operators,
    [( 1 + 2 ) * 3] evaluates to 9 and [3 * 4 + 2] to 14, both with an empty
    error.  The multiplication is applied before the addition wherever it
    stands: [2 + 3 * 4] is 14 and not 20, and for all numbers [x], [y], [z]
    both [x + y * z] and [y * z + x] multiply [y] and [z] first.
    Parentheses override that: [( 2 + 3 ) * 4] is 20, and [( x + y ) * z]
    and [z * ( x + y )] add [x] and [y] first.  The error is empty in every
    case. *)
Theorem precedence_and_parentheses :
  forall Cell_isValidCellLabel self,
    Cell_isValidCellLabel "(" = false ->
    Cell_isValidCellLabel ")" = false ->
    Cell_isValidCellLabel "*" = false ->
    Cell_isValidCellLabel "+" = false ->
    let run := fun formula => evaluate Cell_isValidCellLabel formula self in
    let grouped := run ["("; "1"; "+"; "2"; ")"; "*"; "3"] in
    let ranked := run ["3"; "*"; "4"; "+"; "2"] in
    let late := run ["2"; "+"; "3"; "*"; "4"] in
    let forced := run ["("; "2"; "+"; "3"; ")"; "*"; "4"] in
    (result grouped = JS.ofZ 9 /\ error grouped = "") /\
    (result ranked = JS.ofZ 14 /\ error ranked = "") /\
    (result late = JS.ofZ 14 /\ error late = "") /\
    (result forced = JS.ofZ 20 /\ error forced = "") /\
    (forall x y z,
        isNumber x = true -> isNumber y = true -> isNumber z = true ->
        let X := orZero (JS.Number x) in
        let Y := orZero (JS.Number y) in
        let Z := orZero (JS.Number z) in
        let product := orZero (JS.mul Y Z) in
        let sum := orZero (JS.add X Y) in
        (result (run [x; "+"; y; "*"; z]) = orZero (JS.add X product) /\
         error (run [x; "+"; y; "*"; z]) = "") /\
        (result (run [y; "*"; z; "+"; x]) = orZero (JS.add product X) /\
         error (run [y; "*"; z; "+"; x]) = "") /\
        (result (run ["("; x; "+"; y; ")"; "*"; z]) = orZero (JS.mul sum Z) /\
         error (run ["("; x; "+"; y; ")"; "*"; z]) = "") /\
        (result (run [z; "*"; "("; x; "+"; y; ")"]) = orZero (JS.mul Z sum) /\
         error (run [z; "*"; "("; x; "+"; y; ")"]) = "")).
Proof.
  intros v self Hopen Hclose Hmul Hadd run grouped ranked late forced.
  subst grouped ranked late forced run.
  cbv beta.
  split; [| split; [| split; [| split]]].
  1-4: unfold_formula; rewrite ?Hopen, ?Hclose, ?Hmul, ?Hadd;
    vm_compute; split; reflexivity.
  intros x y z Hx Hy Hz X Y Z product sum. subst X Y Z product sum.
  cbv beta. unfold_formula. rewrite Hx, Hy, Hz, Hopen, Hclose, Hmul, Hadd.
  generalize (JS.Number x) (JS.Number y) (JS.Number z). intros X Y Z.
  run_formula. repeat split; reflexivity.
Qed.

Lemma precedence_and_parentheses_witness :
  let run := fun formula => evaluate Sample.isLabel formula Sample.evaluator in
  (result (run ["("; "1"; "+"; "2"; ")"; "*"; "3"]) = JS.Number "9" /\
   error (run ["("; "1"; "+"; "2"; ")"; "*"; "3"]) = "") /\
  (result (run ["3"; "*"; "4"; "+"; "2"]) = JS.Number "14" /\
   error (run ["3"; "*"; "4"; "+"; "2"]) = "") /\
  (result (run ["2"; "+"; "3"; "*"; "4"]) = JS.Number "14" /\
   error (run ["2"; "+"; "3"; "*"; "4"]) = "") /\
  (result (run ["("; "2"; "+"; "3"; ")"; "*"; "4"]) = JS.Number "20" /\
   error (run ["("; "2"; "+"; "3"; ")"; "*"; "4"]) = "") /\
  (result (run ["0.5"; "+"; "2"; "*"; "8"]) = JS.Number "16.5" /\
   error (run ["0.5"; "+"; "2"; "*"; "8"]) = "") /\
  (result (run ["8"; "*"; "("; "0.5"; "+"; "2"; ")"]) = JS.Number "20" /\
   error (run ["8"; "*"; "("; "0.5"; "+"; "2"; ")"]) = "").
Proof.
  destruct (precedence_and_parentheses Sample.isLabel Sample.evaluator
              eq_refl eq_refl eq_refl eq_refl)
    as (Hgrouped & Hranked & Hlate & Hforced & Hall).
  destruct (Hall "0.5" "2" "8" eq_refl eq_refl eq_refl)
    as (Hright & _ & _ & Hparen).
  repeat split;
    first [ apply Hgrouped | apply Hranked | apply Hlate | apply Hforced
          | apply Hright | apply Hparen ].
Defined.

(** C4 fails on the code.  A close parenthesis met while the operator stack
    holds no open parenthesis pops nothing and raises nothing: [1 )]
    evaluates to 1 with an empty error. *)
Theorem unmatched_close_paren_is_accepted :
  forall Cell_isValidCellLabel self,
    Cell_isValidCellLabel ")" = false ->
    let after := evaluate Cell_isValidCellLabel ["1"; ")"] self in
    result after = JS.ofZ 1 /\ error after = "".
Proof.
  intros v self Hclose after. subst after.
  unfold evaluate, tryBlock. cbn [scanTokens].
  unfold scanToken, isCellReference. rewrite Hclose.
  vm_compute. split; reflexivity.
Qed.

Lemma unmatched_close_paren_is_accepted_witness :
  let after := evaluate Sample.isLabel ["1"; ")"] Sample.evaluator in
  result after = JS.Number "1" /\ error after = "".
Proof.
  exact (unmatched_close_paren_is_accepted Sample.isLabel Sample.evaluator
           eq_refl).
Defined.

(** ** An open parenthesis left on the operator stack *)

Lemma drain_from fr fr' :
  drainsTo fr fr' -> drain fr = drain fr'.
Proof.
  induction 1 as [| fr fr1 fr2 Hops Hstep _ IH]; [reflexivity |].
  rewrite drain_unfold, Hops, Hstep. exact IH.
Qed.

Lemma drain_open_paren fr below :
  operatorsStack fr = "(" :: below ->
  drain fr =
  if (List.length (operandsStack fr) <? 2)%nat then
    (Throw ErrorMessages.invalidFormula,
     mkFrame (set_errorMessage ErrorMessages.missingParentheses (this fr))
             (operandsStack fr) below)
  else
    (Throw "Invalid operator",
     mkFrame (set_errorMessage ErrorMessages.invalidOperator
                (set_errorMessage ErrorMessages.missingParentheses (this fr)))
             (tl (tl (operandsStack fr))) below).
Proof.
  destruct fr as [self operands operators]. simpl. intros ->.
  rewrite drain_unfold. simpl hasOperators. cbv iota.
  rewrite drainStep_open_paren.
  destruct (List.length operands <? 2)%nat; reflexivity.
Qed.

(** C2 (as the code has it).  When the scan of a formula of two tokens or
    more completes and the drain then finds an open parenthesis on top of the
    operator stack, [evaluate] ends (it is a total function) with error
    "missing parentheses" if fewer than two values are on the operand stack
    at that moment, and with "invalid operator" otherwise: [compute]
    overwrites the message.  In particular [( 1 + 2] ends with
    "missing parentheses". *)
Theorem unmatched_open_paren :
  forall Cell_isValidCellLabel self,
    (forall formula scanned fr below,
        (2 <= List.length formula)%nat ->
        scanTokens Cell_isValidCellLabel formula (started self)
          = (Normal tt, scanned) ->
        drainsTo scanned fr ->
        operatorsStack fr = "(" :: below ->
        error (evaluate Cell_isValidCellLabel formula self) =
          if (List.length (operandsStack fr) <? 2)%nat
          then "missing parentheses"
          else "invalid operator") /\
    (Cell_isValidCellLabel "(" = false ->
     Cell_isValidCellLabel "+" = false ->
     error (evaluate Cell_isValidCellLabel ["("; "1"; "+"; "2"] self)
       = "missing parentheses").
Proof.
  intros v self. split.
  - intros formula scanned fr below Hlen Hscan Hdrain Htop.
    rewrite evaluate_multi by exact Hlen.
    unfold tryBlock, bind. rewrite Hscan.
    rewrite (drain_from scanned fr Hdrain), (drain_open_paren fr below Htop).
    unfold error.
    destruct (List.length (operandsStack fr) <? 2)%nat;
      rewrite catchBlock_error; reflexivity.
  - intros Hopen Hadd. unfold evaluate, tryBlock. cbn [scanTokens].
    unfold scanToken, isCellReference. rewrite Hopen, Hadd.
    vm_compute. reflexivity.
Qed.

Lemma unmatched_open_paren_witness :
  error (evaluate Sample.isLabel ["("; "("; "1"; "+"; "2"] Sample.evaluator)
    = "missing parentheses" /\
  error (evaluate Sample.isLabel ["("; "1"; "+"; "2"] Sample.evaluator)
    = "missing parentheses".
Proof.
  pose (formula := ["("; "("; "1"; "+"; "2"]).
  pose (scanned := snd (scanTokens Sample.isLabel formula
                          (started Sample.evaluator))).
  pose (fr := snd (drainStep scanned)).
  exact (conj
           (proj1 (unmatched_open_paren Sample.isLabel Sample.evaluator)
              formula scanned fr ["("]
              (le_S _ _ (le_S _ _ (le_S _ _ (le_n 2))))
              eq_refl
              (drainsTo_round scanned fr fr eq_refl eq_refl (drainsTo_here fr))
              eq_refl)
           (proj2 (unmatched_open_paren Sample.isLabel Sample.evaluator)
              eq_refl eq_refl)).
Defined.

(** C2 (as stated) fails: in [( 1 2] the drain finds the open parenthesis
    with two values on the operand stack, and the error is
    "invalid operator". *)
Lemma unmatched_open_paren_counterexample :
  let formula := ["("; "1"; "2"] in
  let scanned :=
    snd (scanTokens Sample.isLabel formula (started Sample.evaluator)) in
  fst (scanTokens Sample.isLabel formula (started Sample.evaluator))
    = Normal tt /\
  operatorsStack scanned = ["("] /\
  error (evaluate Sample.isLabel formula Sample.evaluator)
    = "invalid operator" /\
  error (evaluate Sample.isLabel formula Sample.evaluator)
    <> "missing parentheses".
Proof.
  vm_compute. repeat split. discriminate.
Qed.

(** ** [isNumber] *)

(** *** Digits *)

Lemma digit_has_value c :
  JS.isDecimalDigit c = true -> exists v, JS.digitValue 10 c = Some v.
Proof.
  unfold JS.isDecimalDigit, JS.digitValue, JS.hexDigitValue.
  generalize (JS.byte c). intros n H.
  exists (Z.of_nat (n - 48)). by_bytes.
Qed.

Lemma other_has_no_value c :
  JS.isDecimalDigit c = false -> JS.digitValue 10 c = None.
Proof.
  unfold JS.isDecimalDigit, JS.digitValue, JS.hexDigitValue.
  generalize (JS.byte c). intros n H. by_bytes.
Qed.

Lemma scanDigits_onlyDigits s :
  onlyDigits s = true ->
  forall acc n,
  exists m, JS.scanDigits 10 s acc n = (m, (n + String.length s)%nat, "").
Proof.
  induction s as [| c rest IH]; simpl; intros Hdigits acc n.
  - exists acc. rewrite Nat.add_0_r. reflexivity.
  - apply andb_prop in Hdigits. destruct Hdigits as [Hc Hrest].
    destruct (digit_has_value c Hc) as [v ->].
    destruct (IH Hrest (acc * 10 + v)%Z (S n)) as [m ->].
    exists m. rewrite Nat.add_succ_r. reflexivity.
Qed.

Lemma scanFraction_literal s :
  forall acc n,
    wholeAndFraction (negb (n =? 0)%nat) s = true ->
    exists m e,
      (let '(ip, ni, afterInt) := JS.scanDigits 10 s acc n in
       JS.scanFraction ip ni afterInt) = Some (JS.MVDecimal m e, "").
Proof.
  induction s as [| c rest IH]; simpl; intros acc n Hlit.
  - unfold JS.scanFraction. rewrite Hlit. simpl. eauto.
  - destruct (JS.isDecimalDigit c) eqn:Hc.
    + destruct (digit_has_value c Hc) as [v ->].
      apply (IH (acc * 10 + v)%Z (S n)). exact Hlit.
    + rewrite (other_has_no_value c Hc).
      destruct (JS.byte c =? 46)%nat eqn:Hdot; [| discriminate Hlit].
      apply andb_prop in Hlit. destruct Hlit as [Hseen Hfrac].
      unfold JS.scanFraction. rewrite Hdot.
      destruct rest as [| d rest']; [discriminate Hfrac |].
      destruct (scanDigits_onlyDigits (String d rest') Hfrac acc 0)
        as [m ->].
      destruct n as [| n']; [discriminate Hseen |].
      simpl. eauto.
Qed.

(** *** Rounding never gives NaN *)

Lemma shr_1_nonneg mrs :
  (0 <= shr_m mrs)%Z -> (0 <= shr_m (shr_1 mrs))%Z.
Proof.
  destruct mrs as [m r s].
  destruct m as [| [p | p |] | [p | p |]]; simpl; lia.
Qed.

Lemma iter_shr_1_nonneg p :
  forall mrs, (0 <= shr_m mrs)%Z -> (0 <= shr_m (iter_pos shr_1 p mrs))%Z.
Proof.
  induction p as [p IH | p IH |]; simpl; intros mrs H.
  - apply IH, IH, shr_1_nonneg, H.
  - apply IH, IH, H.
  - apply shr_1_nonneg, H.
Qed.

Lemma shr_fexp_nonneg m e l :
  (0 <= m)%Z ->
  (0 <= shr_m (fst (shr_fexp JS.prec JS.emax m e l)))%Z.
Proof.
  intros H. unfold shr_fexp, shr.
  assert (Hrec : (0 <= shr_m (shr_record_of_loc m l))%Z)
    by (destruct l as [| []]; exact H).
  destruct (_ - e)%Z; simpl; auto using iter_shr_1_nonneg.
Qed.

Lemma round_nearest_even_nonneg m l :
  (0 <= m)%Z -> (0 <= round_nearest_even m l)%Z.
Proof.
  intros H. destruct l as [| []]; simpl; try lia.
  destruct (Z.even m); lia.
Qed.

Lemma binary_round_aux_not_NaN sx mx ex lx :
  (0 <= mx)%Z ->
  JS.isNaN (binary_round_aux JS.prec JS.emax sx mx ex lx) = false.
Proof.
  intros H. unfold binary_round_aux.
  pose proof (shr_fexp_nonneg mx ex lx H) as H1.
  destruct (shr_fexp JS.prec JS.emax mx ex lx) as [mrs' e']. simpl in H1.
  pose proof (shr_fexp_nonneg _ e' loc_Exact
                (round_nearest_even_nonneg _ (loc_of_shr_record mrs') H1))
    as H2.
  destruct (shr_fexp JS.prec JS.emax _ e' loc_Exact) as [mrs'' e''].
  simpl in H2.
  destruct (shr_m mrs'') as [| m | m]; simpl; try reflexivity.
  - destruct (e'' <=? _)%Z; reflexivity.
  - lia.
Qed.

Lemma div_finite_not_NaN sx mx ex sy my ey :
  JS.isNaN (SFdiv JS.prec JS.emax (S754_finite sx mx ex) (S754_finite sy my ey))
    = false.
Proof.
  unfold SFdiv, SFdiv_core_binary.
  set (shifted := match (ex - ey - _)%Z with
                  | Z0 => Zpos mx
                  | Zpos _ => Z.shiftl (Zpos mx) _
                  | Zneg _ => 0%Z
                  end).
  assert (Hshifted : (0 <= shifted)%Z).
  { subst shifted. destruct (ex - ey - _)%Z; try lia.
    apply Z.shiftl_nonneg. lia. }
  pose proof (Z.div_pos shifted (Zpos my) Hshifted eq_refl) as Hq.
  unfold Z.div in Hq.
  destruct (Z.div_eucl shifted (Zpos my)) as [q r].
  apply binary_round_aux_not_NaN, Hq.
Qed.

Lemma roundMV_not_NaN negative v : JS.isNaN (JS.roundMV negative v) = false.
Proof.
  destruct v as [| m e]; [reflexivity |].
  destruct m as [| p | p]; try reflexivity.
  unfold JS.roundMV. apply div_finite_not_NaN.
Qed.

(** *** A decimal literal is read as one *)

Lemma skipWhiteSpace_printable c rest :
  JS.isAsciiWhiteSpace c = false ->
  (JS.byte c < 128)%nat ->
  JS.skipWhiteSpace (String c rest) = String c rest.
Proof.
  intros Hws Hascii. simpl. rewrite Hws.
  assert (H2 : forall c2, JS.isWhiteSpace2 c c2 = false).
  { intros c2. unfold JS.isWhiteSpace2. by_bytes. }
  assert (H3 : forall c2 c3, JS.isWhiteSpace3 c c2 c3 = false).
  { intros c2 c3. unfold JS.isWhiteSpace3. by_bytes. }
  destruct rest as [| c2 [| c3 rest]]; try reflexivity.
  - rewrite H2. reflexivity.
  - rewrite H2, H3. reflexivity.
Qed.

Lemma digit_is_printable c :
  JS.isDecimalDigit c = true ->
  JS.isAsciiWhiteSpace c = false /\ (JS.byte c < 128)%nat.
Proof.
  unfold JS.isDecimalDigit, JS.isAsciiWhiteSpace.
  generalize (JS.byte c). intros n H. split; by_bytes.
Qed.

Lemma sign_is_printable c :
  (JS.byte c =? 43)%nat || (JS.byte c =? 45)%nat = true ->
  JS.isAsciiWhiteSpace c = false /\ (JS.byte c < 128)%nat.
Proof.
  unfold JS.isAsciiWhiteSpace.
  generalize (JS.byte c). intros n H. split; by_bytes.
Qed.

(** A literal with no sign starts with a digit. *)
Lemma wholeAndFraction_starts s :
  wholeAndFraction false s = true ->
  exists c rest,
    s = String c rest /\ JS.isDecimalDigit c = true /\
    wholeAndFraction true rest = true.
Proof.
  destruct s as [| c rest]; simpl; [discriminate |].
  destruct (JS.isDecimalDigit c) eqn:Hc; [eauto |].
  destruct (JS.byte c =? 46)%nat; discriminate.
Qed.

Lemma scanUnsignedDecimal_literal s :
  wholeAndFraction false s = true ->
  exists m e, JS.scanUnsignedDecimal s = Some (JS.MVDecimal m e, "").
Proof.
  intros Hlit.
  destruct (wholeAndFraction_starts s Hlit) as (c & rest & -> & Hc & _).
  unfold JS.scanUnsignedDecimal.
  assert (Hinf : JS.stripPrefix "Infinity" (String c rest) = None).
  { change (JS.stripPrefix "Infinity" (String c rest))
      with (if Ascii.eqb "I"%char c then JS.stripPrefix "nfinity" rest
            else None).
    destruct (Ascii.eqb_spec "I"%char c) as [<- | _];
      [discriminate Hc | reflexivity]. }
  rewrite Hinf. apply (scanFraction_literal (String c rest) 0%Z 0%nat Hlit).
Qed.

(** The second character of a decimal literal is a digit or a point, none of
    the radix letters. *)
Lemma scanNonDecimal_literal c rest :
  wholeAndFraction true rest = true ->
  JS.scanNonDecimal (String c rest) = None.
Proof.
  intros Hrest. unfold JS.scanNonDecimal.
  destruct rest as [| k rest']; [reflexivity |].
  destruct (JS.byte c =? 48)%nat; [| reflexivity].
  simpl in Hrest.
  assert (Hk : JS.isDecimalDigit k = true \/ (JS.byte k =? 46)%nat = true).
  { destruct (JS.isDecimalDigit k); [left; reflexivity |].
    destruct (JS.byte k =? 46)%nat; [right; reflexivity | discriminate]. }
  clear Hrest. unfold JS.isDecimalDigit in Hk. revert Hk.
  generalize (JS.byte k). intros n [Hk | Hk]; by_bytes.
Qed.

Lemma scanNonDecimal_signed c rest :
  (JS.byte c =? 43)%nat || (JS.byte c =? 45)%nat = true ->
  JS.scanNonDecimal (String c rest) = None.
Proof.
  intros Hsign. unfold JS.scanNonDecimal.
  destruct rest as [| k rest']; [reflexivity |].
  revert Hsign. generalize (JS.byte c). intros n Hsign. by_bytes.
Qed.

Lemma Number_decimalLiteral token :
  decimalLiteral token = true ->
  exists negative m e, JS.Number token = JS.roundMV negative (JS.MVDecimal m e).
Proof.
  unfold decimalLiteral, JS.Number.
  destruct token as [| c rest]; [discriminate |].
  destruct ((JS.byte c =? 43)%nat || (JS.byte c =? 45)%nat) eqn:Hsign;
    intros Hlit.
  - destruct (sign_is_printable c Hsign) as [Hws Hascii].
    rewrite (skipWhiteSpace_printable c rest Hws Hascii).
    unfold JS.scanNumericLiteral.
    rewrite (scanNonDecimal_signed c rest Hsign).
    destruct (scanUnsignedDecimal_literal rest Hlit) as (m & e & Hscan).
    destruct (JS.byte c =? 45)%nat eqn:Hminus.
    + exists true, m, e. cbv beta iota zeta. rewrite Hscan. reflexivity.
    + destruct (JS.byte c =? 43)%nat; [| discriminate Hsign].
      exists false, m, e. cbv beta iota zeta. rewrite Hscan. reflexivity.
  - destruct (wholeAndFraction_starts _ Hlit) as (c' & rest' & Heq & Hc & Hrest).
    injection Heq as <- <-.
    destruct (digit_is_printable c Hc) as [Hws Hascii].
    rewrite (skipWhiteSpace_printable c rest Hws Hascii).
    unfold JS.scanNumericLiteral.
    rewrite (scanNonDecimal_literal c rest Hrest).
    apply orb_false_elim in Hsign. destruct Hsign as [Hplus Hminus].
    rewrite Hminus, Hplus.
    destruct (scanUnsignedDecimal_literal _ Hlit) as (m & e & Hscan).
    exists false, m, e. cbv beta iota zeta. rewrite Hscan. reflexivity.
Qed.

(** *** Strings and characters *)

Lemma append_assoc (a b c : string) : (a ++ b) ++ c = a ++ b ++ c.
Proof. induction a as [| x a IH]; simpl; [| rewrite IH]; reflexivity. Qed.

Lemma append_empty (a : string) : a ++ "" = a.
Proof. induction a as [| x a IH]; simpl; [| rewrite IH]; reflexivity. Qed.

Lemma byte_is c n : JS.byte c = n -> c = ascii_of_nat n.
Proof. intros <-. symmetry. apply ascii_nat_embedding. Qed.

Ltac each_character c :=
  destruct c as [[] [] [] [] [] [] [] []].

Lemma each_ext accepts accepts' s :
  (forall c, accepts c = accepts' c) -> each accepts s = each accepts' s.
Proof.
  intros H. induction s as [| c s IH]; simpl; [| rewrite H, IH]; reflexivity.
Qed.

Lemma decimal_digit c : isDigitOf 10 c = among "0123456789" c.
Proof. each_character c; reflexivity. Qed.

Lemma binary_digit c : isDigitOf 2 c = among "01" c.
Proof. each_character c; reflexivity. Qed.

Lemma octal_digit c : isDigitOf 8 c = among "01234567" c.
Proof. each_character c; reflexivity. Qed.

Lemma hex_digit c : isDigitOf 16 c = among "0123456789abcdefABCDEF" c.
Proof. each_character c; reflexivity. Qed.

Lemma digit_is_visible radix c :
  isDigitOf radix c = true -> isVisible c = true.
Proof.
  each_character c; intros H; first [reflexivity | cbv in H; discriminate H].
Qed.

Lemma endsBefore_visible radix s :
  endsBefore isVisible s = true -> endsBefore (isDigitOf radix) s = true.
Proof.
  destruct s as [| c s]; [reflexivity |]. simpl.
  destruct (isDigitOf radix c) eqn:Hc; [| reflexivity].
  rewrite (digit_is_visible radix c Hc). intros H. exact H.
Qed.

(** *** Runs of digits *)

Lemma scanDigits_reads radix s :
  forall acc n,
  exists digits value rest,
    JS.scanDigits radix s acc n
      = (value, (n + String.length digits)%nat, rest) /\
    s = digits ++ rest /\
    each (isDigitOf radix) digits = true /\
    endsBefore (isDigitOf radix) rest = true.
Proof.
  induction s as [| c s IH]; intros acc n.
  - exists "", acc, "". simpl. rewrite Nat.add_0_r. auto.
  - simpl. destruct (JS.digitValue radix c) as [v |] eqn:Hc.
    + destruct (IH (acc * radix + v)%Z (S n))
        as (digits & value & rest & Hscan & -> & Hdigits & Hend).
      exists (String c digits), value, rest. rewrite Hscan. simpl.
      unfold isDigitOf at 1. rewrite Hc, Nat.add_succ_r. auto.
    + exists "", acc, (String c s). simpl.
      unfold isDigitOf. rewrite Hc, Nat.add_0_r. auto.
Qed.

Lemma scanDigits_app radix digits rest :
  each (isDigitOf radix) digits = true ->
  endsBefore (isDigitOf radix) rest = true ->
  forall acc n,
  exists value,
    JS.scanDigits radix (digits ++ rest) acc n
      = (value, (n + String.length digits)%nat, rest).
Proof.
  intros Hdigits Hend.
  induction digits as [| c digits IH]; intros acc n.
  - exists acc. simpl. rewrite Nat.add_0_r.
    destruct rest as [| c rest]; [reflexivity |].
    simpl in *. unfold isDigitOf in Hend.
    destruct (JS.digitValue radix c); [discriminate Hend | reflexivity].
  - simpl in Hdigits. apply andb_prop in Hdigits.
    destruct Hdigits as [Hc Hdigits]. simpl.
    unfold isDigitOf in Hc.
    destruct (JS.digitValue radix c) as [v |]; [| discriminate Hc].
    destruct (IH Hdigits (acc * radix + v)%Z (S n)) as [value ->].
    exists value. rewrite Nat.add_succ_r. reflexivity.
Qed.

(** *** White space *)

Ltac in_codePoints :=
  simpl; repeat (first [left; reflexivity | right]).

Ltac choose_codePoint :=
  let rec choose l :=
    lazymatch l with
    | ?cp :: ?l' =>
        first [ exists cp; split; [in_codePoints | reflexivity] | choose l' ]
    end in
  let l := eval cbv in (whiteSpaceCodePoints ++ lineTerminatorCodePoints)%list
    in choose l.

Lemma whiteSpace1_codePoint c :
  JS.isAsciiWhiteSpace c = true ->
  exists codePoint,
    In codePoint (whiteSpaceCodePoints ++ lineTerminatorCodePoints)%list /\
    utf8 codePoint = String c "".
Proof.
  each_character c; intros H; vm_compute in H; try discriminate H;
    choose_codePoint.
Qed.

Lemma whiteSpace2_codePoint c1 c2 :
  JS.isWhiteSpace2 c1 c2 = true ->
  exists codePoint,
    In codePoint (whiteSpaceCodePoints ++ lineTerminatorCodePoints)%list /\
    utf8 codePoint = String c1 (String c2 "").
Proof.
  unfold JS.isWhiteSpace2. intros H. apply andb_prop in H.
  destruct H as [H1 H2]. apply Nat.eqb_eq in H1, H2.
  rewrite (byte_is c1 _ H1), (byte_is c2 _ H2). choose_codePoint.
Qed.

Lemma whiteSpace3_codePoint c1 c2 c3 :
  JS.isWhiteSpace3 c1 c2 c3 = true ->
  exists codePoint,
    In codePoint (whiteSpaceCodePoints ++ lineTerminatorCodePoints)%list /\
    utf8 codePoint = String c1 (String c2 (String c3 "")).
Proof.
  unfold JS.isWhiteSpace3.
  remember (JS.byte c1) as a eqn:Ha. remember (JS.byte c2) as b eqn:Hb.
  remember (JS.byte c3) as c eqn:Hc3.
  symmetry in Ha, Hb, Hc3. apply byte_is in Ha, Hb, Hc3. intros H.
  repeat rewrite ?orb_true_iff, ?andb_true_iff, ?Nat.eqb_eq, ?Nat.leb_le in H.
  assert (Hc : (128 <= c <= 138)%nat ->
               (c = 128 \/ c = 129 \/ c = 130 \/ c = 131 \/ c = 132 \/
                c = 133 \/ c = 134 \/ c = 135 \/ c = 136 \/ c = 137 \/
                c = 138)%nat) by lia.
  repeat match goal with
         | H : _ \/ _ |- _ => destruct H as [H | H]
         | H : _ /\ _ |- _ => destruct H
         end;
    try (assert (Hrange : (128 <= c <= 138)%nat) by (split; assumption);
         apply Hc in Hrange; clear Hc;
         repeat match goal with
                | H : _ \/ _ |- _ => destruct H as [H | H]
                end);
    subst; choose_codePoint.
Qed.

Lemma skipWhiteSpace_reads_upto n :
  forall s,
    (String.length s <= n)%nat ->
    exists lead, StrWhiteSpace lead /\ s = lead ++ JS.skipWhiteSpace s.
Proof.
  assert (Hnone : forall s,
             exists lead, StrWhiteSpace lead /\ s = lead ++ s).
  { intros s. exists "". split; [constructor | reflexivity]. }
  assert (Hmore : forall unit rest skipped,
             (exists codePoint,
                 In codePoint
                   (whiteSpaceCodePoints ++ lineTerminatorCodePoints)%list /\
                 utf8 codePoint = unit) ->
             (exists lead, StrWhiteSpace lead /\ rest = lead ++ skipped) ->
             exists lead, StrWhiteSpace lead /\ unit ++ rest = lead ++ skipped).
  { intros unit rest skipped (codePoint & Hin & <-) (lead & Hlead & ->).
    exists (utf8 codePoint ++ lead). split.
    - constructor; assumption.
    - symmetry. apply append_assoc. }
  induction n as [| n IH]; intros s Hlen.
  - destruct s; [apply Hnone | simpl in Hlen; lia].
  - destruct s as [| c1 r1]; [apply Hnone |].
    cbn [JS.skipWhiteSpace]. simpl in Hlen.
    destruct (JS.isAsciiWhiteSpace c1) eqn:H1.
    { apply (Hmore (String c1 "") r1).
      - apply whiteSpace1_codePoint, H1.
      - apply IH. lia. }
    destruct r1 as [| c2 r2]; [apply Hnone |]. simpl in Hlen.
    destruct (JS.isWhiteSpace2 c1 c2) eqn:H2.
    { apply (Hmore (String c1 (String c2 "")) r2).
      - apply whiteSpace2_codePoint, H2.
      - apply IH. lia. }
    destruct r2 as [| c3 r3]; [apply Hnone |]. simpl in Hlen.
    destruct (JS.isWhiteSpace3 c1 c2 c3) eqn:H3; [| apply Hnone].
    apply (Hmore (String c1 (String c2 (String c3 ""))) r3).
    + apply whiteSpace3_codePoint, H3.
    + apply IH. lia.
Qed.

Lemma skipWhiteSpace_reads s :
  exists lead, StrWhiteSpace lead /\ s = lead ++ JS.skipWhiteSpace s.
Proof. apply (skipWhiteSpace_reads_upto (String.length s)). lia. Qed.

Lemma skipWhiteSpace_lead lead s :
  StrWhiteSpace lead ->
  JS.skipWhiteSpace (lead ++ s) = JS.skipWhiteSpace s.
Proof.
  induction 1 as [| codePoint rest Hin _ IH]; [reflexivity |].
  simpl in Hin.
  repeat (destruct Hin as [<- | Hin];
          [change (JS.skipWhiteSpace (rest ++ s) = JS.skipWhiteSpace s);
           exact IH |]).
  contradiction.
Qed.

Lemma StrWhiteSpace_skipped s :
  JS.skipWhiteSpace s = "" <-> StrWhiteSpace s.
Proof.
  split.
  - intros H. destruct (skipWhiteSpace_reads s) as (lead & Hlead & Heq).
    rewrite H, append_empty in Heq. subst. exact Hlead.
  - intros H. rewrite <- (append_empty s).
    rewrite (skipWhiteSpace_lead s "" H). reflexivity.
Qed.

Lemma StrWhiteSpace_ends s :
  StrWhiteSpace s -> endsBefore isVisible s = true.
Proof.
  destruct 1 as [| codePoint rest Hin _]; [reflexivity |].
  simpl in Hin.
  repeat (destruct Hin as [<- | Hin]; [reflexivity |]).
  contradiction.
Qed.

Lemma skipWhiteSpace_visible c s :
  isVisible c = true -> JS.skipWhiteSpace (String c s) = String c s.
Proof.
  intros H. apply skipWhiteSpace_printable.
  - revert H. each_character c; intros H; first [reflexivity | discriminate H].
  - revert H. each_character c; intros H; vm_compute in H;
      first [discriminate H | vm_compute; lia].
Qed.

(** *** The scanners against the grammar *)

Section NumericText.

Ltac reassociate :=
  repeat first [rewrite append_assoc | progress cbn [append]].

#[local] Arguments JS.scanDigits : simpl never.
#[local] Arguments JS.scanExponent : simpl never.

Lemma Digits_read radix alphabet digits :
  (forall c, isDigitOf radix c = among alphabet c) ->
  each (isDigitOf radix) digits = true ->
  digits <> "" ->
  Digits alphabet digits.
Proof.
  intros Hext Heach Hsome. split; [exact Hsome |].
  rewrite <- (each_ext _ _ digits Hext). exact Heach.
Qed.

Lemma Digits_each radix alphabet digits :
  (forall c, isDigitOf radix c = among alphabet c) ->
  Digits alphabet digits ->
  each (isDigitOf radix) digits = true /\
  exists d rest, digits = String d rest /\ isDigitOf radix d = true.
Proof.
  intros Hext [Hsome Heach].
  rewrite <- (each_ext _ _ digits Hext) in Heach. split; [exact Heach |].
  destruct digits as [| d rest]; [contradiction Hsome; reflexivity |].
  exists d, rest. split; [reflexivity |].
  simpl in Heach. apply andb_prop in Heach. apply Heach.
Qed.

Lemma digit_is_no_sign d :
  isDigitOf 10 d = true ->
  (JS.byte d =? 45)%nat = false /\ (JS.byte d =? 43)%nat = false.
Proof.
  each_character d; intros H; first [split; reflexivity | discriminate H].
Qed.

Lemma hidden_is_no_indicator c :
  isVisible c = false ->
  (JS.byte c =? 101)%nat || (JS.byte c =? 69)%nat = false.
Proof.
  each_character c; intros H; first [reflexivity | discriminate H].
Qed.

Lemma scanExponent_reads s :
  exists part,
    Optional ExponentPart part /\ s = part ++ snd (JS.scanExponent s).
Proof.
  assert (Hnone : exists part, Optional ExponentPart part /\ s = part ++ s).
  { exists "". split; [left |]; reflexivity. }
  unfold JS.scanExponent.
  destruct s as [| c rest]; [exact Hnone |].
  destruct ((JS.byte c =? 101)%nat || (JS.byte c =? 69)%nat) eqn:He;
    [| exact Hnone].
  assert (Hind : String c "" = "e" \/ String c "" = "E").
  { apply orb_prop in He.
    destruct He as [He | He]; apply Nat.eqb_eq in He;
      rewrite (byte_is c _ He); [left | right]; reflexivity. }
  assert (Hdigits : forall sign digitsAt (negative : bool),
             Optional Sign sign ->
             rest = sign ++ digitsAt ->
             exists part,
               Optional ExponentPart part /\
               String c rest =
               part ++ snd (let '(v, n, after) :=
                              JS.scanDigits 10 digitsAt 0 0 in
                            match n with
                            | O => (0%Z, String c rest)
                            | S _ => ((if negative then - v else v)%Z, after)
                            end)).
  { intros sign digitsAt negative Hsign Hrest.
    destruct (scanDigits_reads 10 digitsAt 0 0)
      as (digits & value & after & -> & Hat & Hd & _).
    destruct digits as [| d digits]; [exact Hnone |].
    exists (String c "" ++ sign ++ String d digits). split.
    - right. constructor; [exact Hind | exact Hsign |].
      apply (Digits_read 10); [exact decimal_digit | exact Hd | discriminate].
    - simpl snd. rewrite Hrest, Hat, !append_assoc. reflexivity. }
  destruct rest as [| sg rest'].
  { apply (Hdigits "" "" false); [left |]; reflexivity. }
  destruct (JS.byte sg =? 45)%nat eqn:Hminus.
  { apply Nat.eqb_eq, byte_is in Hminus. subst sg.
    apply (Hdigits "-" rest' true); [right; right |]; reflexivity. }
  destruct (JS.byte sg =? 43)%nat eqn:Hplus.
  { apply Nat.eqb_eq, byte_is in Hplus. subst sg.
    apply (Hdigits "+" rest' false); [right; left |]; reflexivity. }
  apply (Hdigits "" (String sg rest') false); [left |]; reflexivity.
Qed.

Lemma scanExponent_app part rest :
  Optional ExponentPart part ->
  endsBefore isVisible rest = true ->
  exists e, JS.scanExponent (part ++ rest) = (e, rest).
Proof.
  intros [-> | Hpart] Hend.
  - unfold JS.scanExponent. simpl.
    destruct rest as [| c rest]; [eauto |].
    simpl in Hend. apply negb_true_iff in Hend.
    rewrite (hidden_is_no_indicator c Hend). eauto.
  - destruct Hpart as [indicator sign digits Hind Hsign Hdigits].
    destruct (Digits_each 10 _ digits decimal_digit Hdigits)
      as (Heach & d & digits' & -> & Hd).
    destruct (scanDigits_app 10 (String d digits') rest Heach
                (endsBefore_visible 10 rest Hend) 0%Z 0%nat)
      as [value Hscan].
    destruct (digit_is_no_sign d Hd) as [Hminus Hplus].
    rewrite !append_assoc.
    destruct Hind as [-> | ->]; destruct Hsign as [-> | [-> | ->]];
      unfold JS.scanExponent; cbn [append] in *;
      rewrite ?Hminus, ?Hplus; simpl; rewrite Hscan; simpl; eauto.
Qed.

Lemma stripPrefix_reads prefix :
  forall s rest, JS.stripPrefix prefix s = Some rest -> s = prefix ++ rest.
Proof.
  induction prefix as [| p prefix IH]; intros s rest H.
  - injection H as <-. reflexivity.
  - destruct s as [| c s]; [discriminate H |].
    cbn [JS.stripPrefix] in H. revert H.
    destruct (Ascii.eqb_spec p c) as [<- |]; [| discriminate].
    intros H. simpl. f_equal. apply IH, H.
Qed.

Lemma stripPrefix_app prefix rest :
  JS.stripPrefix prefix (prefix ++ rest) = Some rest.
Proof.
  induction prefix as [| p prefix IH]; [reflexivity |].
  cbn [JS.stripPrefix append]. rewrite Ascii.eqb_refl. exact IH.
Qed.

Lemma stripPrefix_Infinity c s :
  among ".0123456789" c = true ->
  JS.stripPrefix "Infinity" (String c s) = None.
Proof.
  intros H.
  change (JS.stripPrefix "Infinity" (String c s))
    with (if Ascii.eqb "I"%char c then JS.stripPrefix "nfinity" s else None).
  destruct (Ascii.eqb_spec "I"%char c) as [<- | _];
    [discriminate H | reflexivity].
Qed.

Lemma scanUnsignedDecimal_reads s v rest :
  JS.scanUnsignedDecimal s = Some (v, rest) ->
  exists literal, StrUnsignedDecimalLiteral literal /\ s = literal ++ rest.
Proof.
  unfold JS.scanUnsignedDecimal.
  destruct (JS.stripPrefix "Infinity" s) as [rest' |] eqn:Hinf.
  { intros H. injection H as <- <-. exists "Infinity".
    split; [constructor | apply stripPrefix_reads, Hinf]. }
  destruct (scanDigits_reads 10 s 0 0)
    as (whole & ip & afterInt & -> & -> & Hwhole & _).
  assert (Hsome : forall w digits,
             each (isDigitOf 10) (String w digits) = true ->
             DecimalDigits (String w digits)).
  { intros w digits H.
    apply (Digits_read 10); [exact decimal_digit | exact H | discriminate]. }
  assert (Hopt : forall digits,
             each (isDigitOf 10) digits = true ->
             Optional DecimalDigits digits).
  { intros [| d digits] H; [left; reflexivity | right; apply Hsome, H]. }
  assert (Hexponent : forall (afterFrac : string) (value : Z -> JS.MV),
             (let '(e, rest) := JS.scanExponent afterFrac in
              Some (value e, rest)) = Some (v, rest) ->
             exists exponent,
               Optional ExponentPart exponent /\ afterFrac = exponent ++ rest).
  { intros afterFrac value.
    destruct (scanExponent_reads afterFrac) as (exponent & Hexp & Heq).
    destruct (JS.scanExponent afterFrac) as [e rest'].
    intros H. injection H as _ <-. exists exponent. auto. }
  unfold JS.scanFraction.
  destruct afterInt as [| dot r].
  - destruct whole as [| w whole]; [discriminate |].
    simpl. intros H.
    apply (Hexponent "" (fun e => JS.MVDecimal ip (e - 0))) in H.
    destruct H as (exponent & Hexp & ->).
    exists (String w whole ++ exponent).
    split; [| reassociate; reflexivity].
    apply Literal_whole; [apply Hsome, Hwhole | exact Hexp].
  - destruct (JS.byte dot =? 46)%nat eqn:Hdot.
    + apply Nat.eqb_eq, byte_is in Hdot. subst dot.
      destruct (scanDigits_reads 10 r ip 0)
        as (fraction & m & afterFrac & -> & -> & Hfraction & _).
      destruct whole as [| w whole].
      * destruct fraction as [| f fraction]; [discriminate |].
        simpl. intros H.
        apply (Hexponent afterFrac (fun e => JS.MVDecimal m (e - _))) in H.
        destruct H as (exponent & Hexp & ->).
        exists ("." ++ String f fraction ++ exponent).
        split; [| reassociate; reflexivity].
        apply Literal_fraction; [apply Hsome, Hfraction | exact Hexp].
      * simpl. intros H.
        apply (Hexponent afterFrac (fun e => JS.MVDecimal m (e - _))) in H.
        destruct H as (exponent & Hexp & ->).
        exists (String w whole ++ "." ++ fraction ++ exponent).
        split; [| reassociate; reflexivity].
        apply Literal_point;
          [apply Hsome, Hwhole | apply Hopt, Hfraction | exact Hexp].
    + destruct whole as [| w whole]; [discriminate |].
      simpl. intros H.
      apply (Hexponent (String dot r) (fun e => JS.MVDecimal ip (e - 0))) in H.
      destruct H as (exponent & Hexp & Heq). rewrite Heq.
      exists (String w whole ++ exponent).
      split; [| reassociate; reflexivity].
      apply Literal_whole; [apply Hsome, Hwhole | exact Hexp].
Qed.

Lemma exponent_ends exponent rest :
  Optional ExponentPart exponent ->
  endsBefore isVisible rest = true ->
  endsBefore (isDigitOf 10) (exponent ++ rest) = true.
Proof.
  intros [-> | Hexp] Hend; [apply endsBefore_visible, Hend |].
  destruct Hexp as [indicator sign digits [-> | ->] _ _]; reflexivity.
Qed.

Lemma Optional_each digits :
  Optional DecimalDigits digits -> each (isDigitOf 10) digits = true.
Proof.
  intros [-> | H]; [reflexivity |].
  apply (Digits_each 10 _ digits decimal_digit H).
Qed.

Lemma digit_among d :
  isDigitOf 10 d = true -> among ".0123456789" d = true.
Proof. each_character d; intros H; first [reflexivity | discriminate H]. Qed.

Lemma scanUnsignedDecimal_app literal rest :
  StrUnsignedDecimalLiteral literal ->
  endsBefore isVisible rest = true ->
  exists v, JS.scanUnsignedDecimal (literal ++ rest) = Some (v, rest).
Proof.
  intros Hliteral Hend. unfold JS.scanUnsignedDecimal.
  destruct Hliteral
    as [| whole fraction exponent Hwhole Hfraction Hexp
        | fraction exponent Hfraction Hexp
        | whole exponent Hwhole Hexp].
  - rewrite stripPrefix_app. eauto.
  - destruct (Digits_each 10 _ whole decimal_digit Hwhole)
      as (Heach & w & whole' & -> & Hw).
    reassociate.
    rewrite (stripPrefix_Infinity w _ (digit_among w Hw)).
    destruct (scanDigits_app 10 (String w whole')
                ("." ++ fraction ++ exponent ++ rest) Heach eq_refl 0%Z 0%nat)
      as [ip Hip].
    cbn [append] in Hip. rewrite Hip.
    destruct (scanDigits_app 10 fraction (exponent ++ rest)
                (Optional_each fraction Hfraction)
                (exponent_ends exponent rest Hexp Hend) ip 0%nat)
      as [m Hm].
    destruct (scanExponent_app exponent rest Hexp Hend) as [e He].
    unfold JS.scanFraction. simpl. rewrite Hm. simpl. rewrite He. eauto.
  - destruct (Digits_each 10 _ fraction decimal_digit Hfraction)
      as (Heach & f & fraction' & -> & Hf).
    reassociate.
    rewrite (stripPrefix_Infinity "." _ eq_refl).
    destruct (scanDigits_app 10 (String f fraction') (exponent ++ rest)
                Heach (exponent_ends exponent rest Hexp Hend) 0%Z 0%nat)
      as [m Hm].
    destruct (scanExponent_app exponent rest Hexp Hend) as [e He].
    cbn [append] in Hm.
    unfold JS.scanFraction. simpl. rewrite Hm. simpl. rewrite He. eauto.
  - destruct (Digits_each 10 _ whole decimal_digit Hwhole)
      as (Heach & w & whole' & -> & Hw).
    reassociate.
    rewrite (stripPrefix_Infinity w _ (digit_among w Hw)).
    destruct (scanDigits_app 10 (String w whole') (exponent ++ rest)
                Heach (exponent_ends exponent rest Hexp Hend) 0%Z 0%nat)
      as [ip Hip].
    cbn [append] in Hip. rewrite Hip.
    destruct (scanExponent_app exponent rest Hexp Hend) as [e He].
    unfold JS.scanFraction.
    assert (Hdot : match exponent ++ rest with
                   | String dot _ => (JS.byte dot =? 46)%nat = false
                   | EmptyString => True
                   end).
    { destruct Hexp as [-> | Hexp].
      - destruct rest as [| c rest]; [exact I |].
        simpl in Hend |- *. revert Hend.
        each_character c; intros H; first [reflexivity | discriminate H].
      - destruct Hexp as [indicator sign digits [-> | ->] _ _]; reflexivity. }
    revert He Hdot. generalize (exponent ++ rest).
    intros [| dot after] He Hdot.
    + cbv in He. injection He as <- <-. simpl. eauto.
    + rewrite Hdot. simpl. rewrite He. eauto.
Qed.

Lemma scanNonDecimal_reads s v rest :
  JS.scanNonDecimal s = Some (v, rest) ->
  exists literal, NonDecimalIntegerLiteral literal /\ s = literal ++ rest.
Proof.
  unfold JS.scanNonDecimal.
  destruct s as [| z [| k r]]; try discriminate.
  destruct (JS.byte z =? 48)%nat eqn:Hz; [| discriminate].
  apply Nat.eqb_eq, byte_is in Hz. subst z.
  assert (Hdigits : forall radix alphabet,
             (forall c, isDigitOf radix c = among alphabet c) ->
             (forall digits,
                 Digits alphabet digits ->
                 NonDecimalIntegerLiteral (String "0" (String k "") ++ digits)) ->
             (let '(v, n, after) := JS.scanDigits radix r 0 0 in
              match n with
              | O => None
              | S _ => Some (JS.MVDecimal v 0, after)
              end) = Some (v, rest) ->
             exists literal,
               NonDecimalIntegerLiteral literal /\
               String "0" (String k r) = literal ++ rest).
  { intros radix alphabet Hext Hliteral.
    destruct (scanDigits_reads radix r 0 0)
      as (digits & value & after & -> & -> & Hd & _).
    destruct digits as [| d digits]; [discriminate |].
    simpl. intros H. injection H as _ <-.
    exists (String "0" (String k "") ++ String d digits).
    split; [| reflexivity].
    apply Hliteral, (Digits_read radix); [exact Hext | exact Hd | discriminate]. }
  assert (Hletter : forall n, (JS.byte k =? n)%nat = true ->
                              String "0" (String k "")
                              = String "0" (String (ascii_of_nat n) "")).
  { intros n H. apply Nat.eqb_eq, byte_is in H. subst k. reflexivity. }
  destruct (JS.byte k =? 120)%nat eqn:H1;
    [rewrite (Hletter _ H1) in Hdigits; apply (Hdigits 16%Z _ hex_digit);
     intros digits; apply Literal_hex; left; reflexivity |].
  destruct (JS.byte k =? 88)%nat eqn:H2;
    [rewrite (Hletter _ H2) in Hdigits; apply (Hdigits 16%Z _ hex_digit);
     intros digits; apply Literal_hex; right; reflexivity |].
  destruct (JS.byte k =? 111)%nat eqn:H3;
    [rewrite (Hletter _ H3) in Hdigits; apply (Hdigits 8%Z _ octal_digit);
     intros digits; apply Literal_octal; left; reflexivity |].
  destruct (JS.byte k =? 79)%nat eqn:H4;
    [rewrite (Hletter _ H4) in Hdigits; apply (Hdigits 8%Z _ octal_digit);
     intros digits; apply Literal_octal; right; reflexivity |].
  destruct (JS.byte k =? 98)%nat eqn:H5;
    [rewrite (Hletter _ H5) in Hdigits; apply (Hdigits 2%Z _ binary_digit);
     intros digits; apply Literal_binary; left; reflexivity |].
  destruct (JS.byte k =? 66)%nat eqn:H6;
    [rewrite (Hletter _ H6) in Hdigits; apply (Hdigits 2%Z _ binary_digit);
     intros digits; apply Literal_binary; right; reflexivity |].
  discriminate.
Qed.

Lemma scanNonDecimal_app literal rest :
  NonDecimalIntegerLiteral literal ->
  endsBefore isVisible rest = true ->
  exists v, JS.scanNonDecimal (literal ++ rest) = Some (v, rest).
Proof.
  intros Hliteral Hend.
  assert (Hscan : forall radix alphabet digits,
             (forall c, isDigitOf radix c = among alphabet c) ->
             Digits alphabet digits ->
             exists value n,
               JS.scanDigits radix (digits ++ rest) 0 0 = (value, S n, rest)).
  { intros radix alphabet digits Hext Hdigits.
    destruct (Digits_each radix _ digits Hext Hdigits)
      as (Heach & d & digits' & -> & _).
    destruct (scanDigits_app radix (String d digits') rest Heach
                (endsBefore_visible radix rest Hend) 0%Z 0%nat)
      as [value Hvalue].
    exists value, (String.length digits'). exact Hvalue. }
  destruct Hliteral as [prefix digits Hprefix Hdigits
                       | prefix digits Hprefix Hdigits
                       | prefix digits Hprefix Hdigits].
  - destruct (Hscan 2%Z _ digits binary_digit Hdigits) as (value & n & Hvalue).
    destruct Hprefix as [-> | ->]; unfold JS.scanNonDecimal; simpl;
      rewrite Hvalue; eauto.
  - destruct (Hscan 8%Z _ digits octal_digit Hdigits) as (value & n & Hvalue).
    destruct Hprefix as [-> | ->]; unfold JS.scanNonDecimal; simpl;
      rewrite Hvalue; eauto.
  - destruct (Hscan 16%Z _ digits hex_digit Hdigits) as (value & n & Hvalue).
    destruct Hprefix as [-> | ->]; unfold JS.scanNonDecimal; simpl;
      rewrite Hvalue; eauto.
Qed.

#[local] Arguments JS.scanUnsignedDecimal : simpl never.

Lemma scanNonDecimal_first z s :
  (JS.byte z =? 48)%nat = false -> JS.scanNonDecimal (String z s) = None.
Proof.
  intros H. unfold JS.scanNonDecimal.
  destruct s; [reflexivity |]. rewrite H. reflexivity.
Qed.

Lemma scanNonDecimal_second z k s :
  among "xXoObB" k = false -> JS.scanNonDecimal (String z (String k s)) = None.
Proof.
  intros H. unfold JS.scanNonDecimal.
  destruct (JS.byte z =? 48)%nat; [| reflexivity].
  assert (Hk : (JS.byte k =? 120)%nat = false /\ (JS.byte k =? 88)%nat = false /\
               (JS.byte k =? 111)%nat = false /\ (JS.byte k =? 79)%nat = false /\
               (JS.byte k =? 98)%nat = false /\ (JS.byte k =? 66)%nat = false).
  { revert H. each_character k; intros H;
      first [repeat split; reflexivity | discriminate H]. }
  destruct Hk as (H1 & H2 & H3 & H4 & H5 & H6).
  rewrite H1, H2, H3, H4, H5, H6. reflexivity.
Qed.

Lemma digit_is_no_letter d :
  isDigitOf 10 d = true -> among "xXoObB" d = false.
Proof. each_character d; intros H; first [reflexivity | discriminate H]. Qed.

Lemma hidden_is_no_letter c :
  isVisible c = false -> among "xXoObB" c = false.
Proof. each_character c; intros H; first [reflexivity | discriminate H]. Qed.

Lemma scanNonDecimal_unsigned literal rest :
  StrUnsignedDecimalLiteral literal ->
  endsBefore isVisible rest = true ->
  JS.scanNonDecimal (literal ++ rest) = None.
Proof.
  intros Hliteral Hend.
  destruct Hliteral
    as [| whole fraction exponent Hwhole Hfraction Hexp
        | fraction exponent Hfraction Hexp
        | whole exponent Hwhole Hexp].
  - apply scanNonDecimal_first. reflexivity.
  - destruct (Digits_each 10 _ whole decimal_digit Hwhole)
      as (Heach & w & whole' & -> & _).
    simpl in Heach. apply andb_prop in Heach. destruct Heach as [_ Heach].
    reassociate. destruct whole' as [| d whole'].
    + apply scanNonDecimal_second. reflexivity.
    + simpl in Heach. apply andb_prop in Heach.
      apply scanNonDecimal_second, digit_is_no_letter, Heach.
  - apply scanNonDecimal_first. reflexivity.
  - destruct (Digits_each 10 _ whole decimal_digit Hwhole)
      as (Heach & w & whole' & -> & _).
    simpl in Heach. apply andb_prop in Heach. destruct Heach as [_ Heach].
    reassociate. destruct whole' as [| d whole'].
    + destruct Hexp as [-> | Hexp].
      * destruct rest as [| c rest]; [reflexivity |].
        simpl in Hend. apply negb_true_iff in Hend.
        apply scanNonDecimal_second, hidden_is_no_letter, Hend.
      * destruct Hexp as [indicator sign digits [-> | ->] _ _];
          apply scanNonDecimal_second; reflexivity.
    + simpl in Heach. apply andb_prop in Heach.
      apply scanNonDecimal_second, digit_is_no_letter, Heach.
Qed.

Lemma scanNonDecimal_decimal literal rest :
  StrDecimalLiteral literal ->
  endsBefore isVisible rest = true ->
  JS.scanNonDecimal (literal ++ rest) = None.
Proof.
  intros [sign unsigned [-> | [-> | ->]] Hunsigned] Hend.
  - apply scanNonDecimal_unsigned; assumption.
  - apply scanNonDecimal_first. reflexivity.
  - apply scanNonDecimal_first. reflexivity.
Qed.

Lemma unsigned_starts literal :
  StrUnsignedDecimalLiteral literal ->
  exists c s, literal = String c s /\ among ".0123456789I" c = true.
Proof.
  assert (Hdigit : forall d, isDigitOf 10 d = true ->
                             among ".0123456789I" d = true).
  { intros d. each_character d; intros H;
      first [reflexivity | discriminate H]. }
  intros [| whole fraction exponent Hwhole _ _
          | fraction exponent _ _
          | whole exponent Hwhole _].
  - exists "I"%char, "nfinity". split; reflexivity.
  - destruct (Digits_each 10 _ whole decimal_digit Hwhole)
      as (_ & w & whole' & -> & Hw).
    exists w, (whole' ++ "." ++ fraction ++ exponent). auto.
  - exists "."%char, (fraction ++ exponent). split; reflexivity.
  - destruct (Digits_each 10 _ whole decimal_digit Hwhole)
      as (_ & w & whole' & -> & Hw).
    exists w, (whole' ++ exponent). auto.
Qed.

Lemma literal_starts literal :
  StrNumericLiteral literal ->
  exists c s, literal = String c s /\ isVisible c = true.
Proof.
  assert (Hvisible : forall c, among ".0123456789I" c = true ->
                               isVisible c = true).
  { intros c. each_character c; intros H;
      first [reflexivity | discriminate H]. }
  intros [[sign unsigned Hsign Hunsigned]
         | [prefix digits Hprefix _ | prefix digits Hprefix _
            | prefix digits Hprefix _]].
  - destruct Hsign as [-> | [-> | ->]].
    + destruct (unsigned_starts unsigned Hunsigned) as (c & s & -> & Hc).
      exists c, s. auto.
    + exists "+"%char, unsigned. split; reflexivity.
    + exists "-"%char, unsigned. split; reflexivity.
  - destruct Hprefix as [-> | ->]; eexists _, _; split; reflexivity.
  - destruct Hprefix as [-> | ->]; eexists _, _; split; reflexivity.
  - destruct Hprefix as [-> | ->]; eexists _, _; split; reflexivity.
Qed.

Lemma scanNumericLiteral_reads s negative v rest :
  JS.scanNumericLiteral s = Some (negative, v, rest) ->
  exists literal, StrNumericLiteral literal /\ s = literal ++ rest.
Proof.
  unfold JS.scanNumericLiteral.
  destruct (JS.scanNonDecimal s) as [[v' rest'] |] eqn:Hnd.
  { intros H. injection H as _ <- <-.
    destruct (scanNonDecimal_reads _ _ _ Hnd) as (literal & Hliteral & ->).
    exists literal. split; [right; exact Hliteral | reflexivity]. }
  assert (Hbody : forall sign body (minus : bool),
             Optional Sign sign ->
             s = sign ++ body ->
             match JS.scanUnsignedDecimal body with
             | Some (v, rest) => Some (minus, v, rest)
             | None => None
             end = Some (negative, v, rest) ->
             exists literal, StrNumericLiteral literal /\ s = literal ++ rest).
  { intros sign body minus Hsign ->.
    destruct (JS.scanUnsignedDecimal body) as [[v' rest'] |] eqn:Hbody;
      [| discriminate].
    intros H. injection H as _ <- <-.
    destruct (scanUnsignedDecimal_reads _ _ _ Hbody)
      as (unsigned & Hunsigned & ->).
    exists (sign ++ unsigned).
    split; [left; constructor; assumption | rewrite append_assoc; reflexivity]. }
  destruct s as [| sg r].
  { apply (Hbody "" "" false); [left |]; reflexivity. }
  destruct (JS.byte sg =? 45)%nat eqn:Hminus.
  { apply Nat.eqb_eq, byte_is in Hminus. subst sg.
    apply (Hbody "-" r true); [right; right |]; reflexivity. }
  destruct (JS.byte sg =? 43)%nat eqn:Hplus.
  { apply Nat.eqb_eq, byte_is in Hplus. subst sg.
    apply (Hbody "+" r false); [right; left |]; reflexivity. }
  apply (Hbody "" (String sg r) false); [left |]; reflexivity.
Qed.

Lemma scanNumericLiteral_app literal rest :
  StrNumericLiteral literal ->
  endsBefore isVisible rest = true ->
  exists negative v,
    JS.scanNumericLiteral (literal ++ rest) = Some (negative, v, rest).
Proof.
  intros [Hdecimal | Hother] Hend; unfold JS.scanNumericLiteral.
  - rewrite (scanNonDecimal_decimal literal rest Hdecimal Hend).
    destruct Hdecimal as [sign unsigned Hsign Hunsigned].
    destruct (scanUnsignedDecimal_app unsigned rest Hunsigned Hend)
      as [v Hv].
    destruct Hsign as [-> | [-> | ->]].
    + destruct (unsigned_starts unsigned Hunsigned) as (c & s & -> & Hc).
      assert (Hsign : (JS.byte c =? 45)%nat = false /\
                      (JS.byte c =? 43)%nat = false).
      { revert Hc. each_character c; intros H;
          first [split; reflexivity | discriminate H]. }
      destruct Hsign as [Hminus Hplus].
      cbn [append] in *. rewrite Hminus, Hplus, Hv. eauto.
    + simpl. rewrite Hv. eauto.
    + simpl. rewrite Hv. eauto.
  - destruct (scanNonDecimal_app literal rest Hother Hend) as [v ->].
    eauto.
Qed.

End NumericText.

(** C5 (as the code has it).  [isNumber] is true of a token exactly when
    the token is numeric text for JavaScript: white space only, or one
    numeric literal with optional white space on both sides, the literal
    being a decimal one with an optional sign (digits with an optional
    fraction and an optional exponent, or [Infinity]) or a binary, octal or
    hexadecimal one with its prefix and no sign.  So it is true of every
    decimal literal of the spec (optional sign, digits, optional fraction),
    and also of the empty string and of blanks, which [Number] reads as 0,
    of [Infinity] and of the exponent and prefixed notations; it is false of
    every other text, such as the operator and parenthesis tokens, a cell
    label, or a number followed by anything but white space. *)
Theorem isNumber_iff_numeric_text :
  (forall token, isNumber token = true <-> StringNumericLiteral token) /\
  (forall token, decimalLiteral token = true -> isNumber token = true) /\
  (isNumber "" = true /\ isNumber "  " = true /\ isNumber "Infinity" = true /\
   isNumber "1e3" = true /\ isNumber "0x1F" = true /\
   isNumber "0o17" = true /\ isNumber "0b101" = true) /\
  (isNumber "+" = false /\ isNumber "-" = false /\ isNumber "*" = false /\
   isNumber "/" = false /\ isNumber "(" = false /\ isNumber ")" = false /\
   isNumber "A1" = false /\ isNumber "12px" = false /\
   isNumber "1+2" = false /\ isNumber "3)" = false /\
   isNumber "-0x1F" = false /\ isNumber "1e" = false /\
   isNumber "." = false).
Proof.
  split; [| split; [| split; vm_compute; repeat split]].
  - intros token. unfold isNumber, JS.Number. split.
    + destruct (skipWhiteSpace_reads token) as (lead & Hlead & Heq).
      destruct (JS.skipWhiteSpace token) as [| c s].
      { intros _. rewrite append_empty in Heq. subst token.
        apply Literal_blank, Hlead. }
      destruct (JS.scanNumericLiteral (String c s))
        as [[[negative v] rest] |] eqn:Hscan; [| discriminate].
      destruct (JS.skipWhiteSpace rest) eqn:Hrest; [| discriminate].
      intros _.
      destruct (scanNumericLiteral_reads _ _ _ _ Hscan)
        as (literal & Hliteral & Hs).
      rewrite Heq, Hs.
      apply Literal_padded;
        [exact Hlead | exact Hliteral | apply StrWhiteSpace_skipped, Hrest].
    + intros [space Hspace | before literal after Hbefore Hliteral Hafter].
      { rewrite (proj2 (StrWhiteSpace_skipped space) Hspace). reflexivity. }
      rewrite (skipWhiteSpace_lead before _ Hbefore).
      destruct (scanNumericLiteral_app literal after Hliteral
                  (StrWhiteSpace_ends after Hafter))
        as (negative & v & Hscan).
      destruct (literal_starts literal Hliteral) as (c & s & -> & Hc).
      cbn [append] in *. rewrite (skipWhiteSpace_visible c _ Hc), Hscan.
      rewrite (proj2 (StrWhiteSpace_skipped after) Hafter).
      rewrite roundMV_not_NaN. reflexivity.
  - intros token Hlit. unfold isNumber.
    destruct (Number_decimalLiteral token Hlit) as (negative & m & e & ->).
    rewrite roundMV_not_NaN. reflexivity.
Qed.

Lemma isNumber_iff_numeric_text_witness :
  StringNumericLiteral " -12.5e3 " /\
  StringNumericLiteral "0x1F" /\
  (StringNumericLiteral "12px" -> False) /\
  (StringNumericLiteral "A1" -> False).
Proof.
  pose proof (proj1 isNumber_iff_numeric_text) as Hiff.
  split; [exact (proj1 (Hiff " -12.5e3 ") eq_refl) |].
  split; [exact (proj1 (Hiff "0x1F") eq_refl) |].
  split; intros H.
  - exact (Bool.diff_false_true (proj2 (Hiff "12px") H)).
  - exact (Bool.diff_false_true (proj2 (Hiff "A1") H)).
Defined.

(** C5 (as stated) fails: the empty string is no numeric literal, and
    [isNumber] is true of it. *)
Lemma isNumber_empty_counterexample :
  decimalLiteral "" = false /\ isNumber "" = true /\ JS.Number "" = JS.zero.
Proof. repeat split. Qed.

(** * Further properties of the evaluator *)

(** ** One step of [compute] *)

Lemma compute_computable fr :
  computable fr = true -> compute fr = (Normal tt, computed fr).
Proof.
  destruct fr as [self [| b [| a rest]] [| op below]];
    unfold computable, computed, compute, isArithmetic, applyOperator, orZero;
    run_eval; try discriminate.
  destruct (String.eqb_spec op "+") as [-> | _]; [reflexivity |].
  destruct (String.eqb_spec op "-") as [-> | _]; [reflexivity |].
  destruct (String.eqb_spec op "*") as [-> | _]; [reflexivity |].
  destruct (String.eqb_spec op "/") as [-> | _]; simpl; [| discriminate].
  destruct (JS.strictEq _ _); [discriminate | reflexivity].
Qed.

Lemma compute_not_computable fr :
  computable fr = false ->
  exists message fr', compute fr = (Throw message, fr').
Proof.
  destruct fr as [self [| b [| a rest]] [| op below]];
    unfold computable, compute, isArithmetic, orZero; run_eval; eauto.
  destruct (String.eqb_spec op "+") as [-> | _]; [discriminate |].
  destruct (String.eqb_spec op "-") as [-> | _]; [discriminate |].
  destruct (String.eqb_spec op "*") as [-> | _]; [discriminate |].
  destruct (String.eqb_spec op "/") as [-> | _]; simpl; eauto.
  destruct (JS.strictEq _ _); [eauto | discriminate].
Qed.

Lemma compute_normal fr fr' :
  compute fr = (Normal tt, fr') -> computable fr = true /\ fr' = computed fr.
Proof.
  intros H. destruct (computable fr) eqn:Hc.
  - rewrite (compute_computable fr Hc) in H. injection H as <-. auto.
  - destruct (compute_not_computable fr Hc) as (m & fr1 & Hthrow).
    rewrite Hthrow in H. discriminate H.
Qed.

(** X12.  [compute] never returns out of [evaluate].  In a computable frame
    it completes normally: the operator is popped and the two top operands
    are replaced by one value.  In any other frame it throws, the operator
    popped all the same. *)
Theorem compute_succeeds_or_throws :
  forall fr,
    if computable fr then
      compute fr = (Normal tt, computed fr) /\
      S (List.length (operandsStack (computed fr)))
        = List.length (operandsStack fr) /\
      operatorsStack (computed fr) = tl (operatorsStack fr)
    else
      exists message fr',
        compute fr = (Throw message, fr') /\
        operatorsStack fr' = tl (operatorsStack fr).
Proof.
  intros fr. destruct (computable fr) eqn:Hc.
  - split; [apply compute_computable, Hc |].
    destruct fr as [self [| b [| a rest]] [| op below]];
      try discriminate Hc. split; reflexivity.
  - destruct (compute_not_computable fr Hc) as (message & fr' & Hthrow).
    exists message, fr'. split; [exact Hthrow |].
    pose proof (compute_pops fr) as Hpop. rewrite Hthrow in Hpop.
    exact Hpop.
Qed.

(** ** The error message along an evaluation *)

Lemma tracksError_refl fr : tracksError fr (Normal tt) fr.
Proof. reflexivity. Qed.

Lemma tracksError_trans fr fr1 c fr2 :
  tracksError fr (Normal tt) fr1 -> tracksError fr1 c fr2 ->
  tracksError fr c fr2.
Proof. unfold tracksError. destruct c; simpl; congruence. Qed.

Lemma compute_tracksError : obeys tracksError compute.
Proof.
  intros fr. unfold tracksError.
  destruct (compute_effect fr); simpl; trivial.
Qed.

Lemma popOperator_tracksError : obeys tracksError popOperator.
Proof.
  intros fr. unfold popOperator. destruct (operatorsStack fr); reflexivity.
Qed.

Lemma scanToken_tracksError Cell_isValidCellLabel token :
  obeys tracksError (scanToken Cell_isValidCellLabel token).
Proof.
  unfold scanToken.
  destruct (isNumber token); [intros fr; reflexivity |].
  destruct (isCellReference Cell_isValidCellLabel token).
  - intros fr. unfold bind, getThis.
    destruct (getCellValue (this fr) token) as [value [| c rest]]; simpl;
      [reflexivity | discriminate].
  - destruct (token =? "("); [intros fr; reflexivity |].
    destruct (token =? ")").
    + apply obeys_bind; [apply tracksError_trans | |].
      * apply obeys_while;
          [apply tracksError_refl | apply tracksError_trans
           | apply compute_tracksError].
      * intros _. apply obeys_bind;
          [apply tracksError_trans | apply popOperator_tracksError |].
        intros _ fr. reflexivity.
    + apply obeys_bind; [apply tracksError_trans | |].
      * apply obeys_while;
          [apply tracksError_refl | apply tracksError_trans
           | apply compute_tracksError].
      * intros _ fr. reflexivity.
Qed.

Lemma scanTokens_tracksError Cell_isValidCellLabel formula :
  obeys tracksError (scanTokens Cell_isValidCellLabel formula).
Proof.
  induction formula as [| token rest IH]; simpl.
  - intros fr. reflexivity.
  - apply obeys_bind;
      [apply tracksError_trans | apply scanToken_tracksError |].
    intros _. exact IH.
Qed.

(** With no open parenthesis on top, a round of the drain is [compute]. *)
Lemma drainStep_other fr :
  hd_error (operatorsStack fr) <> Some "(" -> drainStep fr = compute fr.
Proof.
  destruct fr as [self operands [| top below]]; intros Htop;
    unfold drainStep; run_eval; [reflexivity |].
  destruct (String.eqb_spec top "(") as [-> | _];
    [contradiction Htop |]; reflexivity.
Qed.

(** A round of the drain that completes normally is a computable step. *)
Lemma drainStep_normal fr fr' :
  drainStep fr = (Normal tt, fr') -> computable fr = true /\ fr' = computed fr.
Proof.
  intros H.
  destruct (operatorsStack fr) as [| top below] eqn:Hops.
  - apply compute_normal. rewrite <- drainStep_other; [exact H |].
    rewrite Hops. discriminate.
  - destruct (String.eqb_spec top "(") as [-> | Hne].
    + destruct fr as [self operands operators]. simpl in Hops. subst.
      rewrite drainStep_open_paren in H.
      destruct (List.length operands <? 2)%nat; discriminate H.
    + apply compute_normal. rewrite <- drainStep_other; [exact H |].
      rewrite Hops. simpl. congruence.
Qed.

Lemma drainStep_tracksError : obeys tracksError drainStep.
Proof.
  intros fr. unfold tracksError.
  destruct (drainStep fr) as [[[] | message | ] fr'] eqn:Hstep; simpl;
    trivial.
  - destruct (drainStep_normal fr fr' Hstep) as [Hc ->].
    destruct fr as [self [| b [| a rest]] [| op below]];
      try discriminate Hc. reflexivity.
  - exfalso. destruct (operatorsStack fr) as [| top below] eqn:Hops.
    + rewrite drainStep_other in Hstep by (rewrite Hops; discriminate).
      pose proof (compute_effect fr) as He. rewrite Hstep in He.
      inversion He.
    + destruct (String.eqb_spec top "(") as [-> | Hne].
      * destruct fr as [self operands operators]. simpl in Hops. subst.
        rewrite drainStep_open_paren in Hstep.
        destruct (List.length operands <? 2)%nat; discriminate Hstep.
      * rewrite drainStep_other in Hstep
          by (rewrite Hops; simpl; congruence).
        pose proof (compute_effect fr) as He. rewrite Hstep in He.
        inversion He.
Qed.

Lemma drain_tracksError : obeys tracksError drain.
Proof.
  apply obeys_while;
    [apply tracksError_refl | apply tracksError_trans
     | apply drainStep_tracksError].
Qed.

Lemma finalCheck_tracksError : obeys tracksError finalCheck.
Proof.
  intros [self [| v [| w rest]] operators];
    unfold finalCheck, tracksError; run_eval; trivial.
Qed.

Lemma tryBlock_tracksError Cell_isValidCellLabel formula :
  obeys tracksError (tryBlock Cell_isValidCellLabel formula).
Proof.
  unfold tryBlock.
  apply obeys_bind;
    [apply tracksError_trans | apply scanTokens_tracksError |].
  intros _. apply obeys_bind;
    [apply tracksError_trans | apply drain_tracksError |].
  intros _. apply finalCheck_tracksError.
Qed.

(** The error accessor after the [try] block, by the way the block ends. *)
Lemma error_by_completion Cell_isValidCellLabel formula self :
  (2 <= List.length formula)%nat ->
  match tryBlock Cell_isValidCellLabel formula (started self) with
  | (Normal _, _) => error (evaluate Cell_isValidCellLabel formula self) = ""
  | _ => error (evaluate Cell_isValidCellLabel formula self) <> ""
  end.
Proof.
  intros Hlen. rewrite (evaluate_multi _ formula self Hlen).
  pose proof (tryBlock_tracksError Cell_isValidCellLabel formula
                (started self)) as Htrack.
  unfold tracksError in Htrack.
  destruct (tryBlock _ _ _) as [[[] | message | ] fr]; simpl in Htrack;
    unfold error.
  - exact Htrack.
  - rewrite catchBlock_error.
    destruct (_errorMessage (this fr)); simpl; discriminate.
  - exact Htrack.
Qed.

(** X1.  For a formula of two tokens or more, the error accessor is empty
    exactly when the [try] block runs to its end: every throw and every
    early return leaves a message, and a run that completes leaves none. *)
Theorem error_empty_iff_completed :
  forall Cell_isValidCellLabel formula self,
    (2 <= List.length formula)%nat ->
    error (evaluate Cell_isValidCellLabel formula self) = "" <->
    exists fr,
      tryBlock Cell_isValidCellLabel formula (started self) = (Normal tt, fr).
Proof.
  intros v formula self Hlen.
  pose proof (error_by_completion v formula self Hlen) as H.
  destruct (tryBlock v formula (started self)) as [[[] | message | ] fr];
    split; intros H'; eauto; try contradiction;
    destruct H' as [fr' H']; discriminate H'.
Qed.

Lemma error_empty_iff_completed_witness :
  (error (evaluate Sample.isLabel ["3"; "+"; "4"] Sample.evaluator) = "" <->
   exists fr,
     tryBlock Sample.isLabel ["3"; "+"; "4"] (started Sample.evaluator)
       = (Normal tt, fr)) /\
  error (evaluate Sample.isLabel ["3"; "+"; "4"] Sample.evaluator) = "".
Proof.
  split; [| reflexivity].
  exact (error_empty_iff_completed Sample.isLabel ["3"; "+"; "4"]
           Sample.evaluator (le_S _ _ (le_n 2))).
Defined.

(** ** The result of a run that completes *)

Lemma tryBlock_normal Cell_isValidCellLabel formula fr0 fr :
  tryBlock Cell_isValidCellLabel formula fr0 = (Normal tt, fr) ->
  exists scanned drained,
    scanTokens Cell_isValidCellLabel formula fr0 = (Normal tt, scanned) /\
    drain scanned = (Normal tt, drained) /\
    finalCheck drained = (Normal tt, fr).
Proof.
  unfold tryBlock, bind. intros H.
  destruct (scanTokens _ formula fr0) as [[[] | m | ] scanned];
    try discriminate H.
  destruct (drain scanned) as [[[] | m | ] drained] eqn:Hdrain;
    try discriminate H.
  exists scanned, drained. repeat split; assumption.
Qed.

Lemma finalCheck_normal fr fr' :
  finalCheck fr = (Normal tt, fr') ->
  exists value,
    operandsStack fr = [value] /\
    _result (this fr') = JS.orElse (Some value) JS.zero.
Proof.
  destruct fr as [self [| v [| w rest]] operators];
    unfold finalCheck; run_eval; intros H; try discriminate H.
  injection H as <-. eauto.
Qed.

Lemma orElse_is_a_number x :
  JS.isNaN (JS.orElse x JS.zero) = false /\
  JS.orElse x JS.zero <> S754_zero true.
Proof.
  destruct x as [[s | s | | s m e] |]; simpl; split;
    try reflexivity; discriminate.
Qed.

(** X2.  When a formula of two tokens or more evaluates with an empty
    error, the result is neither NaN nor negative zero: the value left on
    the operand stack goes through [|| 0] on its way to the result. *)
Theorem completed_result_is_a_number :
  forall Cell_isValidCellLabel formula self,
    (2 <= List.length formula)%nat ->
    error (evaluate Cell_isValidCellLabel formula self) = "" ->
    JS.isNaN (result (evaluate Cell_isValidCellLabel formula self)) = false /\
    result (evaluate Cell_isValidCellLabel formula self) <> S754_zero true.
Proof.
  intros v formula self Hlen Herr.
  pose proof (error_by_completion v formula self Hlen) as Hby.
  rewrite (evaluate_multi v formula self Hlen).
  destruct (tryBlock v formula (started self)) as [[[] | message | ] fr]
    eqn:Htry; try contradiction.
  destruct (tryBlock_normal v formula _ fr Htry)
    as (scanned & drained & _ & _ & Hfinal).
  destruct (finalCheck_normal drained fr Hfinal) as (value & _ & Hres).
  unfold result. rewrite Hres. apply orElse_is_a_number.
Qed.

Lemma completed_result_is_a_number_witness :
  let after :=
    evaluate Sample.isLabel ["Infinity"; "-"; "Infinity"] Sample.evaluator in
  JS.sub JS.Infinity JS.Infinity = JS.NaN /\
  result after = JS.zero /\
  JS.isNaN (result after) = false /\
  result after <> S754_zero true.
Proof.
  split; [reflexivity | split; [reflexivity |]].
  exact (completed_result_is_a_number Sample.isLabel
           ["Infinity"; "-"; "Infinity"] Sample.evaluator
           (le_S _ _ (le_n 2)) eq_refl).
Defined.

(** ** Formulas made of numbers only *)

Lemma scanToken_number Cell_isValidCellLabel token fr :
  isNumber token = true ->
  scanToken Cell_isValidCellLabel token fr =
  (Normal tt,
   mkFrame (this fr) (JS.Number token :: operandsStack fr) (operatorsStack fr)).
Proof. intros H. unfold scanToken. rewrite H. reflexivity. Qed.

Lemma scanTokens_numbers Cell_isValidCellLabel formula :
  Forall (fun token => isNumber token = true) formula ->
  forall fr,
    scanTokens Cell_isValidCellLabel formula fr =
    (Normal tt,
     mkFrame (this fr)
       (rev (map JS.Number formula) ++ operandsStack fr)%list
       (operatorsStack fr)).
Proof.
  induction 1 as [| token rest Htoken _ IH]; intros fr; simpl.
  - destruct fr; reflexivity.
  - unfold bind. rewrite (scanToken_number _ token fr Htoken), IH. simpl.
    rewrite <- app_assoc. reflexivity.
Qed.

(** X3.  A formula of two or more numbers and nothing else is an
    "invalid formula" with result 0: nothing is salvaged, since more than
    one value is left on the operand stack. *)
Theorem numbers_only_formula :
  forall Cell_isValidCellLabel formula self,
    (2 <= List.length formula)%nat ->
    Forall (fun token => isNumber token = true) formula ->
    error (evaluate Cell_isValidCellLabel formula self) = "invalid formula" /\
    result (evaluate Cell_isValidCellLabel formula self) = JS.zero.
Proof.
  intros v formula self Hlen Hnumbers.
  rewrite (evaluate_multi v formula self Hlen).
  unfold tryBlock, bind.
  rewrite (scanTokens_numbers v formula Hnumbers). simpl.
  rewrite app_nil_r.
  set (operands := rev (map JS.Number formula)).
  assert (Hmany : (2 <= List.length operands)%nat).
  { subst operands. rewrite length_rev, length_map. exact Hlen. }
  destruct operands as [| x [| y rest]]; simpl in Hmany; try lia.
  unfold error, result. split; reflexivity.
Qed.

Lemma numbers_only_formula_witness :
  error (evaluate Sample.isLabel ["1"; "2"; "3"] Sample.evaluator)
    = "invalid formula" /\
  result (evaluate Sample.isLabel ["1"; "2"; "3"] Sample.evaluator) = JS.zero.
Proof.
  apply (numbers_only_formula Sample.isLabel ["1"; "2"; "3"] Sample.evaluator).
  - exact (le_S _ _ (le_n 2)).
  - repeat (apply Forall_cons; [reflexivity |]). apply Forall_nil.
Defined.

(** ** Formulas of numbers and arithmetic operators *)

Lemma isArithmetic_cases op :
  isArithmetic op = true -> op = "+" \/ op = "-" \/ op = "*" \/ op = "/".
Proof.
  unfold isArithmetic.
  destruct (String.eqb_spec op "+"); [auto |].
  destruct (String.eqb_spec op "-"); [auto |].
  destruct (String.eqb_spec op "*"); [auto |].
  destruct (String.eqb_spec op "/"); [auto | discriminate].
Qed.

(** X5.  For numbers [x], [y], [z] and arithmetic operators, [x op1 y op2 z]
    is grouped to the left when the precedence of [op1] is at least that of
    [op2], and to the right otherwise.  If no division meets a zero divisor
    the error is empty and the result is the value of that grouping;
    otherwise the error is "divide by zero". *)
Theorem precedence_groups_three_operands :
  forall Cell_isValidCellLabel x op1 y op2 z self,
    isNumber x = true ->
    isNumber y = true ->
    isNumber z = true ->
    isArithmetic op1 = true ->
    isArithmetic op2 = true ->
    Cell_isValidCellLabel op1 = false ->
    Cell_isValidCellLabel op2 = false ->
    let after := evaluate Cell_isValidCellLabel [x; op1; y; op2; z] self in
    let grouped :=
      if geq (precedence op1) (precedence op2) then
        andThen (operate op1 (JS.Number x) (JS.Number y))
                (fun left => operate op2 left (JS.Number z))
      else
        andThen (operate op2 (JS.Number y) (JS.Number z))
                (fun right => operate op1 (JS.Number x) right) in
    match grouped with
    | Some value => error after = "" /\ result after = orZero value
    | None => error after = "divide by zero"
    end.
Proof.
  intros v x op1 y op2 z self Hx Hy Hz Hop1 Hop2 Hv1 Hv2 after grouped.
  subst after grouped.
  unfold_formula. rewrite Hx, Hy, Hz, Hv1, Hv2.
  generalize (JS.Number x) (JS.Number y) (JS.Number z). intros X Y Z.
  destruct (isArithmetic_cases op1 Hop1) as [-> | [-> | [-> | ->]]];
    destruct (isArithmetic_cases op2 Hop2) as [-> | [-> | [-> | ->]]];
    run_formula; split_divisors; try split; reflexivity.
Qed.

Lemma precedence_groups_three_operands_witness :
  let low := evaluate Sample.isLabel ["2"; "+"; "3"; "*"; "4"] Sample.evaluator in
  let same := evaluate Sample.isLabel ["8"; "-"; "3"; "-"; "2"] Sample.evaluator in
  let zero := evaluate Sample.isLabel ["8"; "-"; "3"; "/"; "0"] Sample.evaluator in
  (error low = "" /\ result low = JS.Number "14") /\
  (error same = "" /\ result same = JS.Number "3") /\
  error zero = "divide by zero".
Proof.
  split; [| split].
  - exact (precedence_groups_three_operands Sample.isLabel
             "2" "+" "3" "*" "4" Sample.evaluator
             eq_refl eq_refl eq_refl eq_refl eq_refl eq_refl eq_refl).
  - exact (precedence_groups_three_operands Sample.isLabel
             "8" "-" "3" "-" "2" Sample.evaluator
             eq_refl eq_refl eq_refl eq_refl eq_refl eq_refl eq_refl).
  - exact (precedence_groups_three_operands Sample.isLabel
             "8" "-" "3" "/" "0" Sample.evaluator
             eq_refl eq_refl eq_refl eq_refl eq_refl eq_refl eq_refl).
Defined.

(** X13.  Parentheses decide the grouping whatever the precedences:
    [x op1 ( y op2 z )] applies [op2] first and [( x op1 y ) op2 z] applies
    [op1] first.  If no division meets a zero divisor the error is empty and
    the result is the value of the grouping; otherwise the error is
    "divide by zero". *)
Theorem parentheses_group_three_operands :
  forall Cell_isValidCellLabel x op1 y op2 z self,
    isNumber x = true ->
    isNumber y = true ->
    isNumber z = true ->
    isArithmetic op1 = true ->
    isArithmetic op2 = true ->
    Cell_isValidCellLabel op1 = false ->
    Cell_isValidCellLabel op2 = false ->
    Cell_isValidCellLabel "(" = false ->
    Cell_isValidCellLabel ")" = false ->
    let right :=
      evaluate Cell_isValidCellLabel [x; op1; "("; y; op2; z; ")"] self in
    let left :=
      evaluate Cell_isValidCellLabel ["("; x; op1; y; ")"; op2; z] self in
    match andThen (operate op2 (JS.Number y) (JS.Number z))
                  (fun inner => operate op1 (JS.Number x) inner) with
    | Some value => error right = "" /\ result right = orZero value
    | None => error right = "divide by zero"
    end /\
    match andThen (operate op1 (JS.Number x) (JS.Number y))
                  (fun inner => operate op2 inner (JS.Number z)) with
    | Some value => error left = "" /\ result left = orZero value
    | None => error left = "divide by zero"
    end.
Proof.
  intros v x op1 y op2 z self Hx Hy Hz Hop1 Hop2 Hv1 Hv2 Hopen Hclose
    right left.
  subst right left.
  unfold_formula. rewrite Hx, Hy, Hz, Hv1, Hv2, Hopen, Hclose.
  generalize (JS.Number x) (JS.Number y) (JS.Number z). intros X Y Z.
  destruct (isArithmetic_cases op1 Hop1) as [-> | [-> | [-> | ->]]];
    destruct (isArithmetic_cases op2 Hop2) as [-> | [-> | [-> | ->]]];
    run_formula; split_divisors; repeat split; reflexivity.
Qed.

Lemma parentheses_group_three_operands_witness :
  let right :=
    evaluate Sample.isLabel ["2"; "*"; "("; "3"; "+"; "4"; ")"]
      Sample.evaluator in
  let left :=
    evaluate Sample.isLabel ["("; "2"; "*"; "3"; ")"; "+"; "4"]
      Sample.evaluator in
  (error right = "" /\ result right = JS.Number "14") /\
  (error left = "" /\ result left = JS.Number "10").
Proof.
  exact (parentheses_group_three_operands Sample.isLabel
           "2" "*" "3" "+" "4" Sample.evaluator
           eq_refl eq_refl eq_refl eq_refl eq_refl eq_refl eq_refl
           eq_refl eq_refl).
Defined.

(** ** How each kind of token is scanned *)

Lemma scanToken_open Cell_isValidCellLabel fr :
  Cell_isValidCellLabel "(" = false ->
  scanToken Cell_isValidCellLabel "(" fr = pushOperator "(" fr.
Proof.
  intros Hv. unfold scanToken, isCellReference. rewrite Hv. reflexivity.
Qed.

Lemma scanToken_close Cell_isValidCellLabel fr :
  Cell_isValidCellLabel ")" = false ->
  scanToken Cell_isValidCellLabel ")" fr =
  (while topIsNotOpenParen compute ;; popOperator ;; ret tt) fr.
Proof.
  intros Hv. unfold scanToken, isCellReference. rewrite Hv. reflexivity.
Qed.

Lemma scanToken_operator Cell_isValidCellLabel token fr :
  isNumber token = false ->
  Cell_isValidCellLabel token = false ->
  token <> "(" ->
  token <> ")" ->
  scanToken Cell_isValidCellLabel token fr =
  (while (topPrecedes token) compute ;; pushOperator token) fr.
Proof.
  intros Hnum Hv Hopen Hclose.
  apply String.eqb_neq in Hopen. apply String.eqb_neq in Hclose.
  unfold scanToken, isCellReference.
  rewrite Hnum, Hv, Hopen, Hclose. reflexivity.
Qed.

Lemma compute_lacks self operands operators :
  (List.length operands < 2)%nat ->
  compute (mkFrame self operands operators) =
  (Throw ErrorMessages.invalidFormula, mkFrame self operands (tl operators)).
Proof.
  intros Hfew.
  destruct operands as [| b [| a rest]]; simpl in Hfew; try lia;
    destruct operators; reflexivity.
Qed.

(** X11.  An operator with a single number, before it or after it, is an
    "invalid formula" whose result is the number as written: the operator
    finds one operand, [compute] throws, and the catch block salvages the
    operand.  This holds of any token scanned as an operator, known to
    [compute] or not. *)
Theorem lone_operator_salvages_operand :
  forall Cell_isValidCellLabel x op self,
    isNumber x = true ->
    isNumber op = false ->
    Cell_isValidCellLabel op = false ->
    op <> "(" ->
    op <> ")" ->
    let trailing := evaluate Cell_isValidCellLabel [x; op] self in
    let leading := evaluate Cell_isValidCellLabel [op; x] self in
    (error trailing = "invalid formula" /\ result trailing = JS.Number x) /\
    (error leading = "invalid formula" /\ result leading = JS.Number x).
Proof.
  intros v x op self Hx Hop Hv Hopen Hclose trailing leading.
  subst trailing leading.
  assert (Hdrain : forall this0,
    drain (mkFrame this0 [JS.Number x] [op]) =
    (Throw ErrorMessages.invalidFormula, mkFrame this0 [JS.Number x] [])).
  { intros this0. rewrite drain_unfold. simpl hasOperators. cbv iota.
    rewrite drainStep_other by (simpl; congruence).
    rewrite compute_lacks by (simpl; lia). reflexivity. }
  assert (Hempty : forall token this0 operands,
    while (topPrecedes token) compute (mkFrame this0 operands []) =
    (Normal tt, mkFrame this0 operands [])) by reflexivity.
  assert (Htrailing :
    scanTokens v [x; op] (started self) =
    (Normal tt, mkFrame (this (started self)) [JS.Number x] [op])).
  { cbn [scanTokens]. unfold bind.
    rewrite (scanToken_number v x _ Hx).
    rewrite (scanToken_operator v op _ Hop Hv Hopen Hclose).
    unfold bind. simpl operatorsStack. simpl operandsStack.
    rewrite Hempty. reflexivity. }
  assert (Hleading :
    scanTokens v [op; x] (started self) =
    (Normal tt, mkFrame (this (started self)) [JS.Number x] [op])).
  { cbn [scanTokens]. unfold bind.
    rewrite (scanToken_operator v op _ Hop Hv Hopen Hclose).
    unfold bind. unfold started, enter. rewrite Hempty.
    unfold pushOperator. simpl.
    rewrite (scanToken_number v x _ Hx). reflexivity. }
  split; rewrite evaluate_multi by (simpl; lia); unfold tryBlock, bind.
  - rewrite Htrailing, Hdrain. unfold error, result.
    rewrite catchBlock_error, catchBlock_result. split; reflexivity.
  - rewrite Hleading, Hdrain. unfold error, result.
    rewrite catchBlock_error, catchBlock_result. split; reflexivity.
Qed.

Lemma lone_operator_salvages_operand_witness :
  let trailing := evaluate Sample.isLabel ["8"; "/"] Sample.evaluator in
  let leading := evaluate Sample.isLabel ["-"; "5"] Sample.evaluator in
  (error trailing = "invalid formula" /\ result trailing = JS.Number "8") /\
  (error leading = "invalid formula" /\ result leading = JS.Number "5").
Proof.
  pose proof (lone_operator_salvages_operand Sample.isLabel "8" "/"
                Sample.evaluator eq_refl eq_refl eq_refl) as Htrailing.
  pose proof (lone_operator_salvages_operand Sample.isLabel "5" "-"
                Sample.evaluator eq_refl eq_refl eq_refl) as Hleading.
  split.
  - apply Htrailing; discriminate.
  - apply Hleading; discriminate.
Defined.

(** ** The operator stack along a scan *)

Lemma computable_operators fr :
  computable fr = true ->
  exists op below,
    operatorsStack fr = op :: below /\ isArithmetic op = true /\
    operatorsStack (computed fr) = below.
Proof.
  destruct fr as [self [| b [| a rest]] [| op below]];
    unfold computable; simpl; intros H; try discriminate H.
  apply andb_prop in H. destruct H as [Harith _]. eauto.
Qed.

Lemma while_compute_normal cond :
  (forall fr, cond fr = true -> hasOperators fr = true) ->
  forall n fr fr',
    List.length (operatorsStack fr) = n ->
    while cond compute fr = (Normal tt, fr') ->
    exists popped,
      operatorsStack fr = (popped ++ operatorsStack fr')%list /\
      Forall (fun op => isArithmetic op = true) popped /\
      cond fr' = false.
Proof.
  intros Hcond. induction n as [| n IH]; intros fr fr' Hlen Hwhile;
    rewrite (while_unfold cond compute fr Hcond compute_pops) in Hwhile;
    destruct (cond fr) eqn:Hc;
    try (injection Hwhile as <-; exists []; auto).
  - destruct (compute fr) as [[[] | m | ] fr1] eqn:Hstep;
      try discriminate Hwhile.
    destruct (compute_normal fr fr1 Hstep) as [Hable _].
    destruct (computable_operators fr Hable) as (op & below & Hops & _).
    rewrite Hops in Hlen. discriminate Hlen.
  - destruct (compute fr) as [[[] | m | ] fr1] eqn:Hstep;
      try discriminate Hwhile.
    destruct (compute_normal fr fr1 Hstep) as [Hable ->].
    destruct (computable_operators fr Hable)
      as (op & below & Hops & Harith & Hbelow).
    assert (Hlen1 : List.length (operatorsStack (computed fr)) = n).
    { rewrite Hbelow. rewrite Hops in Hlen. simpl in Hlen. lia. }
    destruct (IH (computed fr) fr' Hlen1 Hwhile)
      as (popped & Hpopped & Hall & Hstop).
    exists (op :: popped). rewrite Hops, <- Hbelow, Hpopped.
    repeat split; auto.
Qed.

Lemma drain_normal fr fr' :
  drain fr = (Normal tt, fr') ->
  Forall (fun op => isArithmetic op = true) (operatorsStack fr) /\
  operatorsStack fr' = [].
Proof.
  remember (List.length (operatorsStack fr)) as n eqn:Hlen.
  revert fr Hlen. induction n as [| n IH]; intros fr Hlen Hdrain;
    rewrite drain_unfold in Hdrain;
    destruct (operatorsStack fr) as [| top below] eqn:Hops;
    unfold hasOperators in Hdrain; rewrite Hops in Hdrain;
    try discriminate Hlen.
  - injection Hdrain as <-. auto.
  - destruct (drainStep fr) as [[[] | m | ] fr1] eqn:Hstep;
      try discriminate Hdrain.
    destruct (drainStep_normal fr fr1 Hstep) as [Hable ->].
    destruct (computable_operators fr Hable)
      as (op & below' & Hops' & Harith & Hbelow).
    rewrite Hops in Hops'. injection Hops' as <- <-.
    assert (Hlen1 : n = List.length (operatorsStack (computed fr))).
    { rewrite Hbelow. simpl in Hlen. lia. }
    destruct (IH (computed fr) Hlen1 Hdrain) as [Hall Hempty].
    rewrite Hbelow in Hall. auto.
Qed.

Lemma scanToken_normal Cell_isValidCellLabel token fr fr' :
  scanToken Cell_isValidCellLabel token fr = (Normal tt, fr') ->
  scansTo Cell_isValidCellLabel token (operatorsStack fr) (operatorsStack fr').
Proof.
  unfold scanToken, isCellReference.
  destruct (isNumber token) eqn:Hnum.
  { intros H. injection H as <-. apply scans_operand. auto. }
  destruct (Cell_isValidCellLabel token) eqn:Hv.
  { unfold bind, getThis.
    destruct (getCellValue (this fr) token) as [value [| c rest]]; simpl;
      intros H; [| discriminate H].
    injection H as <-. apply scans_operand. auto. }
  destruct (String.eqb_spec token "(") as [Hopen | Hopen].
  { intros H. injection H as <-. simpl. rewrite Hopen at 2.
    apply scans_open. exact Hopen. }
  destruct (String.eqb_spec token ")") as [Hclose | Hclose].
  - unfold bind.
    destruct (while topIsNotOpenParen compute fr) as [[[] | m | ] fr1]
      eqn:Hwhile; intros H; try discriminate H.
    assert (Hcond : forall fr0,
               topIsNotOpenParen fr0 = true -> hasOperators fr0 = true).
    { intros fr0. unfold topIsNotOpenParen, hasOperators.
      destruct (operatorsStack fr0); auto. }
    destruct (while_compute_normal _ Hcond _ fr fr1 eq_refl Hwhile)
      as (popped & Hpopped & Hall & Hstop).
    assert (Hfr' : operatorsStack fr' = tl (operatorsStack fr1)).
    { unfold popOperator, ret in H.
      destruct (operatorsStack fr1) eqn:E; injection H as <-; simpl;
        rewrite ?E; reflexivity. }
    rewrite Hpopped, Hfr'. apply scans_close; [exact Hclose | exact Hall |].
    unfold topIsNotOpenParen in Hstop.
    destruct (operatorsStack fr1) as [| top below]; [auto |].
    destruct (String.eqb_spec top "(") as [-> | _];
      [auto | discriminate Hstop].
  - unfold bind.
    destruct (while (topPrecedes token) compute fr) as [[[] | m | ] fr1]
      eqn:Hwhile; intros H; try discriminate H.
    assert (Hcond : forall fr0,
               topPrecedes token fr0 = true -> hasOperators fr0 = true).
    { intros fr0. unfold topPrecedes, hasOperators.
      destruct (operatorsStack fr0); auto. }
    destruct (while_compute_normal _ Hcond _ fr fr1 eq_refl Hwhile)
      as (popped & Hpopped & Hall & _).
    injection H as <-. simpl. rewrite Hpopped.
    apply scans_operator; assumption.
Qed.

Lemma arithmetic_is_no_paren op : isArithmetic op = true -> op <> "(".
Proof. intros H ->. discriminate H. Qed.

Lemma stray_below popped rest :
  Forall (fun op => isArithmetic op = true) popped ->
  holdsStray (popped ++ rest)%list -> holdsStray rest.
Proof.
  intros Hall (op & Hin & Hno & Hparen).
  exists op. repeat split; auto.
  apply in_app_or in Hin. destruct Hin as [Hin | Hin]; [| exact Hin].
  rewrite Forall_forall in Hall. rewrite (Hall op Hin) in Hno.
  discriminate Hno.
Qed.

Lemma scansTo_keeps_stray Cell_isValidCellLabel token operators operators' :
  scansTo Cell_isValidCellLabel token operators operators' ->
  holdsStray operators -> holdsStray operators'.
Proof.
  intros Hscan Hstray.
  destruct Hscan as [ops _ | ops _ | popped rest _ Hall Htop
                     | popped rest _ _ _ _ Hall].
  - exact Hstray.
  - destruct Hstray as (op & Hin & Hno & Hparen).
    exists op. repeat split; auto. right. exact Hin.
  - destruct (stray_below popped rest Hall Hstray)
      as (op & Hin & Hno & Hparen).
    exists op. repeat split; auto.
    destruct rest as [| top below]; [contradiction Hin |].
    destruct Htop as [Htop | Htop]; [discriminate Htop |].
    injection Htop as ->.
    destruct Hin as [<- | Hin]; [contradiction Hparen; reflexivity |].
    exact Hin.
  - destruct (stray_below popped rest Hall Hstray)
      as (op & Hin & Hno & Hparen).
    exists op. repeat split; auto. right. exact Hin.
Qed.

Lemma isUnknownOperator_spec Cell_isValidCellLabel token :
  isUnknownOperator Cell_isValidCellLabel token = true ->
  isNumber token = false /\ Cell_isValidCellLabel token = false /\
  token <> "(" /\ token <> ")" /\ isArithmetic token = false.
Proof.
  unfold isUnknownOperator. intros H.
  repeat (apply andb_prop in H; destruct H as [H ?]).
  repeat match goal with
         | H : negb _ = true |- _ => apply negb_true_iff in H
         end.
  repeat split; try assumption; apply String.eqb_neq; assumption.
Qed.

Lemma scansTo_unknown Cell_isValidCellLabel token operators operators' :
  isUnknownOperator Cell_isValidCellLabel token = true ->
  scansTo Cell_isValidCellLabel token operators operators' ->
  holdsStray operators'.
Proof.
  intros Hunknown Hscan.
  destruct (isUnknownOperator_spec _ _ Hunknown)
    as (Hnum & Hv & Hopen & Hclose & Hno).
  destruct Hscan as [ops [H | H] | ops H | popped rest H _ _
                     | popped rest _ _ _ _ _]; try congruence.
  exists token. repeat split; auto. left. reflexivity.
Qed.

Lemma scanTokens_keeps_stray Cell_isValidCellLabel formula :
  forall fr fr',
    scanTokens Cell_isValidCellLabel formula fr = (Normal tt, fr') ->
    holdsStray (operatorsStack fr) -> holdsStray (operatorsStack fr').
Proof.
  induction formula as [| token rest IH]; intros fr fr' Hscan Hstray.
  - injection Hscan as <-. exact Hstray.
  - simpl in Hscan. unfold bind in Hscan.
    destruct (scanToken Cell_isValidCellLabel token fr)
      as [[[] | m | ] fr1] eqn:Htoken; try discriminate Hscan.
    apply (IH fr1 fr' Hscan).
    apply (scansTo_keeps_stray Cell_isValidCellLabel token
             (operatorsStack fr));
      [apply scanToken_normal, Htoken | exact Hstray].
Qed.

Lemma drained_has_no_stray fr fr' :
  drain fr = (Normal tt, fr') -> ~ holdsStray (operatorsStack fr).
Proof.
  intros Hdrain (op & Hin & Hno & _).
  destruct (drain_normal fr fr' Hdrain) as [Hall _].
  rewrite Forall_forall in Hall. rewrite (Hall op Hin) in Hno.
  discriminate Hno.
Qed.

(** X6.  A formula that holds a token which is not a number, not a cell
    label, not a parenthesis and not one of [+ - * /] never evaluates with
    an empty error: once pushed, such a token leaves the operator stack only
    through [compute], which throws on it. *)
Theorem unknown_operator_is_rejected :
  forall Cell_isValidCellLabel formula token self,
    In token formula ->
    isUnknownOperator Cell_isValidCellLabel token = true ->
    error (evaluate Cell_isValidCellLabel formula self) <> "".
Proof.
  intros v formula token self Hin Hunknown.
  destruct (isUnknownOperator_spec _ _ Hunknown)
    as (Hnum & Hv & Hopen & Hclose & Hno).
  destruct formula as [| t1 [| t2 rest]].
  - contradiction Hin.
  - destruct Hin as [<- | []]. unfold evaluate, isCellReference.
    rewrite Hnum, Hv. discriminate.
  - set (formula := t1 :: t2 :: rest) in *.
    assert (Hlen : (2 <= List.length formula)%nat) by (simpl; lia).
    pose proof (error_by_completion v formula self Hlen) as Hby.
    destruct (tryBlock v formula (started self)) as [[[] | m | ] fr]
      eqn:Htry; try exact Hby.
    exfalso.
    destruct (tryBlock_normal v formula _ fr Htry)
      as (scanned & drained & Hscan & Hdrain & _).
    apply (drained_has_no_stray scanned drained Hdrain).
    destruct (in_split token formula Hin) as (front & back & Hsplit).
    rewrite Hsplit, scanTokens_app in Hscan. unfold bind in Hscan.
    destruct (scanTokens v front (started self)) as [[[] | m | ] fr1];
      try discriminate Hscan.
    simpl in Hscan. unfold bind in Hscan.
    destruct (scanToken v token fr1) as [[[] | m | ] fr2] eqn:Htoken;
      try discriminate Hscan.
    apply (scanTokens_keeps_stray v back fr2 scanned Hscan).
    apply (scansTo_unknown v token (operatorsStack fr1));
      [exact Hunknown | apply scanToken_normal, Htoken].
Qed.

Lemma unknown_operator_is_rejected_witness :
  error (evaluate Sample.isLabel ["("; "2"; "%"; "3"; ")"; "*"; "4"]
           Sample.evaluator) <> "" /\
  error (evaluate Sample.isLabel ["2"; "^"; "3"] Sample.evaluator)
    = "invalid operator".
Proof.
  split; [| reflexivity].
  apply (unknown_operator_is_rejected Sample.isLabel
           ["("; "2"; "%"; "3"; ")"; "*"; "4"] "%" Sample.evaluator).
  - right. right. left. reflexivity.
  - reflexivity.
Defined.

(** ** Parentheses left open *)

Lemma opens_cons (token : string) (tokens : list string) :
  opens (token :: tokens) = (opens [token] + opens tokens)%nat.
Proof.
  unfold opens. simpl. destruct (string_dec token "("); reflexivity.
Qed.

Lemma closes_cons (token : string) (tokens : list string) :
  closes (token :: tokens) = (closes [token] + closes tokens)%nat.
Proof.
  unfold closes. simpl. destruct (string_dec token ")"); reflexivity.
Qed.

Lemma opens_other (token : string) :
  token <> "(" -> opens [token] = 0%nat.
Proof.
  intros H. unfold opens. simpl.
  destruct (string_dec token "("); [contradiction | reflexivity].
Qed.

Lemma opens_arithmetic popped :
  Forall (fun op => isArithmetic op = true) popped -> opens popped = 0%nat.
Proof.
  induction 1 as [| op rest Hop _ IH]; [reflexivity |].
  rewrite opens_cons, IH, (opens_other op (arithmetic_is_no_paren op Hop)).
  reflexivity.
Qed.

Lemma opens_app front back :
  opens (front ++ back)%list = (opens front + opens back)%nat.
Proof. apply count_occ_app. Qed.

Lemma opens_tl rest : (opens rest <= opens (tl rest) + 1)%nat.
Proof.
  destruct rest as [| top below]; [unfold opens; simpl; lia |].
  rewrite opens_cons. simpl tl.
  unfold opens at 1. simpl. destruct (string_dec top "("); lia.
Qed.

Lemma scansTo_balance Cell_isValidCellLabel token operators operators' :
  Cell_isValidCellLabel "(" = false ->
  scansTo Cell_isValidCellLabel token operators operators' ->
  (opens [token] + opens operators <= opens operators' + closes [token])%nat.
Proof.
  intros Hv Hscan.
  destruct Hscan as [ops Hoperand | ops -> | popped rest -> Hall _
                     | popped rest _ _ Hopen _ Hall];
    unfold TokenType in *.
  - assert (Hne : token <> "(").
    { intros ->. destruct Hoperand as [H | H];
        [discriminate H | congruence]. }
    rewrite (opens_other token Hne). lia.
  - rewrite (opens_cons "(" ops). simpl. lia.
  - rewrite opens_app, (opens_arithmetic popped Hall).
    pose proof (opens_tl rest).
    replace (closes [")"]) with 1%nat by reflexivity. simpl. lia.
  - rewrite opens_app, (opens_arithmetic popped Hall),
      (opens_cons token rest). lia.
Qed.

Lemma scanTokens_balance Cell_isValidCellLabel formula :
  Cell_isValidCellLabel "(" = false ->
  forall fr fr',
    scanTokens Cell_isValidCellLabel formula fr = (Normal tt, fr') ->
    (opens formula + opens (operatorsStack fr)
     <= opens (operatorsStack fr') + closes formula)%nat.
Proof.
  intros Hv. induction formula as [| token rest IH]; intros fr fr' Hscan.
  - injection Hscan as <-. simpl. lia.
  - simpl in Hscan. unfold bind in Hscan.
    destruct (scanToken Cell_isValidCellLabel token fr)
      as [[[] | m | ] fr1] eqn:Htoken; try discriminate Hscan.
    pose proof (scansTo_balance _ token _ _ Hv
                  (scanToken_normal _ token fr fr1 Htoken)) as Hstep.
    pose proof (IH fr1 fr' Hscan) as Hrest.
    unfold FormulaType, TokenType in *.
    rewrite (opens_cons token rest), (closes_cons token rest). lia.
Qed.

(** X7.  A formula with more open parentheses than close parentheses never
    evaluates with an empty error (given that an open parenthesis is not a
    cell label): an open parenthesis leaves the operator stack only when a
    close parenthesis pops it, or through [compute], which throws on it. *)
Theorem unclosed_parenthesis_is_rejected :
  forall Cell_isValidCellLabel formula self,
    Cell_isValidCellLabel "(" = false ->
    (closes formula < opens formula)%nat ->
    error (evaluate Cell_isValidCellLabel formula self) <> "".
Proof.
  intros v formula self Hv Hmore.
  destruct formula as [| t1 [| t2 rest]].
  - unfold opens, closes in Hmore. simpl in Hmore. lia.
  - assert (Ht1 : t1 = "(").
    { unfold opens, closes in Hmore. simpl in Hmore.
      destruct (string_dec t1 "("); [assumption |].
      destruct (string_dec t1 ")"); lia. }
    subst t1. unfold evaluate, isCellReference. rewrite Hv. discriminate.
  - set (formula := t1 :: t2 :: rest) in *.
    assert (Hlen : (2 <= List.length formula)%nat) by (simpl; lia).
    pose proof (error_by_completion v formula self Hlen) as Hby.
    destruct (tryBlock v formula (started self)) as [[[] | m | ] fr]
      eqn:Htry; try exact Hby.
    exfalso.
    destruct (tryBlock_normal v formula _ fr Htry)
      as (scanned & drained & Hscan & Hdrain & _).
    pose proof (scanTokens_balance v formula Hv _ _ Hscan) as Hbalance.
    destruct (drain_normal scanned drained Hdrain) as [Hall _].
    rewrite (opens_arithmetic _ Hall) in Hbalance.
    simpl operatorsStack in Hbalance. lia.
Qed.

Lemma unclosed_parenthesis_is_rejected_witness :
  error (evaluate Sample.isLabel ["("; "("; "1"; "+"; "2"; ")"; "*"; "3"]
           Sample.evaluator) = "missing parentheses" /\
  error (evaluate Sample.isLabel ["("; "("; "1"; "+"; "2"; ")"; "*"; "3"]
           Sample.evaluator) <> "".
Proof.
  split; [reflexivity |].
  apply (unclosed_parenthesis_is_rejected Sample.isLabel
           ["("; "("; "1"; "+"; "2"; ")"; "*"; "3"] Sample.evaluator).
  - reflexivity.
  - exact (le_n 2).
Defined.

(** ** Cell resolution, case by case *)

(** X8.  [getCellValue] answers in one of two ways.  Either the error is
    empty and the value is the cell's: exactly when the label is valid, the
    cell has a formula, and its error is empty or "empty formula".  Or the
    error is not empty and the value is 0. *)
Theorem getCellValue_value_or_error :
  forall self token,
    let cell := getCellByLabel (_sheetMemory self) token in
    let usable :=
      isValidCellLabel (_sheetMemory self) token = true /\
      getFormula cell <> [] /\
      (getError cell = "" \/ getError cell = ErrorMessages.emptyFormula) in
    (usable /\ getCellValue self token = (getValue cell, "")) \/
    (~ usable /\
     fst (getCellValue self token) = JS.zero /\
     snd (getCellValue self token) <> "").
Proof.
  intros self token cell usable. subst cell usable. unfold getCellValue.
  destruct (isValidCellLabel (_sheetMemory self) token) eqn:Hvalid; simpl.
  2: { right. repeat split; try discriminate.
       intros (H & _). discriminate H. }
  destruct (String.eqb_spec
              (getError (getCellByLabel (_sheetMemory self) token)) "")
    as [Hempty | Herror]; simpl.
  - destruct (getFormula (getCellByLabel (_sheetMemory self) token))
      as [| t rest] eqn:Hformula; simpl.
    + right. repeat split; try discriminate.
      intros (_ & H & _). contradiction H. reflexivity.
    + left. repeat split; try discriminate. left. exact Hempty.
  - destruct (String.eqb_spec
                (getError (getCellByLabel (_sheetMemory self) token))
                ErrorMessages.emptyFormula) as [Hsentinel | Hgenuine]; simpl.
    + destruct (getFormula (getCellByLabel (_sheetMemory self) token))
        as [| t rest] eqn:Hformula; simpl.
      * right. repeat split; try discriminate.
        intros (_ & H & _). contradiction H. reflexivity.
      * left. repeat split; try discriminate. right. exact Hsentinel.
    + right. repeat split; try assumption.
      intros (_ & _ & [H | H]); contradiction.
Qed.

(** ** What [evaluate] leaves alone *)

(** X9.  [evaluate] assigns [_result] and [_errorMessage] only: the sheet
    memory it reads and the fields [_errorOccured], [_currentFormula] and
    [_lastResult] are after the call what they were before it. *)
Theorem evaluate_assigns_result_and_error_only :
  forall Cell_isValidCellLabel formula self,
    let after := evaluate Cell_isValidCellLabel formula self in
    _sheetMemory after = _sheetMemory self /\
    _errorOccured after = _errorOccured self /\
    _currentFormula after = _currentFormula self /\
    _lastResult after = _lastResult self.
Proof.
  intros v formula self after. subst after.
  destruct (evaluate_keepsContext v formula self) as (H1 & H2 & H3 & H4).
  repeat split; symmetry; assumption.
Qed.

(** ** The error message is always a classified one *)

Section Classification.

Variable Cell_isValidCellLabel : TokenType -> bool.
Variable self : FormulaEvaluator.
Variable formula : FormulaType.

Lemma staysClassified_refl fr :
  staysClassified self formula fr (Normal tt) fr.
Proof. intros H. exact H. Qed.

Lemma staysClassified_trans fr fr1 c fr2 :
  staysClassified self formula fr (Normal tt) fr1 ->
  staysClassified self formula fr1 c fr2 ->
  staysClassified self formula fr c fr2.
Proof. unfold staysClassified. auto. Qed.

Lemma own_message_staysClassified message :
  In message ownMessages ->
  obeys (staysClassified self formula) (assignErrorMessage message).
Proof.
  intros Hown fr [Hmem _]. split; [exact Hmem | left; exact Hown].
Qed.

Lemma same_this_staysClassified {A} (m : Eval A) :
  (forall fr, this (snd (m fr)) = this fr) ->
  obeys (staysClassified self formula) m.
Proof.
  intros Hsame fr [Hmem Hclass]. unfold inClass. rewrite Hsame. auto.
Qed.

Lemma compute_staysClassified : obeys (staysClassified self formula) compute.
Proof.
  intros fr [Hmem Hclass]. unfold inClass.
  destruct (compute_effect fr); simpl; split; auto;
    left; simpl; auto 10.
Qed.

Lemma while_compute_staysClassified cond :
  obeys (staysClassified self formula) (while cond compute).
Proof.
  apply obeys_while;
    [apply staysClassified_refl | apply staysClassified_trans
     | apply compute_staysClassified].
Qed.

Lemma scanToken_staysClassified token :
  In token formula ->
  obeys (staysClassified self formula) (scanToken Cell_isValidCellLabel token).
Proof.
  intros Hin. unfold scanToken.
  destruct (isNumber token);
    [apply same_this_staysClassified; reflexivity |].
  destruct (isCellReference Cell_isValidCellLabel token).
  - intros fr [Hmem Hclass]. unfold bind, getThis.
    rewrite (getCellValue_memory (this fr) self token Hmem).
    destruct (getCellValue self token) as [value message] eqn:Hcell.
    destruct message as [| c rest]; simpl; split; auto.
    right. exists token. rewrite Hcell. auto.
  - destruct (token =? "(");
      [apply same_this_staysClassified; reflexivity |].
    destruct (token =? ")").
    + apply obeys_bind;
        [apply staysClassified_trans | apply while_compute_staysClassified |].
      intros _. apply same_this_staysClassified. intros fr.
      unfold bind, popOperator. destruct (operatorsStack fr); reflexivity.
    + apply obeys_bind;
        [apply staysClassified_trans | apply while_compute_staysClassified |].
      intros _. apply same_this_staysClassified. reflexivity.
Qed.

Lemma scanTokens_staysClassified tokens :
  incl tokens formula ->
  obeys (staysClassified self formula)
        (scanTokens Cell_isValidCellLabel tokens).
Proof.
  induction tokens as [| token rest IH]; intros Hincl; simpl.
  - apply same_this_staysClassified. reflexivity.
  - apply obeys_bind; [apply staysClassified_trans | |].
    + apply scanToken_staysClassified, Hincl. left. reflexivity.
    + intros _. apply IH. intros t Ht. apply Hincl. right. exact Ht.
Qed.

Lemma drainStep_staysClassified :
  obeys (staysClassified self formula) drainStep.
Proof.
  intros fr. unfold drainStep.
  apply obeys_bind;
    [apply staysClassified_trans | | intros _; apply compute_staysClassified].
  destruct (operatorsStack fr) as [| top below];
    [apply same_this_staysClassified; reflexivity |].
  destruct (top =? "(").
  - apply own_message_staysClassified. simpl. auto 10.
  - apply same_this_staysClassified. reflexivity.
Qed.

Lemma finalCheck_staysClassified :
  obeys (staysClassified self formula) finalCheck.
Proof.
  intros [this0 [| x [| y rest]] operators] [Hmem Hclass];
    unfold finalCheck, inClass; run_eval; split; auto;
    left; simpl; auto 10.
Qed.

Lemma tryBlock_staysClassified :
  obeys (staysClassified self formula)
        (tryBlock Cell_isValidCellLabel formula).
Proof.
  unfold tryBlock.
  apply obeys_bind; [apply staysClassified_trans | |].
  - apply scanTokens_staysClassified, incl_refl.
  - intros _. apply obeys_bind; [apply staysClassified_trans | |].
    + apply obeys_while;
        [apply staysClassified_refl | apply staysClassified_trans
         | apply drainStep_staysClassified].
    + intros _. apply finalCheck_staysClassified.
Qed.

End Classification.

(** X10.  After [evaluate] the error accessor is empty, or one of the five
    messages of the evaluator ("empty formula", "invalid formula",
    "invalid operator", "missing parentheses", "divide by zero"), or what
    [getCellValue] answers for a token of the formula. *)
Theorem error_is_classified :
  forall Cell_isValidCellLabel formula self,
    classified self formula (error (evaluate Cell_isValidCellLabel formula self)).
Proof.
  intros v formula self.
  destruct formula as [| t1 [| t2 rest]].
  - left. simpl. auto.
  - unfold evaluate, error.
    destruct (isNumber t1); [left; simpl; auto |].
    destruct (isCellReference v t1); [| left; simpl; auto].
    rewrite (getCellValue_memory
               (set_errorMessage "" (set_result JS.zero self)) self t1
               eq_refl).
    destruct (getCellValue self t1) as [value message] eqn:Hcell.
    destruct message as [| c m]; simpl; [left; simpl; auto |].
    right. exists t1. rewrite Hcell. simpl. auto.
  - set (formula := t1 :: t2 :: rest).
    rewrite evaluate_multi by (simpl; lia).
    pose proof (tryBlock_staysClassified v self formula (started self))
      as Htry.
    assert (Hstart : inClass self formula (started self)).
    { split; [reflexivity | left; simpl; auto]. }
    specialize (Htry Hstart).
    destruct (tryBlock v formula (started self)) as [[[] | m | ] fr];
      simpl in Htry; unfold error; try apply Htry.
    rewrite catchBlock_error. destruct Htry as [_ Hclass].
    destruct (_errorMessage (this fr)); simpl;
      [left; simpl; auto | exact Hclass].
Qed.

(** ** Chains of additions and subtractions *)

Lemma tryBlock_cons Cell_isValidCellLabel token rest fr :
  tryBlock Cell_isValidCellLabel (token :: rest) fr =
  match scanToken Cell_isValidCellLabel token fr with
  | (Normal _, fr1) => tryBlock Cell_isValidCellLabel rest fr1
  | (Throw message, fr1) => (Throw message, fr1)
  | (Return, fr1) => (Return, fr1)
  end.
Proof.
  unfold tryBlock. simpl. unfold bind.
  destruct (scanToken Cell_isValidCellLabel token fr) as [[[] | m | ] fr1];
    reflexivity.
Qed.

Lemma isAdditive_cases op : isAdditive op = true -> op = "+" \/ op = "-".
Proof.
  unfold isAdditive.
  destruct (String.eqb_spec op "+"); [auto |].
  destruct (String.eqb_spec op "-"); [auto | discriminate].
Qed.

(** An additive operator met with an additive operator on top: the one on
    top is applied, and the new one takes its place. *)
Lemma scanToken_additive Cell_isValidCellLabel op op0 self b a :
  Cell_isValidCellLabel "+" = false ->
  Cell_isValidCellLabel "-" = false ->
  isAdditive op0 = true ->
  isAdditive op = true ->
  scanToken Cell_isValidCellLabel op (mkFrame self [b; a] [op0]) =
  (Normal tt,
   mkFrame self [applyOperator op0 (orZero a) (orZero b)] [op]).
Proof.
  intros Hplus Hminus Hop0 Hop. unfold scanToken, isCellReference.
  destruct (isAdditive_cases op0 Hop0) as [-> | ->];
    destruct (isAdditive_cases op Hop) as [-> | ->];
    rewrite ?Hplus, ?Hminus; reflexivity.
Qed.

Lemma tryBlock_additive_tail Cell_isValidCellLabel :
  Cell_isValidCellLabel "+" = false ->
  Cell_isValidCellLabel "-" = false ->
  forall pairs self a x op0,
    isAdditive op0 = true ->
    Forall (fun pair => isAdditive (fst pair) = true /\
                        isNumber (snd pair) = true) pairs ->
    tryBlock Cell_isValidCellLabel
      (flat_map (fun pair => [fst pair; snd pair]) pairs)
      (mkFrame self [JS.Number x; a] [op0]) =
    (Normal tt,
     mkFrame
       (set_result
          (orZero (fold_left chainStep pairs (chainStep a (op0, x))))
          self)
       [] []).
Proof.
  intros Hplus Hminus.
  induction pairs as [| [op x'] pairs IH]; intros self a x op0 Hop0 Hall.
  - destruct (isAdditive_cases op0 Hop0) as [-> | ->]; reflexivity.
  - inversion Hall as [| pair rest [Hop Hx'] Hrest]; subst. simpl in Hop, Hx'.
    simpl flat_map.
    rewrite tryBlock_cons,
      (scanToken_additive _ op op0 self _ a Hplus Hminus Hop0 Hop).
    rewrite tryBlock_cons, (scanToken_number _ x' _ Hx'). simpl.
    rewrite (IH self _ x' op Hop Hrest). reflexivity.
Qed.

(** X15.  A chain [x0 op1 x1 op2 x2 ...] of numbers joined by [+] and [-]
    evaluates with an empty error to the value obtained by applying the
    operators one after the other from left to right. *)
Theorem additive_chain_left_to_right :
  forall Cell_isValidCellLabel x0 pairs self,
    Cell_isValidCellLabel "+" = false ->
    Cell_isValidCellLabel "-" = false ->
    isNumber x0 = true ->
    pairs <> [] ->
    Forall (fun pair => isAdditive (fst pair) = true /\
                        isNumber (snd pair) = true) pairs ->
    let after :=
      evaluate Cell_isValidCellLabel (chainFormula x0 pairs) self in
    error after = "" /\ result after = orZero (chainValue x0 pairs).
Proof.
  intros v x0 pairs self Hplus Hminus Hx0 Hsome Hall after. subst after.
  destruct pairs as [| [op1 x1] pairs]; [contradiction Hsome; reflexivity |].
  inversion Hall as [| pair rest [Hop1 Hx1] Hrest]; subst.
  simpl in Hop1, Hx1.
  rewrite evaluate_multi by (simpl; lia).
  unfold chainFormula, chainValue. simpl flat_map.
  rewrite tryBlock_cons, (scanToken_number _ x0 _ Hx0).
  assert (Hpush :
    scanToken v op1
      (mkFrame (this (started self))
         (JS.Number x0 :: operandsStack (started self))
         (operatorsStack (started self))) =
    (Normal tt, mkFrame (this (started self)) [JS.Number x0] [op1])).
  { unfold scanToken, isCellReference.
    destruct (isAdditive_cases op1 Hop1) as [-> | ->];
      rewrite ?Hplus, ?Hminus; reflexivity. }
  rewrite tryBlock_cons, Hpush.
  rewrite tryBlock_cons, (scanToken_number _ x1 _ Hx1). simpl.
  rewrite (tryBlock_additive_tail v Hplus Hminus pairs _ _ x1 op1 Hop1 Hrest).
  split; reflexivity.
Qed.

Lemma additive_chain_left_to_right_witness :
  let after :=
    evaluate Sample.isLabel ["10"; "-"; "4"; "-"; "3"; "+"; "1"]
      Sample.evaluator in
  error after = "" /\ result after = JS.Number "4".
Proof.
  apply (additive_chain_left_to_right Sample.isLabel "10"
           [("-", "4"); ("-", "3"); ("+", "1")] Sample.evaluator);
    try reflexivity.
  - discriminate.
  - repeat (apply Forall_cons; [split; reflexivity |]). apply Forall_nil.
Defined.

(** ** A close parenthesis with nothing to close *)

Lemma scansTo_opens_bound Cell_isValidCellLabel token operators operators' :
  scansTo Cell_isValidCellLabel token operators operators' ->
  (opens operators' <= opens operators + opens [token])%nat.
Proof.
  intros Hscan.
  destruct Hscan as [ops _ | ops -> | popped rest -> Hall _
                     | popped rest _ _ Hopen _ Hall];
    unfold TokenType in *.
  - lia.
  - rewrite (opens_cons "(" ops). lia.
  - rewrite opens_app. destruct rest as [| top below]; simpl tl.
    + lia.
    + rewrite (opens_cons top below). lia.
  - rewrite opens_app, (opens_cons token rest). lia.
Qed.

Lemma scanTokens_opens_bound Cell_isValidCellLabel formula :
  forall fr fr',
    scanTokens Cell_isValidCellLabel formula fr = (Normal tt, fr') ->
    (opens (operatorsStack fr')
     <= opens (operatorsStack fr) + opens formula)%nat.
Proof.
  induction formula as [| token rest IH]; intros fr fr' Hscan.
  - injection Hscan as <-. lia.
  - simpl in Hscan. unfold bind in Hscan.
    destruct (scanToken Cell_isValidCellLabel token fr)
      as [[[] | m | ] fr1] eqn:Htoken; try discriminate Hscan.
    pose proof (scansTo_opens_bound _ token _ _
                  (scanToken_normal _ token fr fr1 Htoken)) as Hstep.
    pose proof (IH fr1 fr' Hscan) as Hrest.
    unfold FormulaType, TokenType in *.
    rewrite (opens_cons token rest). lia.
Qed.

(** With no open parenthesis on the operator stack, the loop of a close
    parenthesis does what the drain does. *)
Lemma closeParen_as_drain :
  forall n fr,
    List.length (operatorsStack fr) = n ->
    opens (operatorsStack fr) = 0%nat ->
    while topIsNotOpenParen compute fr = drain fr.
Proof.
  induction n as [| n IH]; intros fr Hlen Hopens;
    rewrite closeParen_unfold, drain_unfold;
    unfold topIsNotOpenParen, hasOperators;
    destruct (operatorsStack fr) as [| top below] eqn:Hops;
    try discriminate Hlen; try reflexivity.
  assert (Htop : top <> "(").
  { intros ->. rewrite (opens_cons "(" below) in Hopens.
    discriminate Hopens. }
  destruct (String.eqb_spec top "(") as [| _]; [contradiction |]. simpl.
  rewrite drainStep_other by (rewrite Hops; simpl; congruence).
  pose proof (compute_pops fr) as Hpop. rewrite Hops in Hpop. simpl in Hpop.
  destruct (compute fr) as [[[] | m | ] fr1]; try reflexivity.
  simpl in Hpop. apply IH.
  - rewrite Hpop. simpl in Hlen. lia.
  - rewrite Hpop. rewrite (opens_cons top below) in Hopens. lia.
Qed.

(** X14.  A close parenthesis at the end of a formula of two tokens or more
    that holds no open parenthesis is ignored: the evaluator is left exactly
    as it is by the formula without it. *)
Theorem trailing_close_paren_is_ignored :
  forall Cell_isValidCellLabel formula self,
    Cell_isValidCellLabel ")" = false ->
    (2 <= List.length formula)%nat ->
    opens formula = 0%nat ->
    evaluate Cell_isValidCellLabel (formula ++ [")"])%list self =
    evaluate Cell_isValidCellLabel formula self.
Proof.
  intros v formula self Hv Hlen Hopens.
  rewrite (evaluate_multi v formula self Hlen).
  rewrite evaluate_multi by (rewrite length_app; simpl; lia).
  assert (Htry :
    tryBlock v (formula ++ [")"])%list (started self) =
    tryBlock v formula (started self)).
  { unfold tryBlock, bind. rewrite scanTokens_app. unfold bind.
    destruct (scanTokens v formula (started self)) as [[[] | m | ] fr]
      eqn:Hscan; try reflexivity.
    pose proof (scanTokens_opens_bound v formula _ _ Hscan) as Hbound.
    assert (Hnone : opens (operatorsStack fr) = 0%nat).
    { simpl operatorsStack in Hbound. unfold opens at 2 in Hbound.
      simpl in Hbound. lia. }
    simpl scanTokens. unfold bind.
    rewrite (scanToken_close v fr Hv). unfold bind.
    rewrite (closeParen_as_drain _ fr eq_refl Hnone).
    destruct (drain fr) as [[[] | m | ] drained] eqn:Hdrain;
      try reflexivity.
    destruct (drain_normal fr drained Hdrain) as [_ Hempty].
    unfold popOperator, ret. rewrite Hempty.
    rewrite drain_unfold. unfold hasOperators. rewrite Hempty.
    reflexivity. }
  rewrite Htry. reflexivity.
Qed.

Lemma trailing_close_paren_is_ignored_witness :
  evaluate Sample.isLabel ["3"; "*"; "4"; "+"; "2"; ")"] Sample.evaluator =
  evaluate Sample.isLabel ["3"; "*"; "4"; "+"; "2"] Sample.evaluator /\
  result (evaluate Sample.isLabel ["3"; "*"; "4"; "+"; "2"; ")"]
            Sample.evaluator) = JS.Number "14".
Proof.
  split; [| reflexivity].
  exact (trailing_close_paren_is_ignored Sample.isLabel
           ["3"; "*"; "4"; "+"; "2"] Sample.evaluator eq_refl
           (le_S _ _ (le_S _ _ (le_S _ _ (le_n 2)))) eq_refl).
Defined.

(** ** The result after an abort *)

Lemma keepsResultUnlessDivision_trans fr fr1 c fr2 :
  keepsResultUnlessDivision fr (Normal tt) fr1 ->
  keepsResultUnlessDivision fr1 c fr2 ->
  keepsResultUnlessDivision fr c fr2.
Proof.
  unfold keepsResultUnlessDivision. destruct c; simpl; intros H1 H2;
    try congruence.
  intros Hm. rewrite (H2 Hm). exact H1.
Qed.

Lemma compute_keepsResultUnlessDivision :
  obeys keepsResultUnlessDivision compute.
Proof.
  intros fr. unfold keepsResultUnlessDivision.
  destruct (compute_effect fr); simpl; trivial.
  intros H. contradiction H. reflexivity.
Qed.

Lemma tryBlock_keepsResultUnlessDivision Cell_isValidCellLabel formula fr0 :
  match tryBlock Cell_isValidCellLabel formula fr0 with
  | (Throw message, fr) =>
      message <> ErrorMessages.divideByZero ->
      _result (this fr) = _result (this fr0)
  | _ => True
  end.
Proof.
  pose proof (obeys_scanTokens keepsResultUnlessDivision
                (fun fr => eq_refl) keepsResultUnlessDivision_trans
                Cell_isValidCellLabel
                (fun fr operands operators => eq_refl)
                (fun message fr => eq_refl)
                (fun fr => eq_refl)
                compute_keepsResultUnlessDivision formula fr0) as Hscan.
  unfold tryBlock, bind.
  destruct (scanTokens Cell_isValidCellLabel formula fr0)
    as [[[] | m | ] scanned]; simpl in Hscan; trivial.
  pose proof (obeys_drain keepsResultUnlessDivision
                (fun fr => eq_refl) keepsResultUnlessDivision_trans
                (fun message fr => eq_refl)
                compute_keepsResultUnlessDivision scanned) as Hdrain.
  destruct (drain scanned) as [[[] | m | ] drained]; simpl in Hdrain;
    trivial.
  - destruct drained as [self [| x [| y rest]] operators];
      unfold finalCheck; run_eval; trivial; intros _; congruence.
  - intros Hm. rewrite (Hdrain Hm). exact Hscan.
Qed.

(** X16.  When the [try] block of a formula of two tokens or more is
    aborted by a throw that is not the division by zero, the result accessor
    is the value on the operand stack if exactly one is left there, and 0
    otherwise. *)
Theorem result_after_abort :
  forall Cell_isValidCellLabel formula self message fr,
    (2 <= List.length formula)%nat ->
    tryBlock Cell_isValidCellLabel formula (started self)
      = (Throw message, fr) ->
    message <> ErrorMessages.divideByZero ->
    result (evaluate Cell_isValidCellLabel formula self) =
      match operandsStack fr with
      | [salvaged] => salvaged
      | _ => JS.zero
      end.
Proof.
  intros v formula self message fr Hlen Htry Hmessage.
  rewrite (evaluate_multi v formula self Hlen).
  pose proof (tryBlock_keepsResultUnlessDivision v formula (started self))
    as Hkeep.
  rewrite Htry in *. unfold result. rewrite catchBlock_result.
  rewrite (Hkeep Hmessage).
  destruct (operandsStack fr) as [| x [| y rest]]; reflexivity.
Qed.

Lemma result_after_abort_witness :
  let formula := ["2"; "+"; "3"; "4"] in
  error (evaluate Sample.isLabel formula Sample.evaluator)
    = "invalid formula" /\
  result (evaluate Sample.isLabel formula Sample.evaluator) = JS.zero.
Proof.
  split; [reflexivity |].
  pose (formula := ["2"; "+"; "3"; "4"]).
  apply (result_after_abort Sample.isLabel formula Sample.evaluator
           ErrorMessages.invalidFormula
           (snd (tryBlock Sample.isLabel formula (started Sample.evaluator)))).
  - exact (le_S _ _ (le_S _ _ (le_n 2))).
  - reflexivity.
  - discriminate.
Defined.

(** ** Cells as operands *)

Lemma scanToken_operand Cell_isValidCellLabel self token fr value :
  _sheetMemory (this fr) = _sheetMemory self ->
  operandOf Cell_isValidCellLabel self token = Some value ->
  scanToken Cell_isValidCellLabel token fr = pushOperand value fr.
Proof.
  intros Hmem. unfold operandOf, scanToken, isCellReference.
  destruct (isNumber token).
  { intros H. injection H as <-. reflexivity. }
  destruct (Cell_isValidCellLabel token); [| discriminate].
  unfold bind, getThis.
  rewrite (getCellValue_memory (this fr) self token Hmem).
  destruct (getCellValue self token) as [cellValue message]. simpl.
  destruct (JS.stringToBoolean message); [discriminate |].
  intros H. injection H as <-. reflexivity.
Qed.

Lemma scanToken_first_operator Cell_isValidCellLabel op self operands :
  isArithmetic op = true ->
  Cell_isValidCellLabel op = false ->
  scanToken Cell_isValidCellLabel op (mkFrame self operands []) =
  (Normal tt, mkFrame self operands [op]).
Proof.
  intros Hop Hv. unfold scanToken, isCellReference.
  destruct (isArithmetic_cases op Hop) as [-> | [-> | [-> | ->]]];
    rewrite Hv; reflexivity.
Qed.

(** X4.  In [x op y] each operand may be a number or a cell reference that
    resolves with no error: the operation is applied to the number written
    or to the value of the cell.  A division whose divisor is zero gives
    "divide by zero" and positive infinity. *)
Theorem binary_formula_of_operands :
  forall Cell_isValidCellLabel x op y self a b,
    operandOf Cell_isValidCellLabel self x = Some a ->
    operandOf Cell_isValidCellLabel self y = Some b ->
    isArithmetic op = true ->
    Cell_isValidCellLabel op = false ->
    let after := evaluate Cell_isValidCellLabel [x; op; y] self in
    match operate op a b with
    | Some value => error after = "" /\ result after = orZero value
    | None => error after = "divide by zero" /\ result after = JS.Infinity
    end.
Proof.
  intros v x op y self a b Hx Hy Hop Hv after. subst after.
  rewrite evaluate_multi by (simpl; lia).
  rewrite tryBlock_cons.
  rewrite scanToken_operand with (self := self) (value := a);
    [| reflexivity | exact Hx].
  unfold pushOperand, started, enter. simpl.
  rewrite tryBlock_cons, (scanToken_first_operator v op _ _ Hop Hv).
  rewrite tryBlock_cons.
  rewrite scanToken_operand with (self := self) (value := b);
    [| reflexivity | exact Hy].
  unfold pushOperand. simpl.
  destruct (isArithmetic_cases op Hop) as [-> | [-> | [-> | ->]]];
    run_formula; split_divisors; split; reflexivity.
Qed.

Lemma binary_formula_of_operands_witness :
  let sum := evaluate Sample.isLabel ["A1"; "+"; "4"] Sample.evaluator in
  let both := evaluate Sample.isLabel ["A1"; "*"; "A1"] Sample.evaluator in
  (error sum = "" /\ result sum = JS.Number "7") /\
  (error both = "" /\ result both = JS.Number "9").
Proof.
  split.
  - exact (binary_formula_of_operands Sample.isLabel "A1" "+" "4"
             Sample.evaluator (JS.ofZ 3) (JS.Number "4")
             eq_refl eq_refl eq_refl eq_refl).
  - exact (binary_formula_of_operands Sample.isLabel "A1" "*" "A1"
             Sample.evaluator (JS.ofZ 3) (JS.ofZ 3)
             eq_refl eq_refl eq_refl eq_refl).
Defined.
